(** * Brand-tracker analysis pipeline: a shallow embedding and its properties

    The development follows the server sources:
    - [Text], [Regex]: the JavaScript string and regular-expression
      operations the services rely on (ASCII text);
    - [Scraper]: [extractUrlsFromText], [extractDomainFromUrl]
      (server/services/scraper.ts);
    - [DiversityFilter]: [isDiverse], [generateDiversePrompts]
      (server/services/prompt-generator.ts);
    - [OpenAI]: [generatePromptsForTopic], [extractCompetitorsFromText]
      (server/services/openai.ts);
    - [MemStorage]: the in-memory [IStorage] (server/storage.ts);
    - [DatabaseStorage]: the counted tables of the SQL [IStorage]
      (server/database-storage.ts);
    - [Analyzer]: [runFullAnalysis], [stopCurrentAnalysis]
      (server/services/analyzer.ts), run here over [MemStorage].

    The services call a chat-completion service, the clock and
    [Math.random]; their answers are inputs of the model (an
    [Environment] per run, a [completion] function per generator). *)

From Stdlib Require Import List String Ascii Bool Arith ZArith Lia Permutation Sorted.
From Stdlib Require PrimFloat Uint63 DecimalString.
Import ListNotations.

Local Open Scope string_scope.
Local Open Scope list_scope.
Local Open Scope nat_scope.

(* ================================================================== *)
(** ** JavaScript strings, restricted to ASCII text *)
(* ================================================================== *)

Module Text.

(** A JavaScript string is modelled by a [string] of ASCII characters;
    case mapping and white space are those of the ASCII range. *)

Definition code (c : ascii) : nat := nat_of_ascii c.

Definition in_range (lo hi : nat) (c : ascii) : bool :=
  (lo <=? code c) && (code c <=? hi).

Definition is_upper : ascii -> bool := in_range 65 90.
Definition is_lower : ascii -> bool := in_range 97 122.
Definition is_digit : ascii -> bool := in_range 48 57.
Definition is_alpha (c : ascii) : bool := is_upper c || is_lower c.
Definition is_alnum (c : ascii) : bool := is_alpha c || is_digit c.

(** [\s] : tab, line feed, vertical tab, form feed, carriage return, space. *)
Definition is_space (c : ascii) : bool :=
  in_range 9 13 c || (code c =? 32).

(** [\w] *)
Definition is_word (c : ascii) : bool := is_alnum c || (code c =? 95).

Definition lower_char (c : ascii) : ascii :=
  if is_upper c then ascii_of_nat (code c + 32) else c.
Definition upper_char (c : ascii) : ascii :=
  if is_lower c then ascii_of_nat (code c - 32) else c.

Fixpoint toLowerCase (s : string) : string :=
  match s with
  | EmptyString => EmptyString
  | String c t => String (lower_char c) (toLowerCase t)
  end.

Definition one_of (cs : string) (c : ascii) : bool :=
  existsb (Ascii.eqb c) (list_ascii_of_string cs).

Fixpoint rev_string (acc s : string) : string :=
  match s with
  | EmptyString => acc
  | String c t => rev_string (String c acc) t
  end.
Definition reverse (s : string) : string := rev_string EmptyString s.

Fixpoint drop_while (p : ascii -> bool) (s : string) : string :=
  match s with
  | EmptyString => EmptyString
  | String c t => if p c then drop_while p t else s
  end.

Definition drop_while_end (p : ascii -> bool) (s : string) : string :=
  reverse (drop_while p (reverse s)).

(** [String.prototype.trim] *)
Definition trim (s : string) : string :=
  drop_while_end is_space (drop_while is_space s).

(** [s.startsWith(p)] *)
Definition startsWith (s p : string) : bool := String.prefix p s.

(** [s.endsWith(p)] *)
Definition endsWith (s p : string) : bool :=
  String.prefix (reverse p) (reverse s).

(** [s.includes(p)] *)
Fixpoint includes (s p : string) : bool :=
  String.prefix p s ||
  match s with
  | EmptyString => false
  | String _ t => includes t p
  end.

Fixpoint take (n : nat) (s : string) : string :=
  match n, s with
  | S n', String c t => String c (take n' t)
  | _, _ => EmptyString
  end.

(** [xs.includes(x)] on an array of strings *)
Definition mem (x : string) (xs : list string) : bool :=
  existsb (String.eqb x) xs.


(** [Array.from(new Set(xs))]: first occurrences, in order. *)
Fixpoint dedupe_acc (seen xs : list string) : list string :=
  match xs with
  | [] => []
  | x :: t =>
      if mem x seen then dedupe_acc seen t
      else x :: dedupe_acc (x :: seen) t
  end.
Definition dedupe (xs : list string) : list string := dedupe_acc [] xs.

(** [xs.join(sep)] *)
Fixpoint join (sep : string) (xs : list string) : string :=
  match xs with
  | [] => ""
  | [x] => x
  | x :: t => (x ++ sep ++ join sep t)%string
  end.

(** [s.split(c)] for a one-character separator: always at least one
    field. *)
Fixpoint split_on (p : ascii -> bool) (cur : string) (s : string)
  : list string :=
  match s with
  | EmptyString => [reverse cur]
  | String c t =>
      if p c then reverse cur :: split_on p EmptyString t
      else split_on p (String c cur) t
  end.
Definition split_char (c : ascii) (s : string) : list string :=
  split_on (Ascii.eqb c) EmptyString s.

(** [s.split(/\s+/)]: the fields between maximal runs of white space
    (a leading or trailing run yields an empty first or last field). *)
Fixpoint split_ws_aux (inws : bool) (cur : string) (s : string)
  : list string :=
  match s with
  | EmptyString => [reverse cur]
  | String c t =>
      if is_space c then
        if inws then split_ws_aux true cur t
        else reverse cur :: split_ws_aux true EmptyString t
      else split_ws_aux false (String c cur) t
  end.
Definition split_ws (s : string) : list string :=
  split_ws_aux false EmptyString s.

End Text.

(* ================================================================== *)
(** ** Regular expressions with JavaScript's backtracking semantics *)
(* ================================================================== *)

Module Regex.
Import Text.

(** The fragment of the pattern language the sources use.  [Rep a lo hi]
    is the greedy quantifier [a{lo,hi}] ([hi = None]: unbounded). *)
Inductive regex : Type :=
| Eps
| Cls (p : ascii -> bool)
| Cat (a b : regex)
| Alt (a b : regex)
| Rep (a : regex) (lo : nat) (hi : option nat)
| Bol
| Eol
| Wb.

(** A position is the character before it (if any) and the text after
    it; a continuation receives the position reached and answers with
    the remainder left by the whole match. *)
Definition cont := option ascii -> string -> option string.

Fixpoint rep (step : option ascii -> string -> cont -> option string)
    (fuel lo : nat) (hi : option nat)
    (pv : option ascii) (s : string) (k : cont) : option string :=
  let stop := if lo =? 0 then k pv s else None in
  match fuel with
  | 0 => stop
  | S fuel' =>
      match hi with
      | Some 0 => stop
      | _ =>
          match step pv s (fun pv' s' =>
                  if (lo =? 0) && (String.length s' =? String.length s)
                  then None
                  else rep step fuel' (pred lo) (option_map pred hi)
                         pv' s' k) with
          | Some r => Some r
          | None => stop
          end
      end
  end.

Fixpoint run (r : regex) (pv : option ascii) (s : string) (k : cont)
  : option string :=
  match r with
  | Eps => k pv s
  | Cls p =>
      match s with
      | String c t => if p c then k (Some c) t else None
      | EmptyString => None
      end
  | Cat a b => run a pv s (fun pv' s' => run b pv' s' k)
  | Alt a b =>
      match run a pv s k with
      | Some x => Some x
      | None => run b pv s k
      end
  | Rep a lo hi => rep (run a) (S (lo + String.length s)) lo hi pv s k
  | Bol => match pv with None => k pv s | Some _ => None end
  | Eol => match s with EmptyString => k pv s | _ => None end
  | Wb =>
      let before := match pv with Some c => is_word c | None => false end in
      let after := match s with String c _ => is_word c | _ => false end in
      if xorb before after then k pv s else None
  end.

(** One match attempt at a position: the matched text and the rest. *)
Definition exec_at (r : regex) (pv : option ascii) (s : string)
  : option (string * string) :=
  match run r pv s (fun _ s' => Some s') with
  | Some s' => Some (take (String.length s - String.length s') s, s')
  | None => None
  end.

Definition last_char (pv : option ascii) (m : string) : option ascii :=
  match reverse m with
  | String c _ => Some c
  | EmptyString => pv
  end.

(** Leftmost match: text before it, matched text, text after it. *)
Fixpoint search (r : regex) (pv : option ascii) (before s : string)
  : option (string * string * string) :=
  match exec_at r pv s with
  | Some (m, s') => Some (reverse before, m, s')
  | None =>
      match s with
      | String c t => search r (Some c) (String c before) t
      | EmptyString => None
      end
  end.

(** [r.test(s)] *)
Definition test (r : regex) (s : string) : bool :=
  match search r None EmptyString s with Some _ => true | None => false end.

(** [s.match(r) || []] for a pattern with the [g] flag. *)
Fixpoint matchAll_from (r : regex) (fuel : nat) (pv : option ascii)
    (s : string) : list string :=
  match fuel with
  | 0 => []
  | S fuel' =>
      match exec_at r pv s with
      | Some (m, s') =>
          if String.length m =? 0 then
            m :: match s with
                 | String c t => matchAll_from r fuel' (Some c) t
                 | EmptyString => []
                 end
          else m :: matchAll_from r fuel' (last_char pv m) s'
      | None =>
          match s with
          | String c t => matchAll_from r fuel' (Some c) t
          | EmptyString => []
          end
      end
  end.
Definition matchAll (r : regex) (s : string) : list string :=
  matchAll_from r (S (S (String.length s))) None s.

(** [s.replace(r, by)] without the [g] flag. *)
Definition replace (r : regex) (by_ : string) (s : string) : string :=
  match search r None EmptyString s with
  | Some (pre, _, post) => (pre ++ by_ ++ post)%string
  | None => s
  end.

(** [s.replace(r, by)] with the [g] flag. *)
Fixpoint replaceAll_from (r : regex) (by_ : string) (fuel : nat)
    (pv : option ascii) (s : string) : string :=
  match fuel with
  | 0 => s
  | S fuel' =>
      match exec_at r pv s with
      | Some (m, s') =>
          if String.length m =? 0 then
            match s with
            | String c t =>
                (by_ ++ String c (replaceAll_from r by_ fuel' (Some c) t))%string
            | EmptyString => by_
            end
          else (by_ ++ replaceAll_from r by_ fuel' (last_char pv m) s')%string
      | None =>
          match s with
          | String c t => String c (replaceAll_from r by_ fuel' (Some c) t)
          | EmptyString => EmptyString
          end
      end
  end.
Definition replaceAll (r : regex) (by_ : string) (s : string) : string :=
  replaceAll_from r by_ (S (S (String.length s))) None s.

(** Pattern combinators. *)
Definition chr (c : ascii) : regex := Cls (Ascii.eqb c).
Definition chr_ci (c : ascii) : regex :=
  Cls (fun x => Ascii.eqb (lower_char x) (lower_char c)).
Fixpoint lit (s : string) : regex :=
  match s with
  | EmptyString => Eps
  | String c EmptyString => chr c
  | String c t => Cat (chr c) (lit t)
  end.
Fixpoint lit_ci (s : string) : regex :=
  match s with
  | EmptyString => Eps
  | String c EmptyString => chr_ci c
  | String c t => Cat (chr_ci c) (lit_ci t)
  end.
Definition opt (r : regex) : regex := Rep r 0 (Some 1).
Definition plus (r : regex) : regex := Rep r 1 None.
Definition star (r : regex) : regex := Rep r 0 None.
Definition any_of (cs : string) : regex := Cls (one_of cs).
Definition none_of (p : ascii -> bool) : regex := Cls (fun c => negb (p c)).
Fixpoint alts (rs : list regex) : regex :=
  match rs with
  | [] => Cls (fun _ => false)
  | [r] => r
  | r :: t => Alt r (alts t)
  end.

End Regex.

(* ================================================================== *)
(** ** server/services/scraper.ts *)
(* ================================================================== *)

Module Scraper.
Import Text Regex.

(** *** The platform's [URL] class

    [URL_hostname s] models [new URL(s).hostname]: [None] when the
    constructor throws.  The model follows the WHATWG parser for
    absolute URLs without a base: scheme, the slashes after a special
    scheme, credentials, host and port.  Hosts are plain ASCII names:
    IPv4 numbers are not canonicalised, and bracketed IPv6 literals and
    percent-escapes make the parse fail. *)

Definition is_c0_or_space (c : ascii) : bool := code c <=? 32.

Fixpoint remove_chars (p : ascii -> bool) (s : string) : string :=
  match s with
  | EmptyString => EmptyString
  | String c t => if p c then remove_chars p t else String c (remove_chars p t)
  end.

Fixpoint span (p : ascii -> bool) (acc s : string) : string * string :=
  match s with
  | EmptyString => (reverse acc, EmptyString)
  | String c t => if p c then span p (String c acc) t else (reverse acc, s)
  end.

Fixpoint scheme_rest (acc s : string) : option (string * string) :=
  match s with
  | EmptyString => None
  | String c t =>
      if Ascii.eqb c ":" then Some (reverse acc, t)
      else if is_alnum c || one_of "+-." c
           then scheme_rest (String (lower_char c) acc) t
           else None
  end.

Definition split_scheme (s : string) : option (string * string) :=
  match s with
  | String c _ => if is_alpha c then scheme_rest EmptyString s else None
  | EmptyString => None
  end.

Definition special_schemes : list string :=
  ["http"; "https"; "ftp"; "ws"; "wss"].

(** The part of an authority after the last [@]. *)
Definition after_credentials (auth : string) : string :=
  last (split_char "@" auth) auth.

Definition forbidden_host_char (c : ascii) : bool :=
  is_c0_or_space c || (code c =? 127) || one_of "#/:<>?@[\]^|%" c.

Definition valid_port (p : string) : bool :=
  forallb is_digit (list_ascii_of_string p) &&
  (String.length (drop_while (Ascii.eqb "0") p) <=? 5) &&
  (fold_left (fun n c => 10 * n + Z.of_nat (code c - 48))%Z
     (list_ascii_of_string p) 0%Z <=? 65535)%Z.

Definition parse_host (special : bool) (auth : string) : option string :=
  let hp := after_credentials auth in
  let '(host, port) := span (fun c => negb (Ascii.eqb c ":")) EmptyString hp in
  let port_ok :=
    match port with
    | EmptyString => true
    | String _ p => valid_port p
    end in
  if negb port_ok then None
  else if existsb forbidden_host_char (list_ascii_of_string host) then None
  else if special then
    match host with
    | EmptyString => None
    | _ => Some (toLowerCase host)
    end
  else Some host.

Definition URL_hostname (input : string) : option string :=
  let s := remove_chars (one_of (String (ascii_of_nat 9)
                                 (String (ascii_of_nat 10)
                                 (String (ascii_of_nat 13) EmptyString))))
             (drop_while_end is_c0_or_space
                (drop_while is_c0_or_space input)) in
  match split_scheme s with
  | None => None
  | Some (scheme, rest) =>
      if mem scheme special_schemes then
        let rest' := drop_while (one_of "/\") rest in
        parse_host true (fst (span (fun c => negb (one_of "/\?#" c))
                                EmptyString rest'))
      else if String.prefix "//" rest then
        parse_host false
          (fst (span (fun c => negb (one_of "/?#" c)) EmptyString
                  (drop_while_end (fun _ => false)
                     (match rest with
                      | String _ (String _ r) => r
                      | _ => rest
                      end))))
      else Some EmptyString
  end.

(** *** [extractDomainFromUrl] *)

(** [/(?:https?:\/\/)?(?:www\.)?([^\/\s]+)/]: the text of group 1 of
    the leftmost match. *)
Definition domain_prefix : regex :=
  Cat (opt (Cat (lit "http") (Cat (opt (chr "s")) (lit "://"))))
      (opt (lit "www.")).
Definition domain_body : regex :=
  plus (none_of (fun c => Ascii.eqb c "/" || is_space c)).

Fixpoint domainMatch (pv : option ascii) (s : string) : option string :=
  match run domain_prefix pv s
          (fun pv' s' =>
             match exec_at domain_body pv' s' with
             | Some (g, _) => Some g
             | None => None
             end) with
  | Some g => Some g
  | None =>
      match s with
      | String c t => domainMatch (Some c) t
      | EmptyString => None
      end
  end.

Definition extractDomainFromUrl (url : string) : string :=
  match URL_hostname url with
  | Some h => h
  | None =>
      match domainMatch None url with
      | Some g => g
      | None => url
      end
  end.

(** *** [extractUrlsFromText] *)

(** The class [^\s<>{}|\\^`[\]] extended with the double quote, as in
    the source. *)
Definition url_char : regex :=
  none_of (fun c => is_space c || one_of "<>{}|\^`[]" c || (code c =? 34)).
Definition non_space : regex := none_of is_space.
(** The optional path: a slash followed by any run of non-space
    characters. *)
Definition path_opt : regex := opt (Cat (chr "/") (star non_space)).

(** [/https?:\/\/C+/g], with [C] the class [url_char] *)
Definition pat_protocol : regex :=
  Cat (lit "http") (Cat (opt (chr "s")) (Cat (lit "://") (plus url_char))).

(** [/www\.C+/g], with [C] the class [url_char] *)
Definition pat_www : regex := Cat (lit "www.") (plus url_char).

(** [/(?:^|\s)([a-zA-Z0-9]([a-zA-Z0-9-]{0,61}[a-zA-Z0-9])?\.)+[a-zA-Z]{2,}P/g], with [P] the optional path [path_opt] *)
Definition pat_domain : regex :=
  Cat (Alt Bol (Cls is_space))
    (Cat (plus (Cat (Cls is_alnum)
                 (Cat (opt (Cat (Rep (Cls (fun c => is_alnum c || Ascii.eqb c "-"))
                                   0 (Some 61))
                              (Cls is_alnum)))
                    (chr "."))))
       (Cat (Rep (Cls is_alpha) 2 None) path_opt)).

(** [/\b(?:[0-9]{1,3}\.){3}[0-9]{1,3}P/g], with [P] the optional path [path_opt] *)
Definition pat_ip : regex :=
  Cat Wb
    (Cat (Rep (Cat (Rep (Cls is_digit) 1 (Some 3)) (chr ".")) 3 (Some 3))
       (Cat (Rep (Cls is_digit) 1 (Some 3)) path_opt)).

(** [/localhost(?::[0-9]+)?P/g], with [P] the optional path [path_opt] *)
Definition pat_localhost : regex :=
  Cat (lit "localhost")
    (Cat (opt (Cat (chr ":") (plus (Cls is_digit)))) path_opt).

Definition urlPatterns : list regex :=
  [pat_protocol; pat_www; pat_domain; pat_ip; pat_localhost].

(** [/[.,;!?]+$/] *)
Definition trailing_punct : regex := Cat (plus (any_of ".,;!?")) Eol.

Definition cleanUrl (url : string) : string :=
  let cleanUrl := trim url in
  let cleanUrl :=
    if startsWith cleanUrl "http" then cleanUrl
    else ("https://" ++ cleanUrl)%string in
  trim (replace trailing_punct "" cleanUrl).

Definition keepUrl (url : string) : bool :=
  match URL_hostname url with
  | Some hostname =>
      if String.eqb hostname "example.com"
         || String.eqb hostname "localhost"
         || (String.length hostname <? 3)
      then false else true
  | None => false
  end.

Definition extractUrlsFromText (text : string) : list string :=
  let allUrls := flat_map (fun pattern => matchAll pattern text) urlPatterns in
  let cleanedUrls := filter keepUrl (map cleanUrl allUrls) in
  dedupe cleanedUrls.

End Scraper.

(* ================================================================== *)
(** ** JavaScript numbers *)
(* ================================================================== *)

Module Num.

(** A JavaScript number is an IEEE 754 double: the kernel's [float]. *)
Definition number := PrimFloat.float.

(** The number with the value of a (small) natural number, as the
    [length] of an array or the [size] of a set. *)
Definition of_nat (n : nat) : number :=
  PrimFloat.of_uint63 (Uint63.of_Z (Z.of_nat n)).

(** The double nearest to the decimal literal [0.15]. *)
Definition lit_0_15 : number :=
  Eval cbv in PrimFloat.div (of_nat 15) (of_nat 100).

Definition add : number -> number -> number := PrimFloat.add.
Definition sub : number -> number -> number := PrimFloat.sub.
Definition mul : number -> number -> number := PrimFloat.mul.
Definition div : number -> number -> number := PrimFloat.div.

(** [a > b] and [a < b]: false when either side is NaN. *)
Definition gt (a b : number) : bool := PrimFloat.ltb b a.
Definition lt (a b : number) : bool := PrimFloat.ltb a b.

End Num.

(* ================================================================== *)
(** ** server/services/prompt-generator.ts *)
(* ================================================================== *)

Module DiversityFilter.
Import Text.

(** [new Set(p.toLowerCase().split(/\s+/).filter(word => word.length > 2))] *)
Definition wordSet (p : string) : list string :=
  dedupe (filter (fun word => 2 <? String.length word)
            (split_ws (toLowerCase p))).

(** The word-overlap percentage computed inside [isDiverse]'s loop. *)
Definition similarity (newPrompt existingPrompt : string) : Num.number :=
  let newWords := wordSet newPrompt in
  let existingWords := wordSet existingPrompt in
  let intersection :=
    dedupe (filter (fun word => mem word existingWords) newWords) in
  let union := dedupe (newWords ++ existingWords) in
  Num.mul (Num.div (Num.of_nat (List.length intersection))
                   (Num.of_nat (List.length union)))
          (Num.of_nat 100).

Fixpoint isDiverse_loop (newPrompt : string) (existingPrompts : list string)
    (threshold : Num.number) : bool :=
  match existingPrompts with
  | [] => true
  | existingPrompt :: rest =>
      if Num.gt (similarity newPrompt existingPrompt)
                (Num.sub (Num.of_nat 100) threshold)
      then false
      else isDiverse_loop newPrompt rest threshold
  end.

Definition isDiverse (newPrompt : string) (existingPrompts : list string)
    (threshold : Num.number) : bool :=
  if List.length existingPrompts =? 0 then true
  else isDiverse_loop newPrompt existingPrompts threshold.

Definition contexts : list string :=
  ["startup with limited budget"; "enterprise application";
   "personal project"; "high-traffic application"; "development team";
   "solo developer"].

Definition questionTypes : list string :=
  ["I'm struggling with"; "What are the pros and cons of"; "Can you compare";
   "I need help choosing between"; "What would you recommend for";
   "How do I troubleshoot"; "What's the difference between";
   "Is there a better alternative to"].

(** [xs[i % xs.length]] inside a template literal: [undefined] is
    printed when the array is empty. *)
Definition cyclic (xs : list string) (i : nat) : string :=
  nth (i mod List.length xs) xs "undefined".

Definition generateFallbackPrompts (topicName : string)
    (competitors : list string) : list string :=
  map (fun i =>
         (cyclic questionTypes i ++ " " ++ topicName ++ " solutions for a "
          ++ cyclic contexts i ++ "? I've heard about "
          ++ cyclic competitors i ++ " but want to explore options.")%string)
      (seq 0 5).

Section Generate.
(** The chat-completion call of attempt [n] (counted from 1): [None]
    when the call throws or the message has no content. *)
Variable completion : nat -> option string.
Variable topicName : string.
Variable competitors : list string.
Variable promptsPerTopic : nat.
Variable diversityThreshold : Num.number.

Definition maxAttempts : nat := promptsPerTopic * 3.

(** The first [while] loop; [fuel] bounds the attempts left. *)
Fixpoint attemptLoop (fuel attempts : nat) (prompts : list string)
  : list string :=
  match fuel with
  | 0 => prompts
  | S fuel' =>
      if (List.length prompts <? promptsPerTopic) && (attempts <? maxAttempts)
      then
        let attempts := attempts + 1 in
        match completion attempts with
        | None => attemptLoop fuel' attempts prompts
        | Some content =>
            let newPrompt := trim content in
            if String.eqb newPrompt "" then
              attemptLoop fuel' attempts prompts
            else if (List.length prompts =? 0)
                    || isDiverse newPrompt prompts diversityThreshold
            then attemptLoop fuel' attempts (prompts ++ [newPrompt])
            else attemptLoop fuel' attempts prompts
        end
      else prompts
  end.

(** The [for] loop over the fallback prompts. *)
Fixpoint fallbackLoop (fallbackPrompts prompts : list string)
  : list string :=
  match fallbackPrompts with
  | [] => prompts
  | fallback :: rest =>
      if promptsPerTopic <=? List.length prompts then prompts
      else if isDiverse fallback prompts diversityThreshold
      then fallbackLoop rest (prompts ++ [fallback])
      else fallbackLoop rest prompts
  end.

Definition fillWithFallbacks (prompts : list string) : list string :=
  if List.length prompts <? promptsPerTopic then
    let prompts :=
      fallbackLoop (generateFallbackPrompts topicName competitors) prompts in
    if List.length prompts =? 0
    then prompts ++ [("Tell me about " ++ topicName
                      ++ " options available today.")%string]
    else prompts
  else prompts.

Definition generateDiversePrompts : list string :=
  firstn promptsPerTopic
    (fillWithFallbacks (attemptLoop maxAttempts 0 [])).
End Generate.

End DiversityFilter.

(* ================================================================== *)
(** ** server/services/openai.ts *)
(* ================================================================== *)

Module OpenAI.
Import Text Regex.

(** [PromptAnalysisResult] *)
Record PromptAnalysisResult : Type := {
  response : string;
  brandMentioned : bool;
  competitors : list string;
  sources : list string
}.

(** *** [generatePromptsForTopic] *)

Definition aspects : list string :=
  ["cost and pricing"; "ease of use"; "performance and speed";
   "reliability and stability"; "features and capabilities";
   "user experience"; "scaling and growth"; "support and documentation";
   "security and privacy"; "maintenance and updates"; "team collaboration";
   "integration options"; "backup and recovery";
   "compliance and regulations"; "cost optimization";
   "migration and switching"; "customization options";
   "troubleshooting and help"; "performance comparison";
   "automation capabilities"].

Definition dquote : ascii := ascii_of_nat 34.

(** The quote characters of the clean-up patterns that lie in ASCII:
    double quote, apostrophe, backtick. *)
Definition is_quote (c : ascii) : bool :=
  (code c =? 34) || (code c =? 39) || (code c =? 96).

(** [/^Q+|Q+$/g] over the quote class [Q] *)
Definition re_quote_runs : regex :=
  Alt (Cat Bol (plus (Cls is_quote))) (Cat (plus (Cls is_quote)) Eol).

(** A backslash followed by a double quote or an apostrophe, [g] flag. *)
Definition re_escaped_quote : regex :=
  Alt (Cat (chr "\") (chr dquote)) (Cat (chr "\") (chr "'")).

(** [/\s+(please|exactly|specifically)$/i] *)
Definition re_trailing_filler : regex :=
  Cat (plus (Cls is_space))
    (Cat (alts [lit_ci "please"; lit_ci "exactly"; lit_ci "specifically"])
         Eol).

(** [/^Q|Q$/] *)
Definition re_quote_edge : regex :=
  Alt (Cat Bol (Cls is_quote)) (Cat (Cls is_quote) Eol).

(** [/^(how|what|when|where|why|which|can|should|do|does|is|are|will)/i] *)
Definition re_question : regex :=
  Cat Bol
    (alts (map lit_ci
             ["how"; "what"; "when"; "where"; "why"; "which"; "can";
              "should"; "do"; "does"; "is"; "are"; "will"])).

(** The [while] loop that strips quotes left at either end. *)
Fixpoint stripQuoteEdges (fuel : nat) (newPrompt : string) : string :=
  match fuel with
  | 0 => newPrompt
  | S fuel' =>
      if test re_quote_edge newPrompt
      then stripQuoteEdges fuel' (trim (replaceAll re_quote_edge "" newPrompt))
      else newPrompt
  end.

Definition capitalize (s : string) : string :=
  match s with
  | EmptyString => EmptyString
  | String c t => String (upper_char c) t
  end.

(** The clean-up of one candidate, up to the acceptance test. *)
Definition cleanPrompt (newPrompt : string) : string :=
  let newPrompt :=
    trim (replace re_trailing_filler ""
            (replaceAll re_escaped_quote ""
               (replaceAll re_quote_runs "" newPrompt))) in
  let newPrompt := stripQuoteEdges (S (String.length newPrompt)) newPrompt in
  if 0 <? String.length newPrompt then
    let newPrompt := capitalize newPrompt in
    if test re_question newPrompt && negb (endsWith newPrompt "?")
    then (newPrompt ++ "?")%string
    else newPrompt
  else newPrompt.

Definition acceptable (newPrompt : string) : bool :=
  let words := List.length (split_char " " newPrompt) in
  (words <=? 12) && (3 <=? words) && includes newPrompt " ".

Definition fallbackTemplates (topicName : string) : list string :=
  let t := toLowerCase topicName in
  [ "Dealing with " ++ t ++ " complexity";
    "Need help optimizing " ++ t ++ " setup";
    "Struggling with " ++ t ++ " performance issues";
    "How to improve " ++ t ++ " reliability?";
    "Tired of " ++ t ++ " maintenance overhead";
    "Best practices for " ++ t ++ " implementation";
    "Looking to simplify " ++ t ++ " workflow";
    "Ways to reduce " ++ t ++ " costs";
    "Automating " ++ t ++ " processes better";
    topicName ++ " security considerations";
    "Monitoring and tracking for " ++ t;
    "Scaling " ++ t ++ " for growth";
    "Migration strategies for " ++ t;
    "Backup solutions for " ++ t;
    "Team collaboration with " ++ t;
    "Testing strategies for " ++ t;
    "Documentation needs for " ++ t;
    "Compliance requirements with " ++ t;
    "Integration challenges with " ++ t;
    "Performance comparison for " ++ t ]%string.

Definition string_of_nat (n : nat) : string :=
  DecimalString.NilZero.string_of_uint (Nat.to_uint n).

(** [`${topicName} question ${i + 1}`] *)
Definition simplePrompt (topicName : string) (i : nat) : string :=
  (topicName ++ " question " ++ string_of_nat (i + 1))%string.

Section Generate.
(** The chat-completion call of attempt [n] (counted from 1): [None]
    when the call throws, otherwise the content of the first choice
    (the empty string when it has none). *)
Variable completion : nat -> option string.
Variable topicName : string.
Variable count : nat.

Definition maxAttempts : nat := count * 5.

Fixpoint attemptLoop (fuel attempts : nat) (prompts : list string)
  : list string :=
  match fuel with
  | 0 => prompts
  | S fuel' =>
      if (List.length prompts <? count) && (attempts <? maxAttempts) then
        let attempts := attempts + 1 in
        match completion attempts with
        | None => attemptLoop fuel' attempts prompts
        | Some content =>
            let newPrompt := trim content in
            if String.eqb newPrompt "" then
              attemptLoop fuel' attempts prompts
            else
              let newPrompt := cleanPrompt newPrompt in
              if acceptable newPrompt
              then attemptLoop fuel' attempts (prompts ++ [newPrompt])
              else attemptLoop fuel' attempts prompts
        end
      else prompts
  end.

(** The [for] loop over the fallback templates. *)
Fixpoint templateLoop (templates prompts : list string) : list string :=
  match templates with
  | [] => prompts
  | template :: rest =>
      if count <=? List.length prompts then prompts
      else if negb (mem template prompts)
      then templateLoop rest (prompts ++ [template])
      else templateLoop rest prompts
  end.

(** The numbered variations, for [i] from [prompts.length] up to
    [count - 1]. *)
Definition numbered (prompts : list string) : list string :=
  prompts ++ map (simplePrompt topicName)
               (seq (List.length prompts) (count - List.length prompts)).

Definition fillToCount (prompts : list string) : list string :=
  if List.length prompts <? count then
    let prompts := templateLoop (fallbackTemplates topicName) prompts in
    if List.length prompts <? count then numbered prompts else prompts
  else prompts.

End Generate.

(** [topicDescription] is accepted and not used, as in the source. *)
Definition generatePromptsForTopic (completion : nat -> option string)
    (topicName topicDescription : string) (count : nat) : list string :=
  firstn count
    (fillToCount topicName count
       (attemptLoop completion count (maxAttempts count) 0 [])).

(** *** [calculateCompetitorSimilarity], [extractCompetitorsFromText] *)

Definition calculateCompetitorSimilarity (competitor1 competitor2 : string)
  : Num.number :=
  let text1 := toLowerCase competitor1 in
  let text2 := toLowerCase competitor2 in
  if String.eqb text1 text2 then Num.of_nat 100
  else if includes text1 text2 || includes text2 text1 then Num.of_nat 90
  else
    let words1 := filter (fun w => 2 <? String.length w) (split_ws text1) in
    let words2 := filter (fun w => 2 <? String.length w) (split_ws text2) in
    let intersection := filter (fun w => mem w words2) words1 in
    let union := dedupe (words1 ++ words2) in
    if 0 <? List.length union
    then Num.mul (Num.div (Num.of_nat (List.length intersection))
                          (Num.of_nat (List.length union)))
                 (Num.of_nat 100)
    else Num.of_nat 0.

(** What the completion of [extractCompetitorsFromText] parses to. *)
Inductive ExtractReply : Type :=
| ReplyThrows                                 (* the call or [JSON.parse] throws *)
| ReplyNotArray                               (* a JSON value that is no array *)
| ReplyArray (items : list (option string)).  (* [None]: an item that is no string *)

Fixpoint diverseLoop (competitors diverseCompetitors : list string)
  : list string :=
  match competitors with
  | [] => diverseCompetitors
  | competitor :: rest =>
      if 10 <=? List.length diverseCompetitors then diverseCompetitors
      else if forallb (fun existing =>
                         Num.lt (calculateCompetitorSimilarity competitor existing)
                                (Num.of_nat 70))
                      diverseCompetitors
      then diverseLoop rest (diverseCompetitors ++ [competitor])
      else diverseLoop rest diverseCompetitors
  end.

Definition extractCompetitorsFromText (reply : ExtractReply) : list string :=
  match reply with
  | ReplyThrows => []
  | ReplyNotArray => []
  | ReplyArray items =>
      diverseLoop
        (flat_map (fun item => match item with Some s => [s] | None => [] end)
           items)
        []
  end.

(** *** [callOpenAIWithRetry] *)

(** How the promise returned by [callOpenAIWithRetry] settles: with the
    value of a successful attempt, with the error of the last attempt, or
    with [undefined] when the loop is not entered. *)
Inductive Settled (A E : Type) : Type :=
| Resolved (value : A)
| Rejected (reason : E)
| ResolvedUndefined.
Arguments Resolved {A E} value.
Arguments Rejected {A E} reason.
Arguments ResolvedUndefined {A E}.

Section Retry.
Context {A E : Type}.
(** The outcome of the attempt numbered [n] (from 1): its value, or the
    error it throws (the 30 s timeout included). *)
Variable apiCall : nat -> A + E.
Variable maxRetries : nat.

(** The [for] loop from [attempt] on; the result comes with the delays
    (in milliseconds) waited between attempts, in order. *)
Fixpoint retryLoop (fuel attempt : nat) : Settled A E * list nat :=
  match fuel with
  | 0 => (ResolvedUndefined, [])
  | S fuel' =>
      if attempt <=? maxRetries then
        match apiCall attempt with
        | inl value => (Resolved value, [])
        | inr reason =>
            if attempt =? maxRetries then (Rejected reason, [])
            else
              let delay := 2 ^ attempt * 1000 in
              let '(outcome, delays) := retryLoop fuel' (attempt + 1) in
              (outcome, delay :: delays)
        end
      else (ResolvedUndefined, [])
  end.

Definition callOpenAIWithRetry : Settled A E * list nat :=
  retryLoop (S maxRetries) 1.
End Retry.

(** *** [extractSourcesFromText] *)

Record SourceRef : Type := {
  sr_title : string;
  sr_url : string;
  sr_domain : string;
  sr_snippet : option string
}.

(** An item of the parsed array: [null], a value that is no object, or
    an object with its [title], [url], [domain] and [snippet] fields
    ([None] when the field is absent; the fields are strings when
    present). *)
Inductive SourceItem : Type :=
| ItemNull
| ItemOther
| ItemObject (title url domain snippet : option string).

Inductive SourcesReply : Type :=
| SourcesThrows
| SourcesNotArray
| SourcesArray (items : list SourceItem).

Definition truthy (x : option string) : option string :=
  match x with
  | Some EmptyString => None
  | _ => x
  end.

Definition isNull (item : SourceItem) : bool :=
  match item with
  | ItemNull => true
  | _ => false
  end.

(** The [filter] callback reads [item.title] of every item that is an
    object; [null] is one to [typeof], so reading its field throws and
    the [catch] block returns the empty array. *)
Definition extractSourcesFromText (reply : SourcesReply) : list SourceRef :=
  match reply with
  | SourcesThrows => []
  | SourcesNotArray => []
  | SourcesArray items =>
      if existsb isNull items then []
      else
        flat_map
          (fun item =>
             match item with
             | ItemObject title url domain snippet =>
                 match truthy title, truthy url, truthy domain with
                 | Some t, Some u, Some d =>
                     [{| sr_title := t; sr_url := u; sr_domain := d;
                         sr_snippet := snippet |}]
                 | _, _, _ => []
                 end
             | _ => []
             end)
          items
  end.

(** *** [generateDynamicTopics] *)

Record TopicDraft : Type := {
  td_name : string;
  td_description : string
}.

(** An item of the parsed array: [null], whose fields cannot be read, or
    any other value with its [name] and [description] fields ([None]
    when the field is absent; the fields are strings when present). *)
Inductive TopicItem : Type :=
| TopicNull
| TopicFields (name description : option string).

Inductive TopicsReply : Type :=
| TopicsThrows                       (* the call or [JSON.parse] throws *)
| TopicsNotArray                     (* a JSON value that is no array *)
| TopicsArray (items : list TopicItem).

(** [Array.from({ length: count }, (_, i) => ...)] *)
Definition numberedTopics (prefix description : string) (count : nat)
  : list TopicDraft :=
  map (fun i => {| td_name := (prefix ++ string_of_nat (i + 1))%string;
                   td_description := description |})
    (seq 0 count).

Definition topicOf (name description : option string) : TopicDraft :=
  {| td_name :=
       match truthy name with
       | Some n => n
       | None => "General Analysis"
       end;
     td_description :=
       match truthy description with
       | Some d => d
       | None =>
           ("Analysis of "
            ++ match truthy name with Some n => n | None => "general" end
            ++ " aspects")%string
       end |}.

(** Reading [topic.name] of a [null] item among the first [count] throws,
    and the [catch] block returns its own topics. *)
Definition generateDynamicTopics (reply : TopicsReply) (count : nat)
  : list TopicDraft :=
  let failed :=
    numberedTopics "Brand Analysis "
      "Comprehensive analysis of brand positioning and market dynamics"
      count in
  match reply with
  | TopicsThrows => failed
  | TopicsNotArray =>
      numberedTopics "Analysis Topic "
        "Dynamic analysis topic generated for brand analysis" count
  | TopicsArray items =>
      let taken := firstn count items in
      if existsb (fun item => match item with
                              | TopicNull => true
                              | _ => false
                              end) taken
      then failed
      else
        flat_map (fun item =>
                    match item with
                    | TopicFields name description =>
                        [topicOf name description]
                    | TopicNull => []
                    end)
          taken
  end.

(** *** [analyzeBrandAndFindCompetitors] *)

(** The [name] of a competitor found by an attempt: a string, or another
    truthy value, which has no [toLowerCase]. *)
Inductive NameValue : Type :=
| NameString (s : string)
| NameOther.

(** A competitor as an attempt returns it: the filter has kept it, so its
    three fields are truthy; [url] and [category] are carried along. *)
Record FoundCompetitor : Type := {
  fc_name : NameValue;
  fc_url : string;
  fc_category : string
}.

(** The two nested [forEach] loops over the results of the attempts:
    [None] when reading a name throws. *)
Fixpoint aggregate (found : list FoundCompetitor) (seenNames : list string)
    (allCompetitors : list FoundCompetitor)
  : option (list FoundCompetitor) :=
  match found with
  | [] => Some allCompetitors
  | competitor :: rest =>
      match fc_name competitor with
      | NameOther => None
      | NameString name =>
          let normalizedName := trim (toLowerCase name) in
          if mem normalizedName seenNames
          then aggregate rest seenNames allCompetitors
          else aggregate rest (seenNames ++ [normalizedName])
                 (allCompetitors ++ [competitor])
      end
  end.

Definition sampleCompetitors : list FoundCompetitor :=
  [ {| fc_name := NameString "Sample Competitor 1";
       fc_url := "https://competitor1.com"; fc_category := "Technology" |};
    {| fc_name := NameString "Sample Competitor 2";
       fc_url := "https://competitor2.com"; fc_category := "Technology" |} ].

(** [hasKey]: an API key is configured; [attempt i]: what the attempt of
    index [i] returns (the empty array when it fails: each attempt
    catches its own errors, and [fetchWebsiteText] does not throw). *)
Definition analyzeBrandAndFindCompetitors (hasKey : bool)
    (attempt : nat -> list FoundCompetitor) : list FoundCompetitor :=
  if negb hasKey then sampleCompetitors
  else
    match aggregate (flat_map attempt (seq 0 3)) [] [] with
    | Some allCompetitors => firstn 8 allCompetitors
    | None => []
    end.

End OpenAI.

(* ================================================================== *)
(** ** server/storage.ts: the in-memory storage *)
(* ================================================================== *)

Module MemStorage.
Import Text.

(** A [Date] is an abstract instant. *)
Definition Date := nat.

(** *** [Map<number, V>]: entries in insertion order *)
Section JsMap.
Context {V : Type}.

Definition JsMap := list (nat * V).

(** [m.set(k, v)]: an existing key keeps its place. *)
Fixpoint map_set (k : nat) (v : V) (m : JsMap) : JsMap :=
  match m with
  | [] => [(k, v)]
  | (k', v') :: rest =>
      if k' =? k then (k, v) :: rest else (k', v') :: map_set k v rest
  end.

(** [Array.from(m.values())] *)
Definition map_values (m : JsMap) : list V := map snd m.

(** The in-place update of the first value that satisfies [p]: what a
    mutation of the object returned by [find] does to the map. *)
Fixpoint mutate_first (p : V -> bool) (f : V -> V) (m : JsMap) : JsMap :=
  match m with
  | [] => []
  | (k, v) :: rest =>
      if p v then (k, f v) :: rest else (k, v) :: mutate_first p f rest
  end.
End JsMap.
Arguments JsMap V : clear implicits.

(** [x || null] on a string and on a count. *)
Definition orNullString (x : option string) : option string :=
  match x with
  | Some EmptyString => None
  | _ => x
  end.
Definition orNullCount (x : option Z) : option Z :=
  match x with
  | Some 0%Z => None
  | _ => x
  end.
Definition orNullNumber (x : option Num.number) : option Num.number :=
  match x with
  | Some f =>
      if PrimFloat.eqb f PrimFloat.zero || PrimFloat.is_nan f
      then None else x
  | None => None
  end.

(** *** Records of shared/schema.ts *)

Record Topic : Type := {
  topic_id : nat;
  topic_name : string;
  topic_description : option string;
  topic_createdAt : Date
}.
Record InsertTopic : Type := {
  it_name : string;
  it_description : option string
}.

Record Prompt : Type := {
  prompt_id : nat;
  prompt_text : string;
  prompt_topicId : option nat;
  prompt_createdAt : Date
}.
Record InsertPrompt : Type := {
  ip_text : string;
  ip_topicId : option nat
}.

Record Response : Type := {
  response_id : nat;
  promptId : nat;
  response_text : string;
  brandMentioned : option bool;
  competitorsMentioned : option (list string);
  response_sources : option (list string);
  response_createdAt : Date
}.
Record InsertResponse : Type := {
  ir_promptId : nat;
  ir_text : string;
  ir_brandMentioned : option bool;
  ir_competitorsMentioned : option (list string);
  ir_sources : option (list string)
}.

Record Competitor : Type := {
  competitor_id : nat;
  competitor_name : string;
  category : option string;
  mentionCount : option Z;
  lastMentioned : option Date
}.
Record InsertCompetitor : Type := {
  ic_name : string;
  ic_category : option string;
  ic_mentionCount : option Z
}.

Record Source : Type := {
  source_id : nat;
  domain : string;
  url : string;
  title : option string;
  citationCount : option Z;
  lastCited : option Date
}.
Record InsertSource : Type := {
  is_domain : string;
  is_url : string;
  is_title : option string;
  is_citationCount : option Z
}.

Record Analytics : Type := {
  analytics_id : nat;
  date : Date;
  totalPrompts : option Z;
  brandMentionRate : option Num.number;
  topCompetitor : option string;
  totalSources : option Z;
  totalDomains : option Z
}.
Record InsertAnalytics : Type := {
  ia_totalPrompts : option Z;
  ia_brandMentionRate : option Num.number;
  ia_topCompetitor : option string;
  ia_totalSources : option Z;
  ia_totalDomains : option Z
}.

(** *** The state of a [MemStorage] object *)
Record t : Type := {
  topics : JsMap Topic;
  prompts : JsMap Prompt;
  responses : JsMap Response;
  competitors : JsMap Competitor;
  sources : JsMap Source;
  analytics : JsMap Analytics;
  currentTopicId : nat;
  currentPromptId : nat;
  currentResponseId : nat;
  currentCompetitorId : nat;
  currentSourceId : nat;
  currentAnalyticsId : nat
}.

(** [new MemStorage()] *)
Definition empty : t :=
  {| topics := []; prompts := []; responses := []; competitors := [];
     sources := []; analytics := [];
     currentTopicId := 1; currentPromptId := 1; currentResponseId := 1;
     currentCompetitorId := 1; currentSourceId := 1;
     currentAnalyticsId := 1 |}.

Definition set_topics (st : t) m n : t :=
  {| topics := m; prompts := prompts st; responses := responses st;
     competitors := competitors st; sources := sources st;
     analytics := analytics st;
     currentTopicId := n; currentPromptId := currentPromptId st;
     currentResponseId := currentResponseId st;
     currentCompetitorId := currentCompetitorId st;
     currentSourceId := currentSourceId st;
     currentAnalyticsId := currentAnalyticsId st |}.
Definition set_prompts (st : t) m n : t :=
  {| topics := topics st; prompts := m; responses := responses st;
     competitors := competitors st; sources := sources st;
     analytics := analytics st;
     currentTopicId := currentTopicId st; currentPromptId := n;
     currentResponseId := currentResponseId st;
     currentCompetitorId := currentCompetitorId st;
     currentSourceId := currentSourceId st;
     currentAnalyticsId := currentAnalyticsId st |}.
Definition set_responses (st : t) m n : t :=
  {| topics := topics st; prompts := prompts st; responses := m;
     competitors := competitors st; sources := sources st;
     analytics := analytics st;
     currentTopicId := currentTopicId st;
     currentPromptId := currentPromptId st; currentResponseId := n;
     currentCompetitorId := currentCompetitorId st;
     currentSourceId := currentSourceId st;
     currentAnalyticsId := currentAnalyticsId st |}.
Definition set_competitors (st : t) m n : t :=
  {| topics := topics st; prompts := prompts st; responses := responses st;
     competitors := m; sources := sources st; analytics := analytics st;
     currentTopicId := currentTopicId st;
     currentPromptId := currentPromptId st;
     currentResponseId := currentResponseId st; currentCompetitorId := n;
     currentSourceId := currentSourceId st;
     currentAnalyticsId := currentAnalyticsId st |}.
Definition set_sources (st : t) m n : t :=
  {| topics := topics st; prompts := prompts st; responses := responses st;
     competitors := competitors st; sources := m; analytics := analytics st;
     currentTopicId := currentTopicId st;
     currentPromptId := currentPromptId st;
     currentResponseId := currentResponseId st;
     currentCompetitorId := currentCompetitorId st; currentSourceId := n;
     currentAnalyticsId := currentAnalyticsId st |}.
Definition set_analytics (st : t) m n : t :=
  {| topics := topics st; prompts := prompts st; responses := responses st;
     competitors := competitors st; sources := sources st; analytics := m;
     currentTopicId := currentTopicId st;
     currentPromptId := currentPromptId st;
     currentResponseId := currentResponseId st;
     currentCompetitorId := currentCompetitorId st;
     currentSourceId := currentSourceId st; currentAnalyticsId := n |}.

(** *** Topics, prompts, responses *)

Definition getTopics (st : t) : list Topic := map_values (topics st).

Definition createTopic (now : Date) (topic : InsertTopic) (st : t)
  : t * Topic :=
  let newTopic :=
    {| topic_id := currentTopicId st; topic_name := it_name topic;
       topic_description := it_description topic;
       topic_createdAt := now |} in
  (set_topics st (map_set (topic_id newTopic) newTopic (topics st))
     (currentTopicId st + 1),
   newTopic).

Definition getPrompts (st : t) : list Prompt := map_values (prompts st).

Definition createPrompt (now : Date) (prompt : InsertPrompt) (st : t)
  : t * Prompt :=
  let newPrompt :=
    {| prompt_id := currentPromptId st; prompt_text := ip_text prompt;
       prompt_topicId := ip_topicId prompt; prompt_createdAt := now |} in
  (set_prompts st (map_set (prompt_id newPrompt) newPrompt (prompts st))
     (currentPromptId st + 1),
   newPrompt).

Definition getResponses (st : t) : list Response :=
  map_values (responses st).

Definition createResponse (now : Date) (response : InsertResponse) (st : t)
  : t * Response :=
  let newResponse :=
    {| response_id := currentResponseId st;
       promptId := ir_promptId response;
       response_text := ir_text response;
       brandMentioned := ir_brandMentioned response;
       competitorsMentioned := ir_competitorsMentioned response;
       response_sources := ir_sources response;
       response_createdAt := now |} in
  (set_responses st
     (map_set (response_id newResponse) newResponse (responses st))
     (currentResponseId st + 1),
   newResponse).

(** *** Competitors *)

Definition getCompetitors (st : t) : list Competitor :=
  map_values (competitors st).

Definition createCompetitor (competitor : InsertCompetitor) (st : t)
  : t * Competitor :=
  let newCompetitor :=
    {| competitor_id := currentCompetitorId st;
       competitor_name := ic_name competitor;
       category := orNullString (ic_category competitor);
       mentionCount := orNullCount (ic_mentionCount competitor);
       lastMentioned := None |} in
  (set_competitors st
     (map_set (competitor_id newCompetitor) newCompetitor (competitors st))
     (currentCompetitorId st + 1),
   newCompetitor).

Definition getCompetitorByName (name : string) (st : t)
  : option Competitor :=
  find (fun c => String.eqb (competitor_name c) name) (getCompetitors st).

Definition updateCompetitorMentionCount (now : Date) (name : string)
    (increment : Z) (st : t) : t :=
  match getCompetitorByName name st with
  | Some competitor =>
      match mentionCount competitor with
      | Some n =>
          let updated :=
            {| competitor_id := competitor_id competitor;
               competitor_name := competitor_name competitor;
               category := category competitor;
               mentionCount := Some (n + increment)%Z;
               lastMentioned := Some now |} in
          set_competitors st
            (map_set (competitor_id updated) updated
               (mutate_first
                  (fun c => String.eqb (competitor_name c) name)
                  (fun _ => updated) (competitors st)))
            (currentCompetitorId st)
      | None => st
      end
  | None => st
  end.

(** *** Sources *)

Definition getSources (st : t) : list Source := map_values (sources st).

Definition createSource (now : Date) (source : InsertSource) (st : t)
  : t * Source :=
  let newSource :=
    {| source_id := currentSourceId st;
       domain := is_domain source;
       url := is_url source;
       title := orNullString (is_title source);
       citationCount := orNullCount (is_citationCount source);
       lastCited := Some now |} in
  (set_sources st (map_set (source_id newSource) newSource (sources st))
     (currentSourceId st + 1),
   newSource).

Definition getSourceByDomain (d : string) (st : t) : option Source :=
  find (fun s => String.eqb (domain s) d) (getSources st).

Definition updateSourceCitationCount (now : Date) (d : string)
    (increment : Z) (st : t) : t :=
  match getSourceByDomain d st with
  | Some source =>
      match citationCount source with
      | Some n =>
          let updated :=
            {| source_id := source_id source;
               domain := domain source;
               url := url source;
               title := title source;
               citationCount := Some (n + increment)%Z;
               lastCited := Some now |} in
          set_sources st
            (map_set (source_id updated) updated
               (mutate_first (fun s => String.eqb (domain s) d)
                  (fun _ => updated) (sources st)))
            (currentSourceId st)
      | None => st
      end
  | None => st
  end.

(** *** Analytics *)

Definition createAnalytics (now : Date) (a : InsertAnalytics) (st : t)
  : t * Analytics :=
  let newAnalytics :=
    {| analytics_id := currentAnalyticsId st;
       date := now;
       totalPrompts := orNullCount (ia_totalPrompts a);
       brandMentionRate := orNullNumber (ia_brandMentionRate a);
       topCompetitor := orNullString (ia_topCompetitor a);
       totalSources := orNullCount (ia_totalSources a);
       totalDomains := orNullCount (ia_totalDomains a) |} in
  (set_analytics st
     (map_set (analytics_id newAnalytics) newAnalytics (analytics st))
     (currentAnalyticsId st + 1),
   newAnalytics).

(** *** Clearing *)

Definition clearAllPrompts (st : t) : t := set_prompts st [] 1.
Definition clearAllResponses (st : t) : t := set_responses st [] 1.
Definition clearAllCompetitors (st : t) : t := set_competitors st [] 1.

(** *** Lookups by identifier and the read-only queries *)

(** [m.get(k)] *)
Fixpoint map_get {V : Type} (k : nat) (m : JsMap V) : option V :=
  match m with
  | [] => None
  | (k', v) :: rest => if k' =? k then Some v else map_get k rest
  end.

(** [xs.sort(compare)] for a comparator that orders by a key:
    [before a b] tells that [compare(a, b) <= 0].  The sort is stable, so
    its result is the one of the stable insertion sort. *)
Fixpoint insert_sorted {A : Type} (before : A -> A -> bool) (x : A)
    (l : list A) : list A :=
  match l with
  | [] => [x]
  | y :: rest =>
      if before x y then x :: l else y :: insert_sorted before x rest
  end.

Definition sort {A : Type} (before : A -> A -> bool) (l : list A) : list A :=
  fold_right (insert_sorted before) [] l.

Definition getTopicById (id : nat) (st : t) : option Topic :=
  map_get id (topics st).

Definition getPromptById (id : nat) (st : t) : option Prompt :=
  map_get id (prompts st).

Definition getResponseById (id : nat) (st : t) : option Response :=
  map_get id (responses st).

(** [PromptWithTopic] *)
Record PromptWithTopic : Type := {
  pwt_prompt : Prompt;
  pwt_topic : option Topic
}.

Definition getPromptsWithTopics (st : t) : list PromptWithTopic :=
  map (fun prompt =>
         {| pwt_prompt := prompt;
            pwt_topic :=
              match prompt_topicId prompt with
              | Some 0 => None
              | Some topicId => map_get topicId (topics st)
              | None => None
              end |})
    (map_values (prompts st)).

Definition getPromptsByTopic (topicId : nat) (st : t) : list Prompt :=
  filter (fun p =>
            match prompt_topicId p with
            | Some i => i =? topicId
            | None => false
            end)
    (map_values (prompts st)).

(** [ResponseWithPrompt]: [rwp_prompt] is [None] when no prompt has the
    identifier the response refers to (the spread of [undefined] leaves
    only the [topic] field). *)
Record ResponseWithPrompt : Type := {
  rwp_response : Response;
  rwp_prompt : option Prompt;
  rwp_topic : option Topic
}.

Definition joinPrompt (st : t) (response : Response) : ResponseWithPrompt :=
  let prompt := map_get (promptId response) (prompts st) in
  {| rwp_response := response;
     rwp_prompt := prompt;
     rwp_topic :=
       match prompt with
       | Some p =>
           map_get (match prompt_topicId p with Some i => i | None => 0 end)
             (topics st)
       | None => None
       end |}.

Definition getResponsesWithPrompts (st : t) : list ResponseWithPrompt :=
  map (joinPrompt st) (map_values (responses st)).

(** [getRecentResponses(limit)]: newest first by [createdAt]. *)
Definition getRecentResponses (limit : nat) (st : t)
  : list ResponseWithPrompt :=
  firstn limit
    (sort (fun a b => response_createdAt (rwp_response b)
                      <=? response_createdAt (rwp_response a))
       (getResponsesWithPrompts st)).

Definition getLatestAnalytics (st : t) : option Analytics :=
  hd_error (sort (fun a b => date b <=? date a) (map_values (analytics st))).

(** The truthiness of the stored brand flag. *)
Definition mentioned (r : Response) : bool :=
  match brandMentioned r with
  | Some b => b
  | None => false
  end.

(** [TopicAnalysis] *)
Record TopicAnalysis : Type := {
  ta_topicId : nat;
  ta_topicName : string;
  ta_mentionRate : Num.number;
  ta_totalPrompts : nat;
  ta_brandMentions : nat
}.

(** [(mentions / total) * 100], or 0 when [total] is 0. *)
Definition rate (mentions total : nat) : Num.number :=
  if 0 <? total
  then Num.mul (Num.div (Num.of_nat mentions) (Num.of_nat total))
               (Num.of_nat 100)
  else Num.of_nat 0.

Definition getTopicAnalysis (st : t) : list TopicAnalysis :=
  let responses := getResponsesWithPrompts st in
  map (fun topic =>
         let topicResponses :=
           filter (fun r =>
                     match rwp_prompt r with
                     | Some p =>
                         match prompt_topicId p with
                         | Some i => i =? topic_id topic
                         | None => false
                         end
                     | None => false
                     end)
             responses in
         let brandMentions :=
           List.length (filter (fun r => mentioned (rwp_response r))
                          topicResponses) in
         {| ta_topicId := topic_id topic;
            ta_topicName := topic_name topic;
            ta_mentionRate := rate brandMentions (List.length topicResponses);
            ta_totalPrompts := List.length topicResponses;
            ta_brandMentions := brandMentions |})
    (getTopics st).

(** [CompetitorAnalysis] *)
Record CompetitorAnalysis : Type := {
  ca_competitorId : nat;
  ca_name : string;
  ca_category : option string;
  ca_mentionCount : nat;
  ca_mentionRate : Num.number;
  ca_changeRate : Num.number
}.

(** [r.competitorsMentioned?.includes(name)] *)
Definition names (name : string) (r : Response) : bool :=
  match competitorsMentioned r with
  | Some cs => Text.mem name cs
  | None => false
  end.

Definition getCompetitorAnalysis (st : t) : list CompetitorAnalysis :=
  let responses := getResponses st in
  let totalResponses := List.length responses in
  map (fun competitor =>
         let mentions :=
           List.length (filter (names (competitor_name competitor)) responses) in
         {| ca_competitorId := competitor_id competitor;
            ca_name := competitor_name competitor;
            ca_category := category competitor;
            ca_mentionCount := mentions;
            ca_mentionRate := rate mentions totalResponses;
            ca_changeRate := Num.of_nat 0 |})
    (getCompetitors st).

(** [SourceAnalysis] *)
Record SourceAnalysis : Type := {
  sa_sourceId : nat;
  sa_domain : string;
  sa_citationCount : Z;
  sa_urls : list string
}.

(** [source.citationCount || 0] *)
Definition citations (s : Source) : Z :=
  match citationCount s with
  | Some n => n
  | None => 0%Z
  end.

(** One round of the [forEach] that fills the [sourceAnalysis] map. *)
Fixpoint addSource (source : Source) (m : list SourceAnalysis)
  : list SourceAnalysis :=
  match m with
  | [] =>
      [{| sa_sourceId := source_id source; sa_domain := domain source;
          sa_citationCount := citations source; sa_urls := [url source] |}]
  | existing :: rest =>
      if String.eqb (sa_domain existing) (domain source)
      then {| sa_sourceId := sa_sourceId existing;
              sa_domain := sa_domain existing;
              sa_citationCount :=
                (sa_citationCount existing + citations source)%Z;
              sa_urls := sa_urls existing ++ [url source] |} :: rest
      else existing :: addSource source rest
  end.

Definition groupSources (sources : list Source) : list SourceAnalysis :=
  fold_left (fun m source => addSource source m) sources [].

Definition getSourceAnalysis (st : t) : list SourceAnalysis :=
  sort (fun a b => (sa_citationCount b <=? sa_citationCount a)%Z)
    (groupSources (getSources st)).

(** [getLatestResponses]: highest identifier first. *)
Definition getLatestResponses (st : t) : list ResponseWithPrompt :=
  let allResponses := map_values (responses st) in
  if List.length allResponses =? 0 then []
  else map (joinPrompt st)
         (sort (fun a b => response_id b <=? response_id a) allResponses).

(** [getLatestPrompts]: lowest identifier first. *)
Definition getLatestPrompts (st : t) : list Prompt :=
  sort (fun a b => prompt_id a <=? prompt_id b) (map_values (prompts st)).

End MemStorage.

(* ================================================================== *)
(** ** The database storage: competitor and source counts *)
(* ================================================================== *)

Module DatabaseStorage.

(** The other implementation of the storage interface keeps the records
    in SQL tables.  Only the operations on the two counted tables are
    modelled, with the meaning of the statements they issue:
    [insert ... values ... returning] appends a row (a count that is not
    given takes the column default 0; a competitor name that is already
    present violates the unique constraint and the call throws);
    [update ... set count = count + n where ...] adds to the count of
    every matching row, a null count staying null. *)
Record t : Type := {
  competitors : list MemStorage.Competitor;
  sources : list MemStorage.Source;
  nextCompetitorId : nat;
  nextSourceId : nat
}.

Definition getCompetitorByName (name : string) (db : t)
  : option MemStorage.Competitor :=
  find (fun c => String.eqb (MemStorage.competitor_name c) name)
    (competitors db).

Definition createCompetitor (competitor : MemStorage.InsertCompetitor)
    (db : t) : option (t * MemStorage.Competitor) :=
  match getCompetitorByName (MemStorage.ic_name competitor) db with
  | Some _ => None
  | None =>
      let created :=
        {| MemStorage.competitor_id := nextCompetitorId db;
           MemStorage.competitor_name := MemStorage.ic_name competitor;
           MemStorage.category := MemStorage.ic_category competitor;
           MemStorage.mentionCount :=
             match MemStorage.ic_mentionCount competitor with
             | Some n => Some n
             | None => Some 0%Z
             end;
           MemStorage.lastMentioned := None |} in
      Some ({| competitors := competitors db ++ [created];
               sources := sources db;
               nextCompetitorId := nextCompetitorId db + 1;
               nextSourceId := nextSourceId db |},
            created)
  end.

Definition updateCompetitorMentionCount (name : string) (increment : Z)
    (db : t) : t :=
  {| competitors :=
       map (fun c =>
              if String.eqb (MemStorage.competitor_name c) name
              then {| MemStorage.competitor_id := MemStorage.competitor_id c;
                      MemStorage.competitor_name := MemStorage.competitor_name c;
                      MemStorage.category := MemStorage.category c;
                      MemStorage.mentionCount :=
                        option_map (fun n => (n + increment)%Z)
                          (MemStorage.mentionCount c);
                      MemStorage.lastMentioned := MemStorage.lastMentioned c |}
              else c)
         (competitors db);
     sources := sources db;
     nextCompetitorId := nextCompetitorId db;
     nextSourceId := nextSourceId db |}.

Definition getSourceByDomain (d : string) (db : t)
  : option MemStorage.Source :=
  find (fun s => String.eqb (MemStorage.domain s) d) (sources db).

Definition createSource (source : MemStorage.InsertSource) (db : t)
  : t * MemStorage.Source :=
  let created :=
    {| MemStorage.source_id := nextSourceId db;
       MemStorage.domain := MemStorage.is_domain source;
       MemStorage.url := MemStorage.is_url source;
       MemStorage.title := MemStorage.is_title source;
       MemStorage.citationCount :=
         match MemStorage.is_citationCount source with
         | Some n => Some n
         | None => Some 0%Z
         end;
       MemStorage.lastCited := None |} in
  ({| competitors := competitors db;
      sources := sources db ++ [created];
      nextCompetitorId := nextCompetitorId db;
      nextSourceId := nextSourceId db + 1 |},
   created).

Definition updateSourceCitationCount (d : string) (increment : Z) (db : t)
  : t :=
  {| competitors := competitors db;
     sources :=
       map (fun s =>
              if String.eqb (MemStorage.domain s) d
              then {| MemStorage.source_id := MemStorage.source_id s;
                      MemStorage.domain := MemStorage.domain s;
                      MemStorage.url := MemStorage.url s;
                      MemStorage.title := MemStorage.title s;
                      MemStorage.citationCount :=
                        option_map (fun n => (n + increment)%Z)
                          (MemStorage.citationCount s);
                      MemStorage.lastCited := MemStorage.lastCited s |}
              else s)
         (sources db);
     nextCompetitorId := nextCompetitorId db;
     nextSourceId := nextSourceId db |}.

End DatabaseStorage.

(* ================================================================== *)
(** ** server/services/analyzer.ts *)
(* ================================================================== *)

Module Analyzer.
Import Text.

Definition Date := MemStorage.Date.

Inductive Status : Type :=
| initializing | scraping | generating_prompts | testing_prompts
| analyzing | complete | error.

Record AnalysisProgress : Type := {
  status : Status;
  message : string;
  progress : Num.number;
  totalPrompts : option nat;
  completedPrompts : option nat
}.

(** [Partial<AnalysisProgress>] *)
Record ProgressUpdate : Type := {
  u_status : option Status;
  u_message : option string;
  u_progress : option Num.number;
  u_totalPrompts : option nat;
  u_completedPrompts : option nat
}.

(** The module-level variables, with the [storage] object the module
    imports. *)
Record Globals : Type := {
  analysisStartTime : Date;
  targetPrompts : nat;
  currentProgress : AnalysisProgress;
  isAnalysisRunning : bool;
  storage : MemStorage.t
}.

Definition initialProgress : AnalysisProgress :=
  {| status := initializing; message := "Ready to start analysis...";
     progress := Num.of_nat 0; totalPrompts := Some 0;
     completedPrompts := Some 0 |}.

(** The state of the module when it is loaded at instant [now]. *)
Definition initialGlobals (now : Date) (st : MemStorage.t) : Globals :=
  {| analysisStartTime := now; targetPrompts := 100;
     currentProgress := initialProgress; isAnalysisRunning := false;
     storage := st |}.

Definition set_running (g : Globals) (b : bool) : Globals :=
  {| analysisStartTime := analysisStartTime g;
     targetPrompts := targetPrompts g;
     currentProgress := currentProgress g;
     isAnalysisRunning := b; storage := storage g |}.
Definition set_progress (g : Globals) (p : AnalysisProgress) : Globals :=
  {| analysisStartTime := analysisStartTime g;
     targetPrompts := targetPrompts g;
     currentProgress := p;
     isAnalysisRunning := isAnalysisRunning g; storage := storage g |}.
Definition set_storage (g : Globals) (st : MemStorage.t) : Globals :=
  {| analysisStartTime := analysisStartTime g;
     targetPrompts := targetPrompts g;
     currentProgress := currentProgress g;
     isAnalysisRunning := isAnalysisRunning g; storage := st |}.
Definition set_target (g : Globals) (n : nat) : Globals :=
  {| analysisStartTime := analysisStartTime g;
     targetPrompts := n;
     currentProgress := currentProgress g;
     isAnalysisRunning := isAnalysisRunning g; storage := storage g |}.
Definition set_startTime (g : Globals) (now : Date) : Globals :=
  {| analysisStartTime := now;
     targetPrompts := targetPrompts g;
     currentProgress := currentProgress g;
     isAnalysisRunning := isAnalysisRunning g; storage := storage g |}.

Definition cancelledMessage : string := "Analysis cancelled by user".

(** [stopCurrentAnalysis] *)
Definition stopCurrentAnalysis (g : Globals) : Globals :=
  set_progress (set_running g false)
    {| status := error; message := cancelledMessage;
       progress := Num.of_nat 0; totalPrompts := Some 0;
       completedPrompts := Some 0 |}.

Definition getCurrentProgress (g : Globals) : AnalysisProgress :=
  currentProgress g.

Definition orElse {A : Type} (x : option A) (d : A) : A :=
  match x with Some a => a | None => d end.

(** [updateProgress]: [{ ...currentProgress, ...update }].  The
    progress callback belongs to the caller and is not modelled. *)
Definition updateProgress (update : ProgressUpdate) (g : Globals)
  : Globals :=
  let cur := currentProgress g in
  set_progress g
    {| status := orElse (u_status update) (status cur);
       message := orElse (u_message update) (message cur);
       progress := orElse (u_progress update) (progress cur);
       totalPrompts :=
         match u_totalPrompts update with
         | Some n => Some n
         | None => totalPrompts cur
         end;
       completedPrompts :=
         match u_completedPrompts update with
         | Some n => Some n
         | None => completedPrompts cur
         end |}.

(** An update that sets [status], [message] and [progress]. *)
Definition upd (s : Status) (m : string) (p : nat) : ProgressUpdate :=
  {| u_status := Some s; u_message := Some m;
     u_progress := Some (Num.of_nat p);
     u_totalPrompts := None; u_completedPrompts := None |}.

(** [resetProgress] *)
Definition resetProgress (now : Date) (g : Globals) : Globals :=
  set_startTime
    (set_progress g
       {| status := initializing; message := "Starting analysis...";
          progress := Num.of_nat 0; totalPrompts := Some 0;
          completedPrompts := Some 0 |})
    now.

(** *** The arguments and the environment of one run *)

Record SavedPrompt : Type := {
  sp_text : string;
  sp_topicId : option nat
}.

Record Settings : Type := {
  promptsPerTopic : nat;
  numberOfTopics : nat
}.

Record RunArgs : Type := {
  useExistingPrompts : bool;
  savedPrompts : option (list SavedPrompt);
  settings : option Settings
}.

(** The fields of a [BrandAnalyzer] object. *)
Record BrandAnalyzer : Type := {
  brandName : string;
  brandUrl : string
}.

Inductive AdapterOutcome : Type :=
| AdapterOk (result : OpenAI.PromptAnalysisResult)
| AdapterThrows.

(** What the outside world answers during one run. *)
Record Environment : Type := {
  (** the instant read during the [n]-th step of the run *)
  now : nat -> Date;
  (** [analyzePromptResponse] for the prompt of index [i] *)
  analyze : nat -> string -> AdapterOutcome;
  (** [Math.random()] in the fallback of the prompt of index [i] *)
  random : nat -> Num.number;
  (** the completion behind [extractCompetitorsFromText] there *)
  extractReply : nat -> OpenAI.ExtractReply;
  (** the completion behind [categorizeCompetitor]: [None] when the
      call throws or times out *)
  categoryReply : string -> option string;
  (** the completions behind [generatePromptsForTopic] for a topic *)
  completion : string -> nat -> option string
}.

(** *** [generateSourceTitle] *)

Definition generateSourceTitle (domain url : string) : string :=
  let domainParts := split_char "." domain in
  let mainDomain := hd "" domainParts in
  if includes url "/docs" then mainDomain ++ " Documentation"
  else if includes url "/api" then mainDomain ++ " API Documentation"
  else if includes url "/developer" then mainDomain ++ " Developer Portal"
  else if includes url "/guide" || includes url "/tutorial"
    then mainDomain ++ " Guides & Tutorials"
  else if includes domain "github.com" then "GitHub Repository"
  else if includes domain "stackoverflow.com" then "Stack Overflow Discussion"
  else if includes domain "medium.com" then "Medium Article"
  else if includes domain "dev.to" then "Dev.to Article"
  else if includes domain "reddit.com" then "Reddit Discussion"
  else if includes domain "youtube.com" then "YouTube Video"
  else if includes domain "twitter.com" || includes domain "x.com"
    then "Social Media Post"
  else if includes domain "linkedin.com" then "LinkedIn Article"
  else if includes domain "hackernews.com"
          || includes domain "news.ycombinator.com"
    then "Hacker News Discussion"
  else if includes domain "discord.com" || includes domain "discord.gg"
    then "Discord Community"
  else if includes domain "slack.com" then "Slack Community"
  else if includes domain "substack.com" then "Substack Newsletter"
  else if includes domain "hashnode.dev" then "Hashnode Article"
  else if includes domain "css-tricks.com" then "CSS-Tricks Article"
  else if includes domain "smashingmagazine.com"
    then "Smashing Magazine Article"
  else if includes domain "sitepoint.com" then "SitePoint Article"
  else if includes domain "toptal.com" then "Toptal Article"
  else if includes domain "freecodecamp.org" then "freeCodeCamp Resource"
  else if includes domain "mozilla.org" then "Mozilla Developer Network"
  else if includes domain "web.dev" then "Web.dev Article"
  else if includes domain "css-tricks.com" then "CSS-Tricks Article"
  else
    let tld := last domainParts "" in
    if String.eqb tld "org" then mainDomain ++ " Organization"
    else if String.eqb tld "edu" then mainDomain ++ " Educational Resource"
    else if String.eqb tld "gov" then mainDomain ++ " Government Resource"
    else if String.eqb tld "io" then mainDomain ++ " Platform"
    else if String.eqb tld "app" then mainDomain ++ " Application"
    else if String.eqb tld "dev" then mainDomain ++ " Developer Resource"
    else mainDomain ++ " Website".

(** *** [categorizeCompetitor] *)

Definition categorizeCompetitor (env : Environment) (name : string)
    (st : MemStorage.t) : string :=
  match MemStorage.getCompetitorByName name st with
  | Some {| MemStorage.category := Some (String c cat) |} => String c cat
  | _ =>
      match categoryReply env name with
      | Some content =>
          match trim content with
          | EmptyString => "Technology"
          | category => category
          end
      | None => "Technology"
      end
  end.

(** *** The body of the per-prompt loop *)

Definition fallbackSources : list string :=
  ["https://stackoverflow.com/questions/deployment";
   "https://docs.aws.amazon.com";
   "https://github.com/features/actions";
   "https://docs.github.com/en/actions";
   "https://vercel.com/docs";
   "https://netlify.com/docs";
   "https://docs.docker.com";
   "https://kubernetes.io/docs"].

(** The analysis substituted when [analyzePromptResponse] throws.
    [extractCompetitorsFromText] catches its own failures, so the
    [catch] around its call is never entered. *)
Definition fallbackAnalysis (env : Environment) (i : nat) (text : string)
  : OpenAI.PromptAnalysisResult :=
  let brandMentioned := Num.lt (random env i) Num.lit_0_15 in
  let competitors := OpenAI.extractCompetitorsFromText (extractReply env i) in
  {| OpenAI.response :=
       "Based on your " ++ toLowerCase text
       ++ ", I'd recommend considering " ++ join ", " competitors
       ++ " for your deployment needs."
       ++ (if brandMentioned
           then " There are also other good options for simple deployments."
           else "");
     OpenAI.brandMentioned := brandMentioned;
     OpenAI.competitors := dedupe competitors;
     OpenAI.sources := fallbackSources |}%string.

Definition analysisFor (env : Environment) (i : nat) (text : string)
  : OpenAI.PromptAnalysisResult :=
  match analyze env i text with
  | AdapterOk result => result
  | AdapterThrows => fallbackAnalysis env i text
  end.

(** One round of the loop over [analysis.competitors]. *)
Definition processCompetitor (env : Environment) (t : Date)
    (st : MemStorage.t) (competitorName : string) : MemStorage.t :=
  let st :=
    match MemStorage.getCompetitorByName competitorName st with
    | Some _ => st
    | None =>
        fst (MemStorage.createCompetitor
               {| MemStorage.ic_name := competitorName;
                  MemStorage.ic_category :=
                    Some (categorizeCompetitor env competitorName st);
                  MemStorage.ic_mentionCount := Some 0%Z |} st)
    end in
  MemStorage.updateCompetitorMentionCount t competitorName 1 st.

(** [urlsByDomain]: a [Map<string, string[]>] in insertion order. *)
Fixpoint group_add (domain url : string) (m : list (string * list string))
  : list (string * list string) :=
  match m with
  | [] => [(domain, [url])]
  | (d, urls) :: rest =>
      if String.eqb d domain then (d, urls ++ [url]) :: rest
      else (d, urls) :: group_add domain url rest
  end.

Definition group_url (m : list (string * list string)) (url : string)
  : list (string * list string) :=
  let domain := Scraper.extractDomainFromUrl url in
  if String.eqb domain "" || (String.length domain <? 3) then m
  else if String.eqb domain "example.com" || String.eqb domain "localhost"
  then m
  else group_add domain url m.

Definition urlsByDomain (allUrls : list string)
  : list (string * list string) :=
  fold_left group_url allUrls [].

Definition isReferencePath (url : string) : bool :=
  includes url "/docs" || includes url "/api" || includes url "/developer"
  || includes url "/guide" || includes url "/tutorial".

Definition primaryUrl (urls : list string) : string :=
  match find isReferencePath urls with
  | Some u => u
  | None => hd "" urls
  end.

(** One round of the loop over the domains. *)
Definition processDomain (t : Date) (st : MemStorage.t)
    (entry : string * list string) : MemStorage.t :=
  let '(domain, urls) := entry in
  let primary := primaryUrl urls in
  let st :=
    match MemStorage.getSourceByDomain domain st with
    | Some _ => st
    | None =>
        fst (MemStorage.createSource t
               {| MemStorage.is_domain := domain;
                  MemStorage.is_url := primary;
                  MemStorage.is_title :=
                    Some (generateSourceTitle domain primary);
                  MemStorage.is_citationCount := Some 0%Z |} st)
    end in
  MemStorage.updateSourceCitationCount t domain 1 st.

Definition allUrlsOf (analysis : OpenAI.PromptAnalysisResult)
    (text : string) : list string :=
  let responseUrls := Scraper.extractUrlsFromText (OpenAI.response analysis) in
  let analysisSources := OpenAI.sources analysis in
  let promptUrls := Scraper.extractUrlsFromText text in
  dedupe (responseUrls ++ analysisSources ++ promptUrls).

(** The loop body from the adapter call to [createResponse], for the
    prompt of index [i] already stored as [prompt]. *)
Definition processPrompt (env : Environment) (t : Date) (i : nat)
    (promptData : MemStorage.InsertPrompt) (prompt : MemStorage.Prompt)
    (st : MemStorage.t) : MemStorage.t :=
  let text := MemStorage.ip_text promptData in
  let analysis := analysisFor env i text in
  let st := fold_left (processCompetitor env t) (OpenAI.competitors analysis) st in
  let st := fold_left (processDomain t) (urlsByDomain (allUrlsOf analysis text)) st in
  fst (MemStorage.createResponse t
         {| MemStorage.ir_promptId := MemStorage.prompt_id prompt;
            MemStorage.ir_text := OpenAI.response analysis;
            MemStorage.ir_brandMentioned := Some (OpenAI.brandMentioned analysis);
            MemStorage.ir_competitorsMentioned := Some (OpenAI.competitors analysis);
            MemStorage.ir_sources := Some (OpenAI.sources analysis) |} st).

(** *** [generateAnalytics] *)

Definition countOf (c : MemStorage.Competitor) : Z :=
  orElse (MemStorage.mentionCount c) 0%Z.

(** The head of the competitors sorted (stably) by descending count. *)
Fixpoint topOf (best : option MemStorage.Competitor)
    (cs : list MemStorage.Competitor) : option MemStorage.Competitor :=
  match cs with
  | [] => best
  | c :: rest =>
      match best with
      | None => topOf (Some c) rest
      | Some b =>
          if (countOf b <? countOf c)%Z then topOf (Some c) rest
          else topOf best rest
      end
  end.

Definition generateAnalytics (t : Date) (st : MemStorage.t)
  : MemStorage.t * MemStorage.Analytics :=
  let responses := MemStorage.getResponses st in
  let competitors := MemStorage.getCompetitors st in
  let sources := MemStorage.getSources st in
  let brandMentions :=
    List.length
      (filter (fun r => orElse (MemStorage.brandMentioned r) false)
         responses) in
  let brandMentionRate :=
    if 0 <? List.length responses
    then Num.mul (Num.div (Num.of_nat brandMentions)
                          (Num.of_nat (List.length responses)))
                 (Num.of_nat 100)
    else Num.of_nat 0 in
  let topCompetitor :=
    MemStorage.orNullString
      (option_map MemStorage.competitor_name (topOf None competitors)) in
  let uniqueDomains :=
    List.length (dedupe (map MemStorage.domain sources)) in
  MemStorage.createAnalytics t
    {| MemStorage.ia_totalPrompts := Some (Z.of_nat (List.length responses));
       MemStorage.ia_brandMentionRate := Some brandMentionRate;
       MemStorage.ia_topCompetitor := topCompetitor;
       MemStorage.ia_totalSources := Some (Z.of_nat (List.length sources));
       MemStorage.ia_totalDomains := Some (Z.of_nat uniqueDomains) |}
    st.

(** *** [runFullAnalysis], phase by phase *)

(** [savedPrompts && savedPrompts.length > 0] *)
Definition savedGiven (args : RunArgs) : option (list SavedPrompt) :=
  match savedPrompts args with
  | Some (p :: ps) => Some (p :: ps)
  | _ => None
  end.

(** The call, up to the first [await].  A call that finds the flag set
    returns from inside the [try] block, so the [finally] block runs
    and clears the flag.  The boolean tells whether a run started. *)
Definition enter (t : Date) (args : RunArgs) (g : Globals)
  : Globals * bool :=
  if isAnalysisRunning g then (set_running g false, false)
  else
    let g := set_running g true in
    let g :=
      match settings args with
      | Some s => set_target g (promptsPerTopic s * numberOfTopics s)
      | None =>
          match savedGiven args with
          | Some ps => set_target g (List.length ps)
          | None => g
          end
      end in
    let g := resetProgress t g in
    (updateProgress (upd initializing "Starting brand analysis..." 0) g,
     true).

(** The three [clearAll] calls of either clearing block. *)
Definition clearData (st : MemStorage.t) : MemStorage.t :=
  MemStorage.clearAllCompetitors
    (MemStorage.clearAllResponses (MemStorage.clearAllPrompts st)).

(** [generateTopicsFromContent]: the topics do not depend on the
    scraped content. *)
Definition generatedTopics : list MemStorage.InsertTopic :=
  map (fun '(n, d) =>
         {| MemStorage.it_name := n; MemStorage.it_description := Some d |})
    [("Technology Stack",
      "Analysis of the technology stack and development tools used");
     ("Market Position",
      "Understanding the brand's position in the market and competitive landscape");
     ("Service Offerings",
      "Analysis of the services and products offered by the brand");
     ("Developer Experience",
      "Evaluation of developer tools, documentation, and ease of use");
     ("Infrastructure & Scalability",
      "Assessment of infrastructure capabilities and scaling solutions");
     ("Integration Capabilities",
      "Analysis of API offerings and integration possibilities");
     ("Performance & Reliability",
      "Evaluation of performance metrics and reliability features")].

(** [settings?.promptsPerTopic || 20] *)
Definition promptsPerTopicOf (args : RunArgs) : nat :=
  match settings args with
  | Some s => if promptsPerTopic s =? 0 then 20 else promptsPerTopic s
  | None => 20
  end.

(** One round of the loop over the generated topics. *)
Definition addTopicPrompts (env : Environment) (t : Date) (args : RunArgs)
    (acc : MemStorage.t * list MemStorage.InsertPrompt)
    (topic : MemStorage.InsertTopic)
  : MemStorage.t * list MemStorage.InsertPrompt :=
  let '(st, allPrompts) := acc in
  let '(st, topicRecord) :=
    match find (fun x => String.eqb (MemStorage.topic_name x)
                           (MemStorage.it_name topic))
            (MemStorage.getTopics st) with
    | Some found => (st, found)
    | None => MemStorage.createTopic t topic st
    end in
  let promptTexts :=
    OpenAI.generatePromptsForTopic
      (completion env (MemStorage.it_name topic))
      (MemStorage.it_name topic)
      (orElse (MemStorage.it_description topic) "")
      (promptsPerTopicOf args) in
  (st,
   allPrompts ++
     map (fun promptText =>
            {| MemStorage.ip_text := promptText;
               MemStorage.ip_topicId := Some (MemStorage.topic_id topicRecord) |})
       promptTexts).

(** From the end of the initial delay to the start of the loop: the
    clearing blocks and the choice of the prompt list. *)
Definition sourcePrompts (env : Environment) (t : Date) (args : RunArgs)
    (g : Globals) : Globals * list MemStorage.InsertPrompt :=
  let '(g, allPrompts) :=
    match savedGiven args with
    | Some saved =>
        let g := updateProgress
                   (upd initializing
                      "Clearing previous data and loading saved prompts..." 5) g in
        let g := set_storage g (clearData (storage g)) in
        let g := updateProgress
                   (upd initializing
                      "Clearing previous data and loading saved prompts..." 10) g in
        let g := set_storage g (clearData (storage g)) in
        let g := updateProgress
                   (upd testing_prompts "Processing saved prompts..." 20) g in
        (g,
         map (fun p =>
                {| MemStorage.ip_text := sp_text p;
                   MemStorage.ip_topicId :=
                     match sp_topicId p with
                     | Some 0 => None
                     | o => o
                     end |})
           saved)
    | None =>
        if useExistingPrompts args then
          let g := updateProgress
                     (upd testing_prompts
                        "Using existing prompts for analysis..." 20) g in
          (g,
           map (fun p =>
                  {| MemStorage.ip_text := MemStorage.prompt_text p;
                     MemStorage.ip_topicId := MemStorage.prompt_topicId p |})
             (MemStorage.getPrompts (storage g)))
        else
          let g := updateProgress
                     (upd initializing "Preparing for new analysis..." 5) g in
          let g := updateProgress
                     (upd scraping "Analyzing brand website..." 10) g in
          let g := updateProgress
                     (upd generating_prompts "Generating test prompts..." 20) g in
          let '(st, allPrompts) :=
            fold_left (addTopicPrompts env t args) generatedTopics
              (storage g, []) in
          (set_storage g st, allPrompts)
    end in
  (updateProgress
     {| u_status := Some testing_prompts;
        u_message := Some "Testing prompts with ChatGPT...";
        u_progress := Some (Num.of_nat 30);
        u_totalPrompts := Some (List.length allPrompts);
        u_completedPrompts := Some 0 |} g,
   allPrompts).

Inductive Outcome : Type :=
| Skipped      (* the call found a run active and returned *)
| Cancelled    (* the loop found the flag cleared *)
| Completed.   (* the analytics were generated *)

(** Where a call of [runFullAnalysis] stands between two steps. *)
Inductive Pc : Type :=
| AwaitDelay
| LoopTop (allPrompts : list MemStorage.InsertPrompt) (i completedCount : nat)
| InBody (allPrompts : list MemStorage.InsertPrompt) (i completedCount : nat)
    (prompt : MemStorage.Prompt)
| Finished (o : Outcome).

Record Run : Type := {
  this : BrandAnalyzer;
  args : RunArgs;
  env : Environment;
  pc : Pc;
  steps : nat
}.

Definition at_pc (r : Run) (p : Pc) : Run :=
  {| this := this r; args := args r; env := env r; pc := p;
     steps := S (steps r) |}.

(** The update at the end of an iteration. *)
Definition iterationProgress (completedCount total : nat) : ProgressUpdate :=
  {| u_status := Some testing_prompts;
     u_message :=
       Some ("Testing prompts with ChatGPT... ("
             ++ OpenAI.string_of_nat completedCount ++ "/"
             ++ OpenAI.string_of_nat total ++ ")")%string;
     u_progress :=
       Some (Num.add (Num.of_nat 30)
               (Num.mul (Num.div (Num.of_nat completedCount)
                                 (Num.of_nat total))
                        (Num.of_nat 50)));
     u_totalPrompts := Some total;
     u_completedPrompts := Some completedCount |}.

(** One step of a run: from one [await] to the next.  The awaits
    inside the loop body are taken together, since nothing between
    them reads the flag or the progress record.  No operation of the
    in-memory storage throws and the failures of the adapter are caught
    inside the body, so neither [catch] block around the body is
    entered; every way out of the function passes through the [finally]
    block, which clears the flag. *)
Definition stepRun (g : Globals) (r : Run) : Globals * Run :=
  let t := now (env r) (steps r) in
  match pc r with
  | AwaitDelay =>
      let '(g, allPrompts) := sourcePrompts (env r) t (args r) g in
      (g, at_pc r (LoopTop allPrompts 0 0))
  | LoopTop allPrompts i completedCount =>
      match nth_error allPrompts i with
      | Some promptData =>
          if negb (isAnalysisRunning g) then
            let g := updateProgress (upd error cancelledMessage 0) g in
            (set_running g false, at_pc r (Finished Cancelled))
          else
            let '(st, prompt) :=
              MemStorage.createPrompt t promptData (storage g) in
            (set_storage g st,
             at_pc r (InBody allPrompts i completedCount prompt))
      | None =>
          let g := updateProgress (upd analyzing "Generating analytics..." 85) g in
          let g := set_storage g (fst (generateAnalytics t (storage g))) in
          let g := updateProgress (upd complete "Analysis complete!" 100) g in
          (set_running g false, at_pc r (Finished Completed))
      end
  | InBody allPrompts i completedCount prompt =>
      match nth_error allPrompts i with
      | Some promptData =>
          let st := processPrompt (env r) t i promptData prompt (storage g) in
          let completedCount := completedCount + 1 in
          let g := set_storage g st in
          (updateProgress
             (iterationProgress completedCount (List.length allPrompts)) g,
           at_pc r (LoopTop allPrompts (i + 1) completedCount))
      | None => (g, r)
      end
  | Finished _ => (g, r)
  end.

(** *** Calls, steps and cancel requests, interleaved *)

Record System : Type := {
  globals : Globals;
  runs : list Run
}.

Inductive Event : Type :=
| Call (this : BrandAnalyzer) (args : RunArgs) (env : Environment)
| Resume (rid : nat)
| Stop.

Fixpoint set_nth {A : Type} (n : nat) (x : A) (l : list A) : list A :=
  match l, n with
  | [], _ => []
  | _ :: rest, 0 => x :: rest
  | y :: rest, S n' => y :: set_nth n' x rest
  end.

Definition react (sys : System) (ev : Event) : System :=
  match ev with
  | Call this args env =>
      let '(g, started) := enter (now env 0) args (globals sys) in
      {| globals := g;
         runs := runs sys ++
                 [{| this := this; args := args; env := env;
                     pc := if started then AwaitDelay else Finished Skipped;
                     steps := 1 |}] |}
  | Resume rid =>
      match nth_error (runs sys) rid with
      | Some r =>
          let '(g, r') := stepRun (globals sys) r in
          {| globals := g; runs := set_nth rid r' (runs sys) |}
      | None => sys
      end
  | Stop =>
      {| globals := stopCurrentAnalysis (globals sys); runs := runs sys |}
  end.

Definition exec (sys : System) (evs : list Event) : System :=
  fold_left react evs sys.

Definition boot (t : Date) (st : MemStorage.t) : System :=
  {| globals := initialGlobals t st; runs := [] |}.

(** A run is active from the call that started it until it finishes. *)
Definition active (r : Run) : bool :=
  match pc r with
  | Finished _ => false
  | _ => true
  end.

Definition activeRuns (sys : System) : nat :=
  List.length (filter active (runs sys)).

(** *** [getOverviewMetrics] *)

Record OverviewMetrics : Type := {
  om_brandMentionRate : Num.number;
  om_totalPrompts : nat;
  om_topCompetitor : string;
  om_totalSources : nat;
  om_totalDomains : nat
}.

Definition getOverviewMetrics (st : MemStorage.t) : OverviewMetrics :=
  let allResponses := MemStorage.getResponsesWithPrompts st in
  let competitorAnalysis := MemStorage.getCompetitorAnalysis st in
  let sourceAnalysis := MemStorage.getSourceAnalysis st in
  let brandMentions :=
    List.length
      (filter (fun r => MemStorage.mentioned (MemStorage.rwp_response r))
         allResponses) in
  let topCompetitor :=
    hd_error
      (MemStorage.sort
         (fun a b => MemStorage.ca_mentionCount b
                     <=? MemStorage.ca_mentionCount a)
         competitorAnalysis) in
  let uniqueDomains :=
    List.length (dedupe (map MemStorage.sa_domain sourceAnalysis)) in
  {| om_brandMentionRate :=
       MemStorage.rate brandMentions (List.length allResponses);
     om_totalPrompts := List.length allResponses;
     om_topCompetitor :=
       match topCompetitor with
       | Some c =>
           match MemStorage.ca_name c with
           | EmptyString => "N/A"
           | name => name
           end
       | None => "N/A"
       end;
     om_totalSources := List.length sourceAnalysis;
     om_totalDomains := uniqueDomains |}.

End Analyzer.

(* ================================================================== *)
(** ** server/services/prompt-generator.ts: the mock analyzer *)
(* ================================================================== *)

Module MockAnalyzer.
Import Text.

Definition Date := MemStorage.Date.

(** The module-level variables of the mock, with the [storage] object
    it imports. *)
Record Globals : Type := {
  currentProgress : Analyzer.AnalysisProgress;
  isAnalysisRunning : bool;
  storage : MemStorage.t
}.

Definition initialGlobals (st : MemStorage.t) : Globals :=
  {| currentProgress := Analyzer.initialProgress;
     isAnalysisRunning := false; storage := st |}.

Definition set_running (g : Globals) (b : bool) : Globals :=
  {| currentProgress := currentProgress g; isAnalysisRunning := b;
     storage := storage g |}.
Definition set_progress (g : Globals) (p : Analyzer.AnalysisProgress)
  : Globals :=
  {| currentProgress := p; isAnalysisRunning := isAnalysisRunning g;
     storage := storage g |}.
Definition set_storage (g : Globals) (st : MemStorage.t) : Globals :=
  {| currentProgress := currentProgress g;
     isAnalysisRunning := isAnalysisRunning g; storage := st |}.

(** [stopCurrentAnalysis] *)
Definition stopCurrentAnalysis (g : Globals) : Globals :=
  set_progress (set_running g false)
    {| Analyzer.status := Analyzer.error;
       Analyzer.message := "Analysis cancelled by user";
       Analyzer.progress := Num.of_nat 0;
       Analyzer.totalPrompts := Some 0;
       Analyzer.completedPrompts := Some 0 |}.

(** [updateProgress] *)
Definition updateProgress (update : Analyzer.ProgressUpdate) (g : Globals)
  : Globals :=
  let cur := currentProgress g in
  set_progress g
    {| Analyzer.status :=
         Analyzer.orElse (Analyzer.u_status update) (Analyzer.status cur);
       Analyzer.message :=
         Analyzer.orElse (Analyzer.u_message update) (Analyzer.message cur);
       Analyzer.progress :=
         Analyzer.orElse (Analyzer.u_progress update) (Analyzer.progress cur);
       Analyzer.totalPrompts :=
         match Analyzer.u_totalPrompts update with
         | Some n => Some n
         | None => Analyzer.totalPrompts cur
         end;
       Analyzer.completedPrompts :=
         match Analyzer.u_completedPrompts update with
         | Some n => Some n
         | None => Analyzer.completedPrompts cur
         end |}.

(** What the outside world answers during one run of the mock. *)
Record Environment : Type := {
  now : nat -> Date;
  random : nat -> Num.number;
  extractReply : nat -> OpenAI.ExtractReply;
  sourcesReply : nat -> OpenAI.SourcesReply
}.

(** [generateCompetitors] and [generateSources]: the functions they call
    catch their own failures, so their [catch] blocks are not entered. *)
Definition generateCompetitors (env : Environment) (i : nat) : list string :=
  dedupe (OpenAI.extractCompetitorsFromText (extractReply env i)).

Definition generateSources (env : Environment) (i : nat) : list string :=
  map OpenAI.sr_url (OpenAI.extractSourcesFromText (sourcesReply env i)).

(** [categorizeCompetitor]: the stored category if there is one,
    otherwise the keywords of the name. *)
Definition categoryByName (name : string) : string :=
  let lowerName := toLowerCase name in
  if includes lowerName "cloud" || includes lowerName "aws"
     || includes lowerName "azure" || includes lowerName "gcp"
     || includes lowerName "digitalocean"
  then "Cloud Platform"
  else if includes lowerName "platform" || includes lowerName "service"
          || includes lowerName "deploy" || includes lowerName "hosting"
          || includes lowerName "app" || includes lowerName "web"
  then "Platform as a Service"
  else if includes lowerName "database" || includes lowerName "db"
          || includes lowerName "sql" || includes lowerName "postgres"
          || includes lowerName "mysql" || includes lowerName "redis"
  then "Database Service"
  else if includes lowerName "cdn" || includes lowerName "edge"
          || includes lowerName "cloudflare"
  then "CDN/Edge Service"
  else "Cloud Service".

Definition categorizeCompetitor (name : string) (st : MemStorage.t)
  : string :=
  match MemStorage.getCompetitorByName name st with
  | Some {| MemStorage.category := Some (String c cat) |} => String c cat
  | _ => categoryByName name
  end.

Definition processCompetitor (t : Date) (st : MemStorage.t)
    (competitorName : string) : MemStorage.t :=
  let st :=
    match MemStorage.getCompetitorByName competitorName st with
    | Some _ => st
    | None =>
        fst (MemStorage.createCompetitor
               {| MemStorage.ic_name := competitorName;
                  MemStorage.ic_category :=
                    Some (categorizeCompetitor competitorName st);
                  MemStorage.ic_mentionCount := Some 0%Z |} st)
    end in
  MemStorage.updateCompetitorMentionCount t competitorName 1 st.

(** One round of the loop over the source URLs: a URL that does not
    parse is skipped. *)
Definition processSource (t : Date) (st : MemStorage.t) (url : string)
  : MemStorage.t :=
  match Scraper.URL_hostname url with
  | None => st
  | Some domain =>
      let st :=
        match MemStorage.getSourceByDomain domain st with
        | Some _ => st
        | None =>
            fst (MemStorage.createSource t
                   {| MemStorage.is_domain := domain;
                      MemStorage.is_url := url;
                      MemStorage.is_title :=
                        Some ("Resource from " ++ domain)%string;
                      MemStorage.is_citationCount := Some 0%Z |} st)
        end in
      MemStorage.updateSourceCitationCount t domain 1 st
  end.

Definition responseText (competitors : list string) (brandMentioned : bool)
  : string :=
  ("Based on your requirements, I'd recommend considering "
   ++ join ", " competitors ++ " for deployment."
   ++ (if brandMentioned
       then " There are also other platforms worth considering for their simplicity."
       else ""))%string.

(** The loop body after [createPrompt], up to [createResponse]. *)
Definition processPrompt (env : Environment) (t : Date) (i : nat)
    (prompt : MemStorage.Prompt) (st : MemStorage.t) : MemStorage.t :=
  let brandMentioned := Num.lt (random env i) Num.lit_0_15 in
  let competitors := generateCompetitors env i in
  let sources := generateSources env i in
  let st := fold_left (processCompetitor t) competitors st in
  let st := fold_left (processSource t) sources st in
  fst (MemStorage.createResponse t
         {| MemStorage.ir_promptId := MemStorage.prompt_id prompt;
            MemStorage.ir_text := responseText competitors brandMentioned;
            MemStorage.ir_brandMentioned := Some brandMentioned;
            MemStorage.ir_competitorsMentioned := Some competitors;
            MemStorage.ir_sources := Some sources |} st).

Inductive Pc : Type :=
| Entered
| LoopTop (i completedCount : nat)
| InBody (i completedCount : nat) (prompt : MemStorage.Prompt)
| Finished (o : Analyzer.Outcome).

Record Run : Type := {
  savedPrompts : list Analyzer.SavedPrompt;
  env : Environment;
  pc : Pc;
  steps : nat
}.

Definition at_pc (r : Run) (p : Pc) : Run :=
  {| savedPrompts := savedPrompts r; env := env r; pc := p;
     steps := S (steps r) |}.

(** [runAnalysisWithSavedPrompts] up to its first [await].  The guard
    stands before the [try] block: a call that finds the flag set returns
    without reaching the [finally] block. *)
Definition enter (g : Globals) : Globals * bool :=
  if isAnalysisRunning g then (g, false)
  else
    (updateProgress
       (Analyzer.upd Analyzer.initializing
          "Starting analysis with saved prompts..." 10)
       (set_running g true),
     true).

(** What follows the loop: the analytics when the flag is still set,
    and the [finally] block in either case. *)
Definition afterLoop (t : Date) (total completedCount : nat) (g : Globals)
  : Globals * Analyzer.Outcome :=
  if isAnalysisRunning g then
    let g := updateProgress
               (Analyzer.upd Analyzer.analyzing "Generating analytics..." 90)
               g in
    let g := set_storage g (fst (Analyzer.generateAnalytics t (storage g))) in
    let g :=
      updateProgress
        {| Analyzer.u_status := Some Analyzer.complete;
           Analyzer.u_message :=
             Some ("Analysis completed successfully! Processed "
                   ++ OpenAI.string_of_nat completedCount ++ " prompts.")%string;
           Analyzer.u_progress := Some (Num.of_nat 100);
           Analyzer.u_totalPrompts := Some total;
           Analyzer.u_completedPrompts := Some completedCount |} g in
    (set_running g false, Analyzer.Completed)
  else (set_running g false, Analyzer.Cancelled).

(** One step of a run of the mock, from one [await] on the outside
    world to the next. *)
Definition stepRun (g : Globals) (r : Run) : Globals * Run :=
  let t := now (env r) (steps r) in
  let total := List.length (savedPrompts r) in
  match pc r with
  | Entered =>
      let st :=
        MemStorage.clearAllResponses (MemStorage.clearAllPrompts (storage g)) in
      let g := set_storage g st in
      (updateProgress
         {| Analyzer.u_status := Some Analyzer.testing_prompts;
            Analyzer.u_message :=
              Some ("Testing " ++ OpenAI.string_of_nat total
                    ++ " prompts...")%string;
            Analyzer.u_progress := Some (Num.of_nat 30);
            Analyzer.u_totalPrompts := Some total;
            Analyzer.u_completedPrompts := Some 0 |} g,
       at_pc r (LoopTop 0 0))
  | LoopTop i completedCount =>
      match nth_error (savedPrompts r) i with
      | Some promptData =>
          if negb (isAnalysisRunning g) then
            let '(g, o) := afterLoop t total completedCount g in
            (g, at_pc r (Finished o))
          else
            let '(st, prompt) :=
              MemStorage.createPrompt t
                {| MemStorage.ip_text := Analyzer.sp_text promptData;
                   MemStorage.ip_topicId :=
                     match Analyzer.sp_topicId promptData with
                     | Some 0 => None
                     | o => o
                     end |}
                (storage g) in
            (set_storage g st, at_pc r (InBody i completedCount prompt))
      | None =>
          let '(g, o) := afterLoop t total completedCount g in
          (g, at_pc r (Finished o))
      end
  | InBody i completedCount prompt =>
      let st := processPrompt (env r) t i prompt (storage g) in
      let completedCount := completedCount + 1 in
      let g := set_storage g st in
      (updateProgress
         {| Analyzer.u_status := Some Analyzer.testing_prompts;
            Analyzer.u_message :=
              Some ("Testing prompts... ("
                    ++ OpenAI.string_of_nat completedCount ++ "/"
                    ++ OpenAI.string_of_nat total ++ ")")%string;
            Analyzer.u_progress :=
              Some (Num.add (Num.of_nat 30)
                      (Num.mul (Num.div (Num.of_nat completedCount)
                                        (Num.of_nat total))
                               (Num.of_nat 50)));
            Analyzer.u_totalPrompts := Some total;
            Analyzer.u_completedPrompts := Some completedCount |} g,
       at_pc r (LoopTop (i + 1) completedCount))
  | Finished _ => (g, r)
  end.

Record System : Type := {
  globals : Globals;
  runs : list Run
}.

Inductive Event : Type :=
| Call (savedPrompts : list Analyzer.SavedPrompt) (env : Environment)
| Resume (rid : nat)
| Stop.

Definition react (sys : System) (ev : Event) : System :=
  match ev with
  | Call saved env =>
      let '(g, started) := enter (globals sys) in
      {| globals := g;
         runs := runs sys ++
                 [{| savedPrompts := saved; env := env;
                     pc := if started then Entered
                           else Finished Analyzer.Skipped;
                     steps := 1 |}] |}
  | Resume rid =>
      match nth_error (runs sys) rid with
      | Some r =>
          let '(g, r') := stepRun (globals sys) r in
          {| globals := g; runs := Analyzer.set_nth rid r' (runs sys) |}
      | None => sys
      end
  | Stop =>
      {| globals := stopCurrentAnalysis (globals sys); runs := runs sys |}
  end.

Definition exec (sys : System) (evs : list Event) : System :=
  fold_left react evs sys.

Definition boot (st : MemStorage.t) : System :=
  {| globals := initialGlobals st; runs := [] |}.

Definition active (r : Run) : bool :=
  match pc r with
  | Finished _ => false
  | _ => true
  end.

Definition activeRuns (sys : System) : nat :=
  List.length (filter active (runs sys)).

(** A schedule without cancel requests. *)
Definition isStop (ev : Event) : bool :=
  match ev with
  | Stop => true
  | _ => false
  end.

End MockAnalyzer.

(* ================================================================== *)
(** ** Predicates used to state the properties *)
(* ================================================================== *)

Module Statements.

(** The rejection limit [100 - threshold] of the diversity filter. *)
Definition limit (threshold : Num.number) : Num.number :=
  Num.sub (Num.of_nat 100) threshold.


(** Every key of a [Map] lies below the counter that numbers its next
    entry. *)
Definition fresh_keys {V : Type} (m : MemStorage.JsMap V) (next : nat) : Prop :=
  Forall (fun kv => fst kv < next) m.

(** The response identifiers in use lie below [currentResponseId]. *)
Definition responses_fresh (st : MemStorage.t) : Prop :=
  fresh_keys (MemStorage.responses st) (MemStorage.currentResponseId st).

(** The response row [createResponse] stores for an analysis. *)
Definition builtFrom (analysis : OpenAI.PromptAnalysisResult)
    (r : MemStorage.Response) : Prop :=
  MemStorage.response_text r = OpenAI.response analysis
  /\ MemStorage.brandMentioned r = Some (OpenAI.brandMentioned analysis)
  /\ MemStorage.competitorsMentioned r = Some (OpenAI.competitors analysis)
  /\ MemStorage.response_sources r = Some (OpenAI.sources analysis).

(** A system with one call in flight. *)
Definition solo (g : Analyzer.Globals) (r : Analyzer.Run) : Analyzer.System :=
  {| Analyzer.globals := g; Analyzer.runs := [r] |}.

(** The system after one call on a freshly loaded module and the end of
    its initial delay: the run stands at the top of the loop. *)
Definition started (this : Analyzer.BrandAnalyzer) (args : Analyzer.RunArgs)
    (env : Analyzer.Environment) (t0 : MemStorage.Date) (st0 : MemStorage.t)
  : Analyzer.System :=
  Analyzer.exec (Analyzer.boot t0 st0)
    [Analyzer.Call this args env; Analyzer.Resume 0].

Definition pcs (sys : Analyzer.System) : list Analyzer.Pc :=
  map Analyzer.pc (Analyzer.runs sys).

(** The prompt list of the only run, once it is in the loop. *)
Definition promptsOf (sys : Analyzer.System) : list MemStorage.InsertPrompt :=
  match pcs sys with
  | [Analyzer.LoopTop allPrompts _ _] => allPrompts
  | [Analyzer.InBody allPrompts _ _ _] => allPrompts
  | _ => []
  end.

Definition responsesOf (sys : Analyzer.System)
  : MemStorage.JsMap MemStorage.Response :=
  MemStorage.responses (Analyzer.storage (Analyzer.globals sys)).

Definition progressOf (sys : Analyzer.System) : Analyzer.AnalysisProgress :=
  Analyzer.currentProgress (Analyzer.globals sys).

(** The steps of the only run around a cancel request that is seen at
    the top of iteration [k + 1]: the request arrives either while prompt
    [k] is being processed ([during]) or once it has completed. *)
Definition cancelSchedule (k : nat) (during : bool) : list Analyzer.Event :=
  if during
  then repeat (Analyzer.Resume 0) (2 * k - 1)
       ++ [Analyzer.Stop; Analyzer.Resume 0; Analyzer.Resume 0]
  else repeat (Analyzer.Resume 0) (2 * k)
       ++ [Analyzer.Stop; Analyzer.Resume 0].

(** Every entry of a [Map] sits under the identifier of its record,
    below the counter that numbers the next record, and the entries are
    in the order of their identifiers. *)
Definition keyed {V : Type} (idOf : V -> nat) (m : MemStorage.JsMap V)
    (next : nat) : Prop :=
  Forall (fun kv => fst kv = idOf (snd kv) /\ fst kv < next) m
  /\ StronglySorted lt (map fst m).

(** The invariant of the in-memory storage. *)
Definition wf (st : MemStorage.t) : Prop :=
  keyed MemStorage.topic_id (MemStorage.topics st)
    (MemStorage.currentTopicId st)
  /\ keyed MemStorage.prompt_id (MemStorage.prompts st)
       (MemStorage.currentPromptId st)
  /\ keyed MemStorage.response_id (MemStorage.responses st)
       (MemStorage.currentResponseId st)
  /\ keyed MemStorage.competitor_id (MemStorage.competitors st)
       (MemStorage.currentCompetitorId st)
  /\ keyed MemStorage.source_id (MemStorage.sources st)
       (MemStorage.currentSourceId st)
  /\ keyed MemStorage.analytics_id (MemStorage.analytics st)
       (MemStorage.currentAnalyticsId st).

(** The sum of a list of counts. *)
Definition sumZ (l : list Z) : Z := fold_right Z.add 0%Z l.

(** A later name was accepted against an earlier one by the similarity
    test of [extractCompetitorsFromText]. *)
Definition apart (earlier later : string) : Prop :=
  Num.lt (OpenAI.calculateCompetitorSimilarity later earlier) (Num.of_nat 70)
  = true.

(** Two names differ in more than case, and neither contains the other
    when case is ignored. *)
Definition unrelated (a b : string) : Prop :=
  Text.toLowerCase a <> Text.toLowerCase b
  /\ Text.includes (Text.toLowerCase a) (Text.toLowerCase b) = false
  /\ Text.includes (Text.toLowerCase b) (Text.toLowerCase a) = false.

(** The key under which [analyzeBrandAndFindCompetitors] remembers a
    competitor it has seen. *)
Definition nameKey (c : OpenAI.FoundCompetitor) : string :=
  match OpenAI.fc_name c with
  | OpenAI.NameString name => Text.trim (Text.toLowerCase name)
  | OpenAI.NameOther => ""
  end.

Definition hasStringName (c : OpenAI.FoundCompetitor) : Prop :=
  exists name, OpenAI.fc_name c = OpenAI.NameString name.

End Statements.

(* ================================================================== *)
(** ** Concrete inputs used by the examples below *)
(* ================================================================== *)

Module Examples.
Import Text.



(** A run over two saved prompts, with an adapter that names the
    competitor Acme and cites two URLs of one domain in every answer,
    and one with an adapter that always throws. *)
Definition me : Analyzer.BrandAnalyzer :=
  {| Analyzer.brandName := "Brand"; Analyzer.brandUrl := "" |}.

Definition acme_result : OpenAI.PromptAnalysisResult :=
  {| OpenAI.response :=
       "Try Acme, see https://docs.acme.io/guide and https://docs.acme.io/api";
     OpenAI.brandMentioned := false;
     OpenAI.competitors := ["Acme"];
     OpenAI.sources := ["https://docs.acme.io/guide"] |}.

Definition env_ok : Analyzer.Environment :=
  {| Analyzer.now := fun n => n;
     Analyzer.analyze := fun _ _ => Analyzer.AdapterOk acme_result;
     Analyzer.random := fun _ => Num.of_nat 0;
     Analyzer.extractReply := fun _ => OpenAI.ReplyNotArray;
     Analyzer.categoryReply := fun _ => Some "Cloud";
     Analyzer.completion := fun _ _ => None |}.

Definition env_fail : Analyzer.Environment :=
  {| Analyzer.now := fun n => n;
     Analyzer.analyze := fun _ _ => Analyzer.AdapterThrows;
     Analyzer.random := fun _ => Num.of_nat 0;
     Analyzer.extractReply := fun _ => OpenAI.ReplyThrows;
     Analyzer.categoryReply := fun _ => None;
     Analyzer.completion := fun _ _ => None |}.

Definition two_saved : Analyzer.RunArgs :=
  {| Analyzer.useExistingPrompts := false;
     Analyzer.savedPrompts :=
       Some [ {| Analyzer.sp_text := "best hosting for a blog";
                 Analyzer.sp_topicId := None |};
              {| Analyzer.sp_text := "cheap database options";
                 Analyzer.sp_topicId := None |} ];
     Analyzer.settings := None |}.

Definition stored_prompts : Analyzer.RunArgs :=
  {| Analyzer.useExistingPrompts := true;
     Analyzer.savedPrompts := None;
     Analyzer.settings := None |}.

(** One call, run to its end without interference. *)
Definition baseline : Analyzer.System :=
  Analyzer.exec (Analyzer.boot 0 MemStorage.empty)
    (Analyzer.Call me two_saved env_ok :: repeat (Analyzer.Resume 0) 6).

(** The same call, with a second call made during its initial delay. *)
Definition second_call : Analyzer.System :=
  Analyzer.exec (Analyzer.boot 0 MemStorage.empty)
    (Analyzer.Call me two_saved env_ok :: Analyzer.Call me two_saved env_ok
     :: repeat (Analyzer.Resume 0) 6).

(** Three calls in a row, before any delay has elapsed. *)
Definition three_calls : Analyzer.System :=
  Analyzer.exec (Analyzer.boot 0 MemStorage.empty)
    [Analyzer.Call me two_saved env_ok; Analyzer.Call me two_saved env_ok;
     Analyzer.Call me two_saved env_ok].

(** A storage with a topic, two prompts, the first of them under the
    topic, and a response to each prompt. *)
Definition small_store : MemStorage.t :=
  let s0 := fst (MemStorage.createTopic 0
                   {| MemStorage.it_name := "Hosting";
                      MemStorage.it_description := None |}
                   MemStorage.empty) in
  let s1 := fst (MemStorage.createPrompt 1
                   {| MemStorage.ip_text := "best hosting for a blog";
                      MemStorage.ip_topicId := Some 1 |} s0) in
  let s2 := fst (MemStorage.createPrompt 2
                   {| MemStorage.ip_text := "cheap database options";
                      MemStorage.ip_topicId := None |} s1) in
  let s3 := fst (MemStorage.createResponse 3
                   {| MemStorage.ir_promptId := 1;
                      MemStorage.ir_text := "Try Acme";
                      MemStorage.ir_brandMentioned := Some false;
                      MemStorage.ir_competitorsMentioned := Some ["Acme"];
                      MemStorage.ir_sources := None |} s2) in
  fst (MemStorage.createResponse 4
         {| MemStorage.ir_promptId := 2;
            MemStorage.ir_text := "Brand is fine";
            MemStorage.ir_brandMentioned := Some true;
            MemStorage.ir_competitorsMentioned := None;
            MemStorage.ir_sources := None |} s3).

(** A fresh analysis that asks for three topics of two prompts. *)
Definition three_topics : Analyzer.RunArgs :=
  {| Analyzer.useExistingPrompts := false;
     Analyzer.savedPrompts := None;
     Analyzer.settings :=
       Some {| Analyzer.promptsPerTopic := 2;
               Analyzer.numberOfTopics := 3 |} |}.

(** A run that stands past the last prompt of an empty list. *)
Definition at_the_end : Analyzer.Run :=
  {| Analyzer.this := me; Analyzer.args := two_saved;
     Analyzer.env := env_ok; Analyzer.pc := Analyzer.LoopTop [] 0 0;
     Analyzer.steps := 2 |}.

(** The outside world of a run of the mock analyzer. *)
Definition mock_env : MockAnalyzer.Environment :=
  {| MockAnalyzer.now := fun n => n;
     MockAnalyzer.random := fun _ => Num.of_nat 0;
     MockAnalyzer.extractReply := fun _ => OpenAI.ReplyArray [Some "Acme"];
     MockAnalyzer.sourcesReply := fun _ => OpenAI.SourcesNotArray |}.

Definition one_saved : list Analyzer.SavedPrompt :=
  [ {| Analyzer.sp_text := "best hosting for a blog";
       Analyzer.sp_topicId := None |} ].

End Examples.

(* ================================================================== *)
(** * Properties *)
(* ================================================================== *)

(** ** Facts about arrays of strings *)

Section TextFacts.
Import Text.

Lemma mem_In (x : string) (xs : list string) :
  mem x xs = true <-> In x xs.
Proof.
  unfold mem. rewrite existsb_exists. split.
  - intros (y & Hy & E). apply String.eqb_eq in E. now subst.
  - intros H. exists x. split; [assumption | apply String.eqb_refl].
Qed.

Lemma mem_false (x : string) (xs : list string) :
  mem x xs = false <-> ~ In x xs.
Proof.
  rewrite <- mem_In. destruct (mem x xs); split; congruence.
Qed.

Lemma dedupe_acc_In (xs seen : list string) (x : string) :
  In x (dedupe_acc seen xs) <-> In x xs /\ ~ In x seen.
Proof.
  revert seen. induction xs as [|y t IH]; intros seen; simpl.
  - tauto.
  - destruct (mem y seen) eqn:E.
    + apply mem_In in E. rewrite IH. split.
      * intros [H1 H2]. tauto.
      * intros [[->|H1] H2]; [contradiction | tauto].
    + apply mem_false in E. simpl. rewrite IH. simpl. split.
      * intros [->|[H1 H2]]; [tauto|]. split; [tauto|]. intros H. apply H2. now right.
      * intros [[->|H1] H2]; [now left|].
        destruct (string_dec y x) as [->|N]; [now left|].
        right. split; [assumption|]. intros [H|H]; [congruence | contradiction].
Qed.

Lemma dedupe_In (xs : list string) (x : string) :
  In x (dedupe xs) <-> In x xs.
Proof.
  unfold dedupe. rewrite dedupe_acc_In. simpl. tauto.
Qed.

Lemma dedupe_acc_NoDup (xs seen : list string) :
  NoDup (dedupe_acc seen xs).
Proof.
  revert seen. induction xs as [|y t IH]; intros seen; simpl.
  - constructor.
  - destruct (mem y seen); [apply IH|].
    constructor; [|apply IH].
    rewrite dedupe_acc_In. simpl. tauto.
Qed.

Lemma dedupe_NoDup (xs : list string) : NoDup (dedupe xs).
Proof. apply dedupe_acc_NoDup. Qed.

(** Two duplicate-free arrays with the same members have the same
    length. *)
Lemma same_members_length (xs ys : list string) :
  NoDup xs -> NoDup ys -> (forall x, In x xs <-> In x ys) ->
  List.length xs = List.length ys.
Proof.
  intros Hx Hy H.
  apply Permutation.Permutation_length.
  now apply Permutation.NoDup_Permutation.
Qed.

End TextFacts.

(** ** URL extraction *)

Section ScraperFacts.
Import Text Scraper.



(** A URL without a protocol gets [https://] in front. *)
Example cleanUrl_adds_protocol :
  cleanUrl " www.foo.com/b" = "https://www.foo.com/b".
Proof. vm_compute. reflexivity. Qed.

Example extractUrls_placeholders :
  extractUrlsFromText
    "see https://example.com/x, http://localhost:3000/a and foo.io."
  = ["https://foo.io"].
Proof. vm_compute. reflexivity. Qed.



End ScraperFacts.

(** ** The diversity filter *)

Section DiversityFacts.
Import Text DiversityFilter Statements.


Lemma wordSet_NoDup (p : string) : NoDup (wordSet p).
Proof. apply dedupe_NoDup. Qed.

(** The overlap does not depend on the order of the two prompts. *)
Lemma similarity_sym (p q : string) : similarity p q = similarity q p.
Proof.
  unfold similarity.
  assert (I : List.length (dedupe (filter (fun w => mem w (wordSet q)) (wordSet p)))
              = List.length (dedupe (filter (fun w => mem w (wordSet p)) (wordSet q)))).
  { apply same_members_length; try apply dedupe_NoDup.
    intros x. rewrite !dedupe_In, !filter_In, !mem_In. tauto. }
  assert (U : List.length (dedupe (wordSet p ++ wordSet q))
              = List.length (dedupe (wordSet q ++ wordSet p))).
  { apply same_members_length; try apply dedupe_NoDup.
    intros x. rewrite !dedupe_In, !in_app_iff. tauto. }
  now rewrite I, U.
Qed.






Section Pool.
Variable completion : nat -> option string.
Variable topicName : string.
Variable competitors : list string.
Variable promptsPerTopic : nat.
Variable T : Num.number.



End Pool.



End DiversityFacts.

(** ** The prompt generator of openai.ts *)

Section GeneratorFacts.
Import Text OpenAI.

Variable topicName : string.
Variable count : nat.

(** What the loop over the templates adds. *)
Lemma templateLoop_spec (templates prompts : list string) :
  exists added,
    templateLoop count templates prompts = prompts ++ added
    /\ Forall (fun x => In x templates /\ ~ In x prompts) added
    /\ List.length (prompts ++ added) <= Nat.max count (List.length prompts)
    /\ (count <= List.length (prompts ++ added)
        \/ incl templates (prompts ++ added)).
Proof.
  revert prompts. induction templates as [|t rest IH]; intros prompts; simpl.
  - exists []. rewrite app_nil_r.
    split; [reflexivity|]. split; [constructor|]. split; [lia|].
    right. intros x [].
  - destruct (count <=? List.length prompts) eqn:L.
    + apply Nat.leb_le in L. exists []. rewrite app_nil_r.
      split; [reflexivity|]. split; [constructor|]. split; [lia|].
      now left.
    + apply Nat.leb_gt in L. destruct (mem t prompts) eqn:M; simpl.
      * apply mem_In in M.
        destruct (IH prompts) as (added & E & F & B & D).
        exists added. split; [assumption|]. split; [|split; [assumption|]].
        -- eapply Forall_impl; [|exact F]. simpl. intros x [H1 H2].
           split; [now right | assumption].
        -- destruct D as [D|D]; [now left|]. right.
           intros x [<-|Hx]; [apply in_or_app; now left | now apply D].
      * apply mem_false in M.
        destruct (IH (prompts ++ [t])) as (added & E & F & B & D).
        exists (t :: added).
        replace (prompts ++ t :: added) with ((prompts ++ [t]) ++ added)
          by (rewrite <- app_assoc; reflexivity).
        split; [assumption|]. split; [|split].
        -- constructor; [split; [now left | assumption]|].
           eapply Forall_impl; [|exact F]. simpl. intros x [H1 H2].
           split; [now right|]. intros H. apply H2. apply in_or_app. now left.
        -- rewrite length_app in B. simpl in B.
           rewrite length_app. rewrite length_app in *. simpl in *. lia.
        -- destruct D as [D|D]; [now left|]. right.
           intros x [<-|Hx]; [|now apply D].
           apply in_or_app. left. apply in_or_app. right. now left.
Qed.

Lemma fillToCount_spec (prompts : list string) :
  List.length prompts <= count ->
  exists added,
    fillToCount topicName count prompts
    = prompts ++ added
      ++ map (simplePrompt topicName)
           (seq (List.length (prompts ++ added))
              (count - List.length (prompts ++ added)))
    /\ Forall (fun x => In x (fallbackTemplates topicName) /\ ~ In x prompts)
         added
    /\ List.length (prompts ++ added) <= count
    /\ (count <= List.length (prompts ++ added)
        \/ incl (fallbackTemplates topicName) (prompts ++ added)).
Proof.
  intros H. unfold fillToCount.
  destruct (List.length prompts <? count) eqn:L.
  - destruct (templateLoop_spec (fallbackTemplates topicName) prompts)
      as (added & E & F & B & D).
    exists added. rewrite E.
    assert (B' : List.length (prompts ++ added) <= count) by lia.
    split; [|tauto].
    destruct (List.length (prompts ++ added) <? count) eqn:L'.
    + unfold numbered. now rewrite <- app_assoc.
    + apply Nat.ltb_ge in L'.
      replace (count - List.length (prompts ++ added)) with 0 by lia.
      simpl. now rewrite app_nil_r.
  - apply Nat.ltb_ge in L. exists []. rewrite app_nil_r.
    replace (count - List.length prompts) with 0 by lia. simpl.
    rewrite app_nil_r.
    split; [reflexivity|]. split; [constructor|]. split; [lia|]. now left.
Qed.

Variable completion : nat -> option string.

Lemma attemptLoop_length (fuel attempts : nat) (prompts : list string) :
  List.length prompts <= count ->
  List.length (attemptLoop completion count fuel attempts prompts) <= count.
Proof.
  revert attempts prompts.
  induction fuel as [|fuel IH]; intros attempts prompts H; simpl; [assumption|].
  destruct (List.length prompts <? count) eqn:L; simpl; [|assumption].
  destruct (attempts <? maxAttempts count); [|assumption].
  destruct (completion (attempts + 1)) as [content|]; [|now apply IH].
  destruct (String.eqb (trim content) ""); [now apply IH|].
  destruct (acceptable (cleanPrompt (trim content))); [|now apply IH].
  apply IH. apply Nat.ltb_lt in L. rewrite length_app. simpl. lia.
Qed.

(** The fuel [maxAttempts] is enough: more fuel changes nothing. *)
Lemma attemptLoop_fuel (fuel fuel' attempts : nat) (prompts : list string) :
  maxAttempts count - attempts <= fuel ->
  maxAttempts count - attempts <= fuel' ->
  attemptLoop completion count fuel attempts prompts
  = attemptLoop completion count fuel' attempts prompts.
Proof.
  revert fuel' attempts prompts.
  induction fuel as [|fuel IH]; intros fuel' attempts prompts H H'.
  - assert (E : (attempts <? maxAttempts count) = false)
      by (apply Nat.ltb_ge; lia).
    destruct fuel'; simpl; [reflexivity|].
    rewrite E, andb_false_r. reflexivity.
  - destruct fuel' as [|fuel'].
    + assert (E : (attempts <? maxAttempts count) = false)
        by (apply Nat.ltb_ge; lia).
      simpl. rewrite E, andb_false_r. reflexivity.
    + simpl.
      destruct (List.length prompts <? count); simpl; [|reflexivity].
      destruct (attempts <? maxAttempts count) eqn:E; [|reflexivity].
      apply Nat.ltb_lt in E.
      assert (F : maxAttempts count - (attempts + 1) <= fuel) by lia.
      assert (F' : maxAttempts count - (attempts + 1) <= fuel') by lia.
      destruct (completion (attempts + 1)) as [content|]; [|now apply IH].
      destruct (String.eqb (trim content) ""); [now apply IH|].
      destruct (acceptable (cleanPrompt (trim content))); now apply IH.
Qed.

End GeneratorFacts.

(** C7: for every [count], [generatePromptsForTopic] returns exactly
    [count] prompts, whatever the completion service answers in its (at
    most [count * 5]) attempts: the accepted candidates come first, then
    fallback templates that were not yet present, then, only when every
    template is present and the list is still short, the numbered
    prompts [<topicName> question <i>], [i] being the position counted
    from 1. *)
Theorem C7_exact_output_count :
  forall (completion : nat -> option string)
         (topicName topicDescription : string) (count : nat),
    let accepted :=
      OpenAI.attemptLoop completion count (OpenAI.maxAttempts count) 0 [] in
    let result :=
      OpenAI.generatePromptsForTopic completion topicName topicDescription
        count in
    List.length result = count
    /\ List.length accepted <= count
    /\ exists added,
         result
         = accepted ++ added
           ++ map (fun i => (topicName ++ " question "
                             ++ OpenAI.string_of_nat (i + 1))%string)
                (seq (List.length (accepted ++ added))
                   (count - List.length (accepted ++ added)))
         /\ Forall (fun x => In x (OpenAI.fallbackTemplates topicName)
                             /\ ~ In x accepted) added
         /\ (count <= List.length (accepted ++ added)
             \/ incl (OpenAI.fallbackTemplates topicName) (accepted ++ added)).
Proof.
  intros completion topicName topicDescription count accepted result.
  assert (A : List.length accepted <= count)
    by (apply attemptLoop_length; simpl; lia).
  destruct (fillToCount_spec topicName count accepted A)
    as (added & E & F & B & D).
  assert (L : List.length (OpenAI.fillToCount topicName count accepted) = count).
  { rewrite E, app_assoc, length_app, length_map, length_seq. lia. }
  assert (R : result = OpenAI.fillToCount topicName count accepted).
  { unfold result, OpenAI.generatePromptsForTopic. fold accepted.
    rewrite <- L at 1. apply firstn_all. }
  split; [now rewrite R|]. split; [assumption|].
  exists added. rewrite R. split; [exact E|]. split; assumption.
Qed.

(** The completions of attempts beyond [count * 5] are never read. *)
Lemma attemptLoop_reads_bounded (c1 c2 : nat -> option string)
    (count fuel attempts : nat) (prompts : list string) :
  (forall n, attempts < n <= OpenAI.maxAttempts count -> c1 n = c2 n) ->
  OpenAI.attemptLoop c1 count fuel attempts prompts
  = OpenAI.attemptLoop c2 count fuel attempts prompts.
Proof.
  revert attempts prompts.
  induction fuel as [|fuel IH]; intros attempts prompts H; simpl; [reflexivity|].
  destruct (List.length prompts <? count); simpl; [|reflexivity].
  destruct (attempts <? OpenAI.maxAttempts count) eqn:E; [|reflexivity].
  apply Nat.ltb_lt in E.
  rewrite <- (H (attempts + 1)) by lia.
  assert (H' : forall n, attempts + 1 < n <= OpenAI.maxAttempts count -> c1 n = c2 n)
    by (intros n Hn; apply H; lia).
  destruct (c1 (attempts + 1)) as [content|]; [|now apply IH].
  destruct (String.eqb (Text.trim content) ""); [now apply IH|].
  destruct (OpenAI.acceptable (OpenAI.cleanPrompt (Text.trim content)));
    now apply IH.
Qed.

(** ** The in-memory storage *)

Section StorageFacts.
Import MemStorage Statements.

Lemma find_map_set_new {V : Type} (p : V -> bool) (k : nat) (v : V)
    (m : JsMap V) :
  find p (map_values m) = None -> p v = true ->
  find p (map_values (map_set k v m)) = Some v.
Proof.
  unfold map_values. induction m as [|[k' v'] m IH]; simpl; intros H Hv.
  - now rewrite Hv.
  - destruct (p v') eqn:E; [discriminate|].
    destruct (k' =? k); simpl; [now rewrite Hv|].
    rewrite E. now apply IH.
Qed.

(** After the in-place update of the first match and the [set] that
    follows it, the first match is the updated value. *)
Lemma find_map_set_mutated {V : Type} (p : V -> bool) (k : nat) (v w : V)
    (m : JsMap V) :
  find p (map_values m) = Some v -> p w = true ->
  find p (map_values (map_set k w (mutate_first p (fun _ => w) m))) = Some w.
Proof.
  unfold map_values. induction m as [|[k' v'] m IH]; simpl; intros H Hw.
  - discriminate.
  - destruct (p v') eqn:E; simpl.
    + destruct (k' =? k); simpl; now rewrite Hw.
    + destruct (k' =? k); simpl; [now rewrite Hw|].
      rewrite E. now apply IH.
Qed.

Lemma map_set_fresh {V : Type} (k : nat) (v : V) (m : JsMap V) :
  fresh_keys m k -> map_set k v m = m ++ [(k, v)].
Proof.
  unfold fresh_keys. induction m as [|[k' v'] m IH]; simpl; intros H.
  - reflexivity.
  - inversion H as [|? ? H1 H2]; subst. simpl in H1.
    destruct (k' =? k) eqn:E; [apply Nat.eqb_eq in E; lia|].
    now rewrite IH.
Qed.

Lemma createCompetitor_found (ins : InsertCompetitor) (st : t) :
  getCompetitorByName (ic_name ins) st = None ->
  getCompetitorByName (ic_name ins) (fst (createCompetitor ins st))
  = Some (snd (createCompetitor ins st)).
Proof.
  intros H. unfold getCompetitorByName, getCompetitors, createCompetitor.
  simpl. apply find_map_set_new; [exact H | apply String.eqb_refl].
Qed.

Lemma createSource_found (now : Date) (ins : InsertSource) (st : t) :
  getSourceByDomain (is_domain ins) st = None ->
  getSourceByDomain (is_domain ins) (fst (createSource now ins st))
  = Some (snd (createSource now ins st)).
Proof.
  intros H. unfold getSourceByDomain, getSources, createSource.
  simpl. apply find_map_set_new; [exact H | apply String.eqb_refl].
Qed.

Lemma updateCompetitor_null (now : Date) (name : string) (inc : Z) (st : t) :
  match getCompetitorByName name st with
  | Some c => mentionCount c = None
  | None => True
  end ->
  updateCompetitorMentionCount now name inc st = st.
Proof.
  unfold updateCompetitorMentionCount.
  destruct (getCompetitorByName name st) as [c|]; [|reflexivity].
  now intros ->.
Qed.

Lemma updateSource_null (now : Date) (d : string) (inc : Z) (st : t) :
  match getSourceByDomain d st with
  | Some s => citationCount s = None
  | None => True
  end ->
  updateSourceCitationCount now d inc st = st.
Proof.
  unfold updateSourceCitationCount.
  destruct (getSourceByDomain d st) as [s|]; [|reflexivity].
  now intros ->.
Qed.

(** A competitor found with a count gets it incremented. *)
Lemma updateCompetitor_counted (now : Date) (name : string) (inc n : Z)
    (c : Competitor) (st : t) :
  getCompetitorByName name st = Some c -> mentionCount c = Some n ->
  exists c',
    getCompetitorByName name (updateCompetitorMentionCount now name inc st)
    = Some c'
    /\ mentionCount c' = Some (n + inc)%Z
    /\ lastMentioned c' = Some now.
Proof.
  intros H Hn. unfold updateCompetitorMentionCount. rewrite H, Hn.
  match goal with |- context [map_set _ ?u _] => exists u end.
  split; [|split; reflexivity].
  unfold getCompetitorByName, getCompetitors in *. simpl.
  eapply find_map_set_mutated; [exact H|]. simpl.
  apply find_some in H. tauto.
Qed.

(** A source found with a count gets it incremented. *)
Lemma updateSource_counted (now : Date) (d : string) (inc n : Z)
    (s : Source) (st : t) :
  getSourceByDomain d st = Some s -> citationCount s = Some n ->
  exists s',
    getSourceByDomain d (updateSourceCitationCount now d inc st) = Some s'
    /\ citationCount s' = Some (n + inc)%Z
    /\ lastCited s' = Some now.
Proof.
  intros H Hn. unfold updateSourceCitationCount. rewrite H, Hn.
  match goal with |- context [map_set _ ?u _] => exists u end.
  split; [|split; reflexivity].
  unfold getSourceByDomain, getSources in *. simpl.
  eapply find_map_set_mutated; [exact H|]. simpl.
  apply find_some in H. tauto.
Qed.

End StorageFacts.

(** ** The competitor and source rounds of the loop body *)

Section RoundFacts.
Import MemStorage Analyzer Statements.

Lemma processCompetitor_new (env : Environment) (now : Date) (st : t)
    (name : string) :
  getCompetitorByName name st = None ->
  exists c,
    getCompetitorByName name (processCompetitor env now st name) = Some c
    /\ mentionCount c = None.
Proof.
  intros H. unfold processCompetitor. rewrite H.
  set (ins := {| ic_name := name;
                 ic_category := Some (categorizeCompetitor env name st);
                 ic_mentionCount := Some 0%Z |}).
  pose proof (createCompetitor_found ins st H) as F.
  rewrite updateCompetitor_null; [|change name with (ic_name ins); now rewrite F].
  eexists. split; [exact F | reflexivity].
Qed.

Lemma processDomain_new (now : Date) (st : t) (d : string)
    (urls : list string) :
  getSourceByDomain d st = None ->
  exists s,
    getSourceByDomain d (processDomain now st (d, urls)) = Some s
    /\ citationCount s = None.
Proof.
  intros H. unfold processDomain. rewrite H.
  set (ins := {| is_domain := d; is_url := primaryUrl urls;
                 is_title := Some (generateSourceTitle d (primaryUrl urls));
                 is_citationCount := Some 0%Z |}).
  pose proof (createSource_found now ins st H) as F.
  rewrite updateSource_null; [|change d with (is_domain ins); now rewrite F].
  eexists. split; [exact F | reflexivity].
Qed.

(** C10: in the in-memory storage, [createCompetitor] with
    [mentionCount] 0 stores a null count, and so does [createSource] with
    [citationCount] 0; [updateCompetitorMentionCount] and
    [updateSourceCitationCount] leave the store unchanged when the name or
    domain is absent or its stored count is null; hence the round of the
    orchestrator that creates a record with count 0 and then increments
    it leaves the stored count null. *)
Theorem C10_zero_count_coercion :
  (forall name cat st,
      mentionCount
        (snd (createCompetitor
                {| ic_name := name; ic_category := cat;
                   ic_mentionCount := Some 0%Z |} st)) = None)
  /\ (forall now d u ttl st,
         citationCount
           (snd (createSource now
                   {| is_domain := d; is_url := u; is_title := ttl;
                      is_citationCount := Some 0%Z |} st)) = None)
  /\ (forall now name inc st,
         match getCompetitorByName name st with
         | Some c => mentionCount c = None
         | None => True
         end ->
         updateCompetitorMentionCount now name inc st = st)
  /\ (forall now d inc st,
         match getSourceByDomain d st with
         | Some s => citationCount s = None
         | None => True
         end ->
         updateSourceCitationCount now d inc st = st)
  /\ (forall env now st name,
         getCompetitorByName name st = None ->
         exists c,
           getCompetitorByName name (processCompetitor env now st name)
           = Some c
           /\ mentionCount c = None)
  /\ (forall now st d urls,
         getSourceByDomain d st = None ->
         exists s,
           getSourceByDomain d (processDomain now st (d, urls)) = Some s
           /\ citationCount s = None).
Proof.
  split; [reflexivity|]. split; [reflexivity|].
  split; [intros; now apply updateCompetitor_null|].
  split; [intros; now apply updateSource_null|].
  split; [intros; now apply processCompetitor_new|].
  intros; now apply processDomain_new.
Qed.

End RoundFacts.

(** ** The clearing blocks *)

Section ClearingFacts.
Import MemStorage Analyzer Statements.

(** An empty [savedPrompts] array counts as none. *)
Lemma savedGiven_empty (args : RunArgs) :
  savedPrompts args = Some [] -> savedGiven args = None.
Proof. unfold savedGiven. now intros ->. Qed.

(** C9: when saved prompts are provided (a non-empty array), the phase of
    [runFullAnalysis] that chooses the prompts leaves no Prompt, Response
    or Competitor record and leaves every Source record (and the topics
    and analytics) unchanged, and adopts the saved prompts; when none are
    provided and [useExistingPrompts] holds, it leaves the whole store
    unchanged and adopts the stored prompts. *)
Theorem C9_clearing_frame :
  forall (env : Environment) (t : Date) (args : RunArgs) (g : Globals),
    let result := sourcePrompts env t args g in
    let st := storage g in
    let st' := storage (fst result) in
    match savedGiven args with
    | Some saved =>
        prompts st' = [] /\ responses st' = [] /\ competitors st' = []
        /\ sources st' = sources st
        /\ currentSourceId st' = currentSourceId st
        /\ topics st' = topics st
        /\ analytics st' = analytics st
        /\ map ip_text (snd result) = map sp_text saved
    | None =>
        if useExistingPrompts args
        then st' = st
             /\ snd result
                = map (fun p => {| ip_text := prompt_text p;
                                   ip_topicId := prompt_topicId p |})
                    (getPrompts st)
        else True
    end.
Proof.
  intros env t args g. unfold sourcePrompts.
  destruct (savedGiven args) as [saved|].
  - cbn -[map]. rewrite map_map. repeat split; reflexivity.
  - destruct (useExistingPrompts args); [|exact I].
    cbn -[map]. split; reflexivity.
Qed.

End ClearingFacts.

(** ** The loop body and the response rows *)

Section BodyFacts.
Import MemStorage Analyzer Statements.

(** The competitor and source rounds do not touch the responses. *)
Lemma processCompetitor_responses (env : Environment) (now : Date) (st : t)
    (name : string) :
  responses (processCompetitor env now st name) = responses st
  /\ currentResponseId (processCompetitor env now st name)
     = currentResponseId st.
Proof.
  unfold processCompetitor, updateCompetitorMentionCount.
  repeat match goal with
         | |- context [match ?x with _ => _ end] => destruct x
         end; split; reflexivity.
Qed.

Lemma processDomain_responses (now : Date) (st : t)
    (entry : string * list string) :
  responses (processDomain now st entry) = responses st
  /\ currentResponseId (processDomain now st entry) = currentResponseId st.
Proof.
  destruct entry as [d urls].
  unfold processDomain, updateSourceCitationCount.
  repeat match goal with
         | |- context [match ?x with _ => _ end] => destruct x
         end; split; reflexivity.
Qed.

Lemma fold_responses {A : Type} (f : t -> A -> t) (xs : list A) (st : t) :
  (forall s x, responses (f s x) = responses s
               /\ currentResponseId (f s x) = currentResponseId s) ->
  responses (fold_left f xs st) = responses st
  /\ currentResponseId (fold_left f xs st) = currentResponseId st.
Proof.
  intros H. revert st. induction xs as [|x xs IH]; intros st; simpl.
  - split; reflexivity.
  - destruct (IH (f st x)) as [E1 E2]. destruct (H st x) as [F1 F2].
    split; congruence.
Qed.

(** The loop body stores exactly one response row, built from the
    analysis of the prompt. *)
Lemma processPrompt_responses (env : Environment) (now : Date) (i : nat)
    (pd : InsertPrompt) (prompt : Prompt) (st : t) :
  responses_fresh st ->
  exists r,
    responses (processPrompt env now i pd prompt st)
    = responses st ++ [(currentResponseId st, r)]
    /\ currentResponseId (processPrompt env now i pd prompt st)
       = currentResponseId st + 1
    /\ promptId r = prompt_id prompt
    /\ builtFrom (analysisFor env i (ip_text pd)) r.
Proof.
  intros F. unfold processPrompt.
  set (a := analysisFor env i (ip_text pd)).
  set (st1 := fold_left (processCompetitor env now) (OpenAI.competitors a) st).
  set (st2 := fold_left (processDomain now) _ st1).
  assert (E1 : responses st1 = responses st
               /\ currentResponseId st1 = currentResponseId st)
    by (apply fold_responses; intros; apply processCompetitor_responses).
  assert (E2 : responses st2 = responses st1
               /\ currentResponseId st2 = currentResponseId st1)
    by (apply fold_responses; intros; apply processDomain_responses).
  destruct E1 as [E1 E1']. destruct E2 as [E2 E2'].
  unfold createResponse. cbn [fst responses set_responses currentResponseId
                               response_id].
  rewrite E2, E2', E1, E1'.
  eexists. split; [apply map_set_fresh; exact F|].
  split; [reflexivity|]. split; [reflexivity|].
  repeat split; reflexivity.
Qed.

Lemma processPrompt_fresh (env : Environment) (now : Date) (i : nat)
    (pd : InsertPrompt) (prompt : Prompt) (st : t) :
  responses_fresh st ->
  responses_fresh (processPrompt env now i pd prompt st).
Proof.
  intros F. destruct (processPrompt_responses env now i pd prompt st F)
    as (r & E & E' & _).
  unfold responses_fresh, fresh_keys in *. rewrite E, E'.
  apply Forall_app. split.
  - eapply Forall_impl; [|exact F]. simpl. intros; lia.
  - constructor; [simpl; lia | constructor].
Qed.

(** When the adapter throws, the row stored is built from the fallback
    analysis, whose parts are fixed by the random draw and the
    best-effort competitor extraction. *)
Lemma fallback_row (env : Environment) (now : Date) (i : nat)
    (pd : InsertPrompt) (prompt : Prompt) (st : t) :
  responses_fresh st ->
  analyze env i (ip_text pd) = AdapterThrows ->
  exists r,
    responses (processPrompt env now i pd prompt st)
    = responses st ++ [(currentResponseId st, r)]
    /\ builtFrom (fallbackAnalysis env i (ip_text pd)) r.
Proof.
  intros F H. destruct (processPrompt_responses env now i pd prompt st F)
    as (r & E & _ & _ & B).
  exists r. split; [assumption|].
  unfold analysisFor in B. now rewrite H in B.
Qed.


End BodyFacts.

(** ** Steps of a single run *)

Section StepFacts.
Import MemStorage Analyzer Statements.

Lemma exec_app (sys : System) (evs evs' : list Event) :
  exec sys (evs ++ evs') = exec (exec sys evs) evs'.
Proof. apply fold_left_app. Qed.

Lemma resume_solo (g : Globals) (r : Run) :
  react (solo g r) (Resume 0)
  = solo (fst (stepRun g r)) (snd (stepRun g r)).
Proof.
  unfold react, solo. cbn [runs globals nth_error].
  destruct (stepRun g r) as [g' r']. reflexivity.
Qed.

Lemma stop_solo (g : Globals) (r : Run) :
  react (solo g r) Stop = solo (stopCurrentAnalysis g) r.
Proof. reflexivity. Qed.

(** The top of an iteration, flag set: the prompt is stored. *)
Lemma top_go (g : Globals) (r : Run) all i c pd :
  pc r = LoopTop all i c -> nth_error all i = Some pd ->
  isAnalysisRunning g = true ->
  exists prompt,
    pc (snd (stepRun g r)) = InBody all i c prompt
    /\ env (snd (stepRun g r)) = env r
    /\ isAnalysisRunning (fst (stepRun g r)) = true
    /\ responses (storage (fst (stepRun g r))) = responses (storage g)
    /\ currentResponseId (storage (fst (stepRun g r)))
       = currentResponseId (storage g).
Proof.
  intros Hpc Hn Hf. unfold stepRun. rewrite Hpc, Hn, Hf.
  cbn [negb].
  destruct (createPrompt (now (env r) (steps r)) pd (storage g))
    as [st prompt] eqn:E.
  exists prompt. cbn [fst snd pc env at_pc isAnalysisRunning set_storage storage].
  unfold createPrompt in E. injection E as <- _.
  repeat split; try reflexivity. assumption.
Qed.

(** The top of an iteration, flag cleared: the run ends there. *)
Lemma top_cancel (g : Globals) (r : Run) all i c pd :
  pc r = LoopTop all i c -> nth_error all i = Some pd ->
  isAnalysisRunning g = false ->
  pc (snd (stepRun g r)) = Finished Cancelled
  /\ storage (fst (stepRun g r)) = storage g
  /\ isAnalysisRunning (fst (stepRun g r)) = false
  /\ status (currentProgress (fst (stepRun g r))) = error
  /\ message (currentProgress (fst (stepRun g r))) = cancelledMessage.
Proof.
  intros Hpc Hn Hf. unfold stepRun. rewrite Hpc, Hn, Hf.
  repeat split; reflexivity.
Qed.


(** The body of an iteration: one response row more; the flag is
    neither read nor written. *)
Lemma body_step (g : Globals) (r : Run) all i c prompt pd :
  pc r = InBody all i c prompt -> nth_error all i = Some pd ->
  responses_fresh (storage g) ->
  exists row,
    pc (snd (stepRun g r)) = LoopTop all (i + 1) (c + 1)
    /\ env (snd (stepRun g r)) = env r
    /\ isAnalysisRunning (fst (stepRun g r)) = isAnalysisRunning g
    /\ responses (storage (fst (stepRun g r)))
       = responses (storage g) ++ [row]
    /\ builtFrom (analysisFor (env r) i (ip_text pd)) (snd row)
    /\ responses_fresh (storage (fst (stepRun g r))).
Proof.
  intros Hpc Hn F. unfold stepRun. rewrite Hpc, Hn.
  destruct (processPrompt_responses (env r) (now (env r) (steps r)) i pd
              prompt (storage g) F) as (row & E & _ & _ & B).
  exists (currentResponseId (storage g), row).
  cbn [fst snd pc env at_pc isAnalysisRunning set_storage storage
       updateProgress set_progress].
  repeat split; try reflexivity; try assumption; try apply B.
  now apply processPrompt_fresh.
Qed.

Lemma finished_stuck (g : Globals) (r : Run) (o : Outcome) :
  pc r = Finished o -> stepRun g r = (g, r).
Proof. intros H. unfold stepRun. now rewrite H. Qed.

Lemma finished_forever (g : Globals) (r : Run) (o : Outcome) (m : nat) :
  pc r = Finished o -> exec (solo g r) (repeat (Resume 0) m) = solo g r.
Proof.
  intros H. induction m as [|m IH]; [reflexivity|].
  cbn [repeat]. unfold exec in *. cbn [fold_left].
  rewrite resume_solo, (finished_stuck g r o H). exact IH.
Qed.

(** [k] iterations from the top of iteration [i], with the flag set
    throughout: [k] rows more, one per prompt and in the order of the
    prompts. *)
Lemma iterations (k : nat) :
  forall (g : Globals) (r : Run) all i c,
    pc r = LoopTop all i c -> i + k <= List.length all ->
    isAnalysisRunning g = true -> responses_fresh (storage g) ->
    exists g' r' added,
      exec (solo g r) (repeat (Resume 0) (2 * k)) = solo g' r'
      /\ pc r' = LoopTop all (i + k) (c + k)
      /\ env r' = env r
      /\ isAnalysisRunning g' = true
      /\ responses_fresh (storage g')
      /\ responses (storage g') = responses (storage g) ++ added
      /\ List.length added = k
      /\ (forall j row, nth_error added j = Some row ->
            exists pd, nth_error all (i + j) = Some pd
                       /\ builtFrom (analysisFor (env r) (i + j) (ip_text pd))
                            (snd row)).
Proof.
  induction k as [|k IH]; intros g r all i c Hpc Hk Hf F.
  - exists g, r, []. rewrite !Nat.add_0_r, app_nil_r.
    repeat split; try assumption; try reflexivity.
    intros [|j] row H; discriminate.
  - destruct (nth_error all i) as [pd|] eqn:Hn;
      [|apply nth_error_None in Hn; lia].
    replace (2 * S k) with (S (S (2 * k))) by lia.
    cbn [repeat]. unfold exec. cbn [fold_left].
    rewrite resume_solo.
    destruct (top_go g r all i c pd Hpc Hn Hf)
      as (prompt & P1 & P2 & P3 & P4 & P5).
    set (g1 := fst (stepRun g r)) in *. set (r1 := snd (stepRun g r)) in *.
    assert (F1 : responses_fresh (storage g1))
      by (unfold responses_fresh in *; now rewrite P4, P5).
    rewrite resume_solo.
    destruct (body_step g1 r1 all i c prompt pd P1 Hn F1)
      as (row & B1 & B2 & B3 & B4 & B5 & B6).
    set (g2 := fst (stepRun g1 r1)) in *. set (r2 := snd (stepRun g1 r1)) in *.
    assert (Hf2 : isAnalysisRunning g2 = true) by congruence.
    destruct (IH g2 r2 all (i + 1) (c + 1) B1 ltac:(lia) Hf2 B6)
      as (g' & r' & added & E & Q1 & Q2 & Q3 & Q4 & Q5 & Q6 & Q7).
    exists g', r', (row :: added).
    split; [exact E|].
    split; [rewrite Q1; f_equal; lia|].
    split; [congruence|]. split; [assumption|]. split; [assumption|].
    split; [rewrite Q5, B4, P4, <- app_assoc; reflexivity|].
    split; [simpl; lia|].
    intros [|j] row' H.
    + injection H as <-. exists pd. rewrite Nat.add_0_r.
      split; [assumption|]. now rewrite <- P2.
    + destruct (Q7 j row' H) as (pd' & N1 & N2).
      exists pd'. replace (i + S j) with (i + 1 + j) by lia.
      split; [assumption|]. now rewrite <- P2, <- B2.
Qed.

End StepFacts.

(** ** From the call to the top of the loop *)

Section StartFacts.
Import MemStorage Analyzer Statements.

Lemma addTopicPrompts_responses (env : Environment) (now : Date)
    (args : RunArgs) (acc : t * list InsertPrompt) (topic : InsertTopic) :
  responses (fst (addTopicPrompts env now args acc topic)) = responses (fst acc)
  /\ currentResponseId (fst (addTopicPrompts env now args acc topic))
     = currentResponseId (fst acc).
Proof.
  destruct acc as [st allPrompts]. unfold addTopicPrompts.
  destruct (find _ (getTopics st)); split; reflexivity.
Qed.

Lemma fold_topics_responses (env : Environment) (now : Date) (args : RunArgs)
    (topics : list InsertTopic) (acc : t * list InsertPrompt) :
  responses (fst (fold_left (addTopicPrompts env now args) topics acc))
  = responses (fst acc)
  /\ currentResponseId
       (fst (fold_left (addTopicPrompts env now args) topics acc))
     = currentResponseId (fst acc).
Proof.
  revert acc. induction topics as [|x xs IH]; intros acc; simpl.
  - split; reflexivity.
  - destruct (IH (addTopicPrompts env now args acc x)) as [E1 E2].
    destruct (addTopicPrompts_responses env now args acc x) as [F1 F2].
    split; congruence.
Qed.

Lemma sourcePrompts_running (env : Environment) (now : Date) (args : RunArgs)
    (g : Globals) :
  isAnalysisRunning (fst (sourcePrompts env now args g)) = isAnalysisRunning g.
Proof.
  unfold sourcePrompts.
  destruct (savedGiven args); [reflexivity|].
  destruct (useExistingPrompts args); [reflexivity|].
  destruct (fold_left _ _ _). reflexivity.
Qed.

Lemma sourcePrompts_fresh (env : Environment) (now : Date) (args : RunArgs)
    (g : Globals) :
  responses_fresh (storage g) ->
  responses_fresh (storage (fst (sourcePrompts env now args g))).
Proof.
  intros F. unfold sourcePrompts.
  destruct (savedGiven args); [constructor|].
  destruct (useExistingPrompts args); [exact F|].
  match goal with
  | |- context [fold_left ?f ?l ?a] =>
      pose proof (fold_topics_responses env now args l a) as [E1 E2];
      destruct (fold_left f l a) as [st allPrompts]
  end.
  unfold responses_fresh in *. cbn [fst snd storage set_storage updateProgress
                                    set_progress] in *.
  now rewrite E1, E2.
Qed.

(** After the call and the initial delay, the only run stands at the
    top of the loop with the flag set. *)
Lemma started_at_top this (args : RunArgs) (env : Environment) (t0 : Date)
    (st0 : t) :
  exists g r all,
    started this args env t0 st0 = solo g r
    /\ pc r = LoopTop all 0 0
    /\ Analyzer.env r = env
    /\ isAnalysisRunning g = true
    /\ (responses_fresh st0 -> responses_fresh (storage g)).
Proof.
  unfold started, exec, boot. cbn [fold_left].
  unfold react at 2. unfold enter. cbn [globals initialGlobals isAnalysisRunning].
  cbn [runs app].
  match goal with
  | |- context [react {| globals := ?g0; runs := [?r0] |} (Resume 0)] =>
      change {| globals := g0; runs := [r0] |} with (solo g0 r0);
      set (g1 := g0); set (r1 := r0)
  end.
  rewrite resume_solo. unfold stepRun. cbn [pc r1].
  pose proof (sourcePrompts_running (Analyzer.env r1) (now (Analyzer.env r1) (steps r1))
                (Analyzer.args r1) g1) as R.
  pose proof (sourcePrompts_fresh (Analyzer.env r1) (now (Analyzer.env r1) (steps r1))
                (Analyzer.args r1) g1) as Fr.
  destruct (sourcePrompts _ _ _ g1) as [g2 all].
  exists g2, (at_pc r1 (LoopTop all 0 0)), all.
  cbn [fst snd] in *.
  split; [reflexivity|]. split; [reflexivity|]. split; [reflexivity|].
  split.
  - rewrite R. destruct (settings args) as [s|]; [reflexivity|].
    destruct (savedGiven args); reflexivity.
  - intros F. apply Fr.
    destruct (settings args) as [s|]; [exact F|].
    destruct (savedGiven args); exact F.
Qed.

End StartFacts.

(** ** Cancellation and fallback over a whole run *)

Section RunFacts.
Import MemStorage Analyzer Statements.

Lemma promptsOf_top (g : Globals) (r : Run) all i c :
  pc r = LoopTop all i c -> promptsOf (solo g r) = all.
Proof. intros H. unfold promptsOf, pcs, solo. cbn [runs map]. now rewrite H. Qed.

(** A cancel request followed by the step at the top of an iteration. *)
Lemma stop_then_top (g : Globals) (r : Run) all i c pd :
  pc r = LoopTop all i c -> nth_error all i = Some pd ->
  exists g' r',
    exec (solo g r) [Stop; Resume 0] = solo g' r'
    /\ pc r' = Finished Cancelled
    /\ storage g' = storage g
    /\ isAnalysisRunning g' = false
    /\ status (currentProgress g') = error
    /\ message (currentProgress g') = cancelledMessage.
Proof.
  intros Hpc Hn. unfold exec. cbn [fold_left].
  rewrite stop_solo, resume_solo.
  destruct (top_cancel (stopCurrentAnalysis g) r all i c pd Hpc Hn eq_refl)
    as (T1 & T2 & T3 & T4 & T5).
  eexists _, _. split; [reflexivity|]. repeat split; assumption.
Qed.

(** C2: take a run that stands at the top of its loop over [N] prompts
    and let the cancel request be seen at the top of iteration [k + 1]
    ([k < N]; the request arrives while prompt [k] is processed or once
    it has completed).  The run then ends without processing a further
    prompt, the rows stored are those present at the start of the loop
    followed by exactly [k] new ones (nothing is rolled back, and no
    later step of the run changes anything), and the progress record
    ends with status [error] and the message of a user cancellation. *)
Theorem C2_cancellation_leaves_partial_data :
  forall this (args : RunArgs) (env : Environment) (t0 : Date) (st0 : t)
         (k : nat) (during : bool),
    responses_fresh st0 ->
    k < List.length (promptsOf (started this args env t0 st0)) ->
    let sys0 := started this args env t0 st0 in
    let final := exec sys0 (cancelSchedule k during) in
    pcs final = [Finished Cancelled]
    /\ status (progressOf final) = error
    /\ message (progressOf final) = "Analysis cancelled by user"
    /\ isAnalysisRunning (globals final) = false
    /\ (exists added,
           responsesOf final = responsesOf sys0 ++ added
           /\ List.length added = k)
    /\ (forall m, exec final (repeat (Resume 0) m) = final).
Proof.
  intros this args env t0 st0 k during F Hk sys0 final.
  destruct (started_at_top this args env t0 st0)
    as (g & r & all & E & Hpc & He & Hf & Fr).
  specialize (Fr F).
  unfold final, sys0 in *. rewrite E in *.
  rewrite (promptsOf_top g r all 0 0 Hpc) in Hk.
  unfold cancelSchedule. destruct during.
  - (* the request arrives while prompt [k] is being processed *)
    destruct k as [|k].
    + change (repeat (Resume 0) (2 * 0 - 1)) with (@nil Event). cbn [app].
      destruct (nth_error all 0) as [pd|] eqn:Hn;
        [|apply nth_error_None in Hn; lia].
      change [Stop; Resume 0; Resume 0] with ([Stop; Resume 0] ++ [Resume 0]).
      rewrite exec_app.
      destruct (stop_then_top g r all 0 0 pd Hpc Hn)
        as (g' & r' & E' & C1 & C2 & C3 & C4 & C5).
      rewrite E'.
      pose proof (finished_forever g' r' Cancelled 1 C1) as S1.
      cbn [repeat] in S1. rewrite S1.
      unfold pcs, progressOf, responsesOf, solo. cbn [runs globals map].
      rewrite C1, C2, C4, C5. repeat split; try assumption.
      * exists []. now rewrite app_nil_r.
      * intros m. apply (finished_forever g' r' Cancelled m C1).
    + replace (2 * S k - 1) with (2 * k + 1) by lia.
      rewrite repeat_app, <- app_assoc, exec_app.
      destruct (iterations k g r all 0 0 Hpc ltac:(lia) Hf Fr)
        as (g1 & r1 & added & E1 & Q1 & Q2 & Q3 & Q4 & Q5 & Q6 & _).
      rewrite E1. cbn [repeat app Nat.add] in *.
      destruct (nth_error all k) as [pd|] eqn:Hn;
        [|apply nth_error_None in Hn; lia].
      unfold exec. cbn [fold_left]. rewrite resume_solo.
      destruct (top_go g1 r1 all k k pd Q1 Hn Q3)
        as (prompt & P1 & P2 & P3 & P4 & P5).
      set (g2 := fst (stepRun g1 r1)) in *.
      set (r2 := snd (stepRun g1 r1)) in *.
      rewrite stop_solo, resume_solo.
      assert (F2 : responses_fresh (storage (stopCurrentAnalysis g2)))
        by (unfold responses_fresh in *; cbn [stopCurrentAnalysis storage
              set_progress set_running]; now rewrite P4, P5).
      destruct (body_step (stopCurrentAnalysis g2) r2 all k k prompt pd
                  P1 Hn F2) as (row & B1 & B2 & B3 & B4 & _ & _).
      set (g3 := fst (stepRun (stopCurrentAnalysis g2) r2)) in *.
      set (r3 := snd (stepRun (stopCurrentAnalysis g2) r2)) in *.
      destruct (nth_error all (k + 1)) as [pd'|] eqn:Hn';
        [|apply nth_error_None in Hn'; lia].
      rewrite resume_solo.
      destruct (top_cancel g3 r3 all (k + 1) (k + 1) pd' B1 Hn' B3)
        as (T1 & T2 & T3 & T4 & T5).
      set (g4 := fst (stepRun g3 r3)) in *.
      set (r4 := snd (stepRun g3 r3)) in *.
      change (fold_left react [] (solo g4 r4)) with (solo g4 r4).
      unfold pcs, progressOf, responsesOf, solo. cbn [runs globals map].
      rewrite T1, T2, T4, T5. repeat split; try assumption.
      * exists (added ++ [row]).
        split; [|rewrite length_app; simpl; lia].
        rewrite B4. cbn [stopCurrentAnalysis storage set_progress set_running].
        rewrite P4, Q5, <- app_assoc. reflexivity.
      * intros m. apply (finished_forever g4 r4 Cancelled m T1).
  - (* the request arrives once prompt [k] has completed *)
    rewrite exec_app.
    destruct (iterations k g r all 0 0 Hpc ltac:(lia) Hf Fr)
      as (g1 & r1 & added & E1 & Q1 & Q2 & Q3 & Q4 & Q5 & Q6 & _).
    rewrite E1. cbn [Nat.add] in *.
    destruct (nth_error all k) as [pd|] eqn:Hn;
      [|apply nth_error_None in Hn; lia].
    destruct (stop_then_top g1 r1 all k k pd Q1 Hn)
      as (g' & r' & E' & C1 & C2 & C3 & C4 & C5).
    rewrite E'.
    unfold pcs, progressOf, responsesOf, solo. cbn [runs globals map].
    rewrite C1, C2, C4, C5. repeat split; try assumption.
    + exists added. split; assumption.
    + intros m. apply (finished_forever g' r' Cancelled m C1).
Qed.

(** C2 at work: two saved prompts, the cancel request arriving while the
    first is processed. *)
Lemma C2_cancellation_witness :
  let sys0 := started Examples.me Examples.two_saved Examples.env_ok
                0 MemStorage.empty in
  let final := exec sys0 (cancelSchedule 1 true) in
  pcs final = [Finished Cancelled]
  /\ status (progressOf final) = error
  /\ message (progressOf final) = "Analysis cancelled by user"
  /\ isAnalysisRunning (globals final) = false
  /\ (exists added,
         responsesOf final = responsesOf sys0 ++ added
         /\ List.length added = 1)
  /\ (forall m, exec final (repeat (Resume 0) m) = final).
Proof.
  apply (C2_cancellation_leaves_partial_data Examples.me Examples.two_saved
           Examples.env_ok 0 MemStorage.empty 1 true).
  - constructor.
  - vm_compute. lia.
Defined.

End RunFacts.

Section FallbackFacts.
Import MemStorage Analyzer Statements.



(** The run of the example stores two rows, both with the brand flag
    set (the draw 0 is below 0.15) and without competitors. *)
Example fallback_rows :
  map (fun kv => (brandMentioned (snd kv), competitorsMentioned (snd kv)))
    (responsesOf
       (exec (started Examples.me Examples.two_saved Examples.env_fail
                0 MemStorage.empty)
          (repeat (Resume 0) 5)))
  = [(Some true, Some []); (Some true, Some [])].
Proof. vm_compute. reflexivity. Qed.

End FallbackFacts.

(** ** Counting mentions and citations *)

Section CountFacts.
Import MemStorage Analyzer Statements.

Lemma group_add_keys (d u : string) (m : list (string * list string)) :
  map fst (group_add d u m)
  = if Text.mem d (map fst m) then map fst m else map fst m ++ [d].
Proof.
  unfold Text.mem. induction m as [|[d' us] m IH]; simpl; [reflexivity|].
  rewrite (String.eqb_sym d d').
  destruct (String.eqb d' d) eqn:E; simpl; [reflexivity|].
  rewrite IH. now destruct (existsb (String.eqb d) (map fst m)).
Qed.

Lemma group_url_NoDup (m : list (string * list string)) (u : string) :
  NoDup (map fst m) -> NoDup (map fst (group_url m u)).
Proof.
  intros H. unfold group_url.
  destruct (_ || _); [assumption|]. destruct (_ || _); [assumption|].
  rewrite group_add_keys.
  destruct (Text.mem _ (map fst m)) eqn:E; [assumption|].
  apply mem_false in E. apply NoDup_app; [assumption | repeat constructor; tauto |].
  intros x Hx [<-|[]]. contradiction.
Qed.

(** Every domain heads exactly one group: the loop over the domains
    runs its increment once per domain, however many URLs the group
    holds. *)
Lemma urlsByDomain_NoDup (allUrls : list string) :
  NoDup (map fst (urlsByDomain allUrls)).
Proof.
  unfold urlsByDomain.
  assert (G : forall m, NoDup (map fst m) ->
                        NoDup (map fst (fold_left group_url allUrls m))).
  { induction allUrls as [|u us IH]; intros m H; simpl; [assumption|].
    apply IH. now apply group_url_NoDup. }
  apply G. constructor.
Qed.

(** A source that is stored with a count gets exactly one increment
    from the round of its domain. *)
Lemma processDomain_counted (now : Date) (st : t) (d : string)
    (urls : list string) (s : Source) (n : Z) :
  getSourceByDomain d st = Some s -> citationCount s = Some n ->
  exists s',
    getSourceByDomain d (processDomain now st (d, urls)) = Some s'
    /\ citationCount s' = Some (n + 1)%Z.
Proof.
  intros H Hn. unfold processDomain. rewrite H.
  destruct (updateSource_counted now d 1 n s st H Hn) as (s' & E & C & _).
  now exists s'.
Qed.

(** A competitor that is stored with a count gets one increment per
    appearance; a count is never lowered. *)
Lemma processCompetitor_counted (env : Environment) (now : Date) (st : t)
    (name : string) (c : Competitor) (n : Z) :
  getCompetitorByName name st = Some c -> mentionCount c = Some n ->
  exists c',
    getCompetitorByName name (processCompetitor env now st name) = Some c'
    /\ mentionCount c' = Some (n + 1)%Z.
Proof.
  intros H Hn. unfold processCompetitor. rewrite H.
  destruct (updateCompetitor_counted now name 1 n c st H Hn)
    as (c' & E & C & _).
  now exists c'.
Qed.



End CountFacts.

(** ** Calls made while a run is active *)

Section SingleFlightFacts.
Import MemStorage Analyzer Statements.

(** A call that finds the flag set starts nothing and changes neither
    the store nor the progress record, but it clears the flag. *)
Lemma enter_busy (now : Date) (args : RunArgs) (g : Globals) :
  isAnalysisRunning g = true ->
  enter now args g = (set_running g false, false).
Proof. intros H. unfold enter. now rewrite H. Qed.

(** Hence the call after such a call starts a run, whatever the first
    run is doing. *)
Lemma call_after_busy_call_starts (t1 t2 : Date) (args1 args2 : RunArgs)
    (g : Globals) :
  isAnalysisRunning g = true ->
  snd (enter t2 args2 (fst (enter t1 args1 g))) = true
  /\ isAnalysisRunning (fst (enter t2 args2 (fst (enter t1 args1 g)))) = true.
Proof.
  intros H. rewrite (enter_busy t1 args1 g H). unfold enter.
  cbn [fst isAnalysisRunning set_running].
  destruct (settings args2); [split; reflexivity|].
  destruct (savedGiven args2); split; reflexivity.
Qed.

(** C1 on the code: a call made while a run is active returns at once
    but clears the flag on its way out.  After three calls in a row two
    runs are active; and a run disturbed by one extra call ends as
    cancelled at its first prompt, leaving no Response, Competitor or
    Source row where the undisturbed run leaves 2, 1 and 1. *)
Theorem C1_second_call_clears_the_flag :
  pcs Examples.three_calls = [AwaitDelay; Finished Skipped; AwaitDelay]
  /\ activeRuns Examples.three_calls = 2
  /\ pcs Examples.second_call = [Finished Cancelled; Finished Skipped]
  /\ message (progressOf Examples.second_call) = "Analysis cancelled by user"
  /\ (List.length (responsesOf Examples.second_call),
      List.length (getCompetitors (storage (globals Examples.second_call))),
      List.length (getSources (storage (globals Examples.second_call))))
     = (0, 0, 0)
  /\ pcs Examples.baseline = [Finished Completed]
  /\ (List.length (responsesOf Examples.baseline),
      List.length (getCompetitors (storage (globals Examples.baseline))),
      List.length (getSources (storage (globals Examples.baseline))))
     = (2, 1, 1).
Proof. repeat split; vm_compute; reflexivity. Qed.

End SingleFlightFacts.

(** ** The same sequence on the database storage *)

Section DatabaseFacts.
Import MemStorage.

Lemma find_snoc_new {V : Type} (p : V -> bool) (l : list V) (v : V) :
  find p l = None -> p v = true -> find p (l ++ [v]) = Some v.
Proof.
  induction l as [|x l IH]; simpl; intros H Hv.
  - now rewrite Hv.
  - destruct (p x); [discriminate | now apply IH].
Qed.

Lemma find_map_first {V : Type} (p : V -> bool) (f : V -> V) (l : list V)
    (v : V) :
  (forall x, p (f x) = p x) -> find p l = Some v ->
  find p (map f l) = Some (f v).
Proof.
  intros Hp. induction l as [|x l IH]; simpl; intros H; [discriminate|].
  rewrite Hp. destruct (p x); [now injection H as -> | now apply IH].
Qed.

(** On the database storage the sequence "create with count 0, then
    increment by 1" of the orchestrator yields the count 1. *)
Lemma database_create_then_increment (name : string) (cat : option string)
    (db db' : DatabaseStorage.t) (c : Competitor) :
  DatabaseStorage.createCompetitor
    {| ic_name := name; ic_category := cat; ic_mentionCount := Some 0%Z |} db
  = Some (db', c) ->
  option_map mentionCount
    (DatabaseStorage.getCompetitorByName name
       (DatabaseStorage.updateCompetitorMentionCount name 1 db'))
  = Some (Some 1%Z).
Proof.
  unfold DatabaseStorage.createCompetitor. cbn [ic_name ic_category ic_mentionCount].
  destruct (DatabaseStorage.getCompetitorByName name db) eqn:G; [discriminate|].
  intros H. injection H as <- <-.
  unfold DatabaseStorage.getCompetitorByName,
    DatabaseStorage.updateCompetitorMentionCount in *.
  cbn [DatabaseStorage.competitors].
  match goal with
  | |- context [find ?p (map ?f (?l ++ [?v]))] =>
      assert (Fd : find p (l ++ [v]) = Some v)
        by (apply find_snoc_new; [exact G | apply String.eqb_refl]);
      rewrite (find_map_first p f (l ++ [v]) v); [|clear Fd|exact Fd]
  end.
  - cbn [competitor_name option_map mentionCount].
    rewrite String.eqb_refl. reflexivity.
  - intros x. destruct (String.eqb (competitor_name x) name) eqn:E;
      cbn [competitor_name]; now rewrite E.
Qed.

Lemma database_source_then_increment (d u : string) (ttl : option string)
    (db : DatabaseStorage.t) :
  DatabaseStorage.getSourceByDomain d db = None ->
  option_map citationCount
    (DatabaseStorage.getSourceByDomain d
       (DatabaseStorage.updateSourceCitationCount d 1
          (fst (DatabaseStorage.createSource
                  {| is_domain := d; is_url := u; is_title := ttl;
                     is_citationCount := Some 0%Z |} db))))
  = Some (Some 1%Z).
Proof.
  intros G.
  unfold DatabaseStorage.getSourceByDomain,
    DatabaseStorage.updateSourceCitationCount, DatabaseStorage.createSource in *.
  cbn [fst DatabaseStorage.sources is_domain is_url is_title is_citationCount].
  match goal with
  | |- context [find ?p (map ?f (?l ++ [?v]))] =>
      assert (Fd : find p (l ++ [v]) = Some v)
        by (apply find_snoc_new; [exact G | apply String.eqb_refl]);
      rewrite (find_map_first p f (l ++ [v]) v); [|clear Fd|exact Fd]
  end.
  - cbn [domain option_map citationCount].
    rewrite String.eqb_refl. reflexivity.
  - intros x. destruct (String.eqb (domain x) d) eqn:E;
      cbn [domain]; now rewrite E.
Qed.

End DatabaseFacts.

(** * Further properties of the code *)

(** ** The in-memory storage: identifiers and lookups *)

Section MapFacts.
Import MemStorage Statements.

Lemma map_get_set_same {V : Type} (k : nat) (v : V) (m : JsMap V) :
  map_get k (map_set k v m) = Some v.
Proof.
  induction m as [|[k' v'] m IH]; simpl.
  - now rewrite Nat.eqb_refl.
  - destruct (k' =? k) eqn:E; simpl; [now rewrite Nat.eqb_refl|].
    now rewrite E.
Qed.

Lemma map_get_set_other {V : Type} (k k' : nat) (v : V) (m : JsMap V) :
  k' <> k -> map_get k' (map_set k v m) = map_get k' m.
Proof.
  intros N. induction m as [|[k0 v0] m IH]; simpl.
  - destruct (k =? k') eqn:E; [apply Nat.eqb_eq in E; congruence | reflexivity].
  - destruct (k0 =? k) eqn:E; simpl.
    + apply Nat.eqb_eq in E. subst k0.
      destruct (k =? k') eqn:E'; [apply Nat.eqb_eq in E'; congruence | reflexivity].
    + now rewrite IH.
Qed.

Lemma map_set_Forall {V : Type} (P : nat * V -> Prop) (k : nat) (v : V)
    (m : JsMap V) :
  Forall P m -> P (k, v) -> Forall P (map_set k v m).
Proof.
  induction 1 as [|[k' v'] m Hx Hm IH]; intros Hv; simpl.
  - now constructor.
  - destruct (k' =? k); constructor; auto.
Qed.

Lemma map_set_keys_present {V : Type} (k : nat) (v : V) (m : JsMap V) :
  In k (map fst m) -> map fst (map_set k v m) = map fst m.
Proof.
  induction m as [|[k' v'] m IH]; simpl; [tauto|].
  intros H. destruct (k' =? k) eqn:E; simpl.
  - apply Nat.eqb_eq in E. now subst.
  - destruct H as [H|H]; [apply Nat.eqb_neq in E; congruence|].
    now rewrite IH.
Qed.

Lemma mutate_first_keys {V : Type} (p : V -> bool) (f : V -> V)
    (m : JsMap V) :
  map fst (mutate_first p f m) = map fst m.
Proof.
  induction m as [|[k v] m IH]; simpl; [reflexivity|].
  destruct (p v); simpl; [reflexivity | now rewrite IH].
Qed.

Lemma mutate_first_Forall {V : Type} (P : nat * V -> Prop) (p : V -> bool)
    (c w : V) (m : JsMap V) :
  Forall P m -> find p (map_values m) = Some c ->
  (forall k, P (k, c) -> P (k, w)) ->
  Forall P (mutate_first p (fun _ => w) m).
Proof.
  unfold map_values.
  induction 1 as [|[k v] m Hx Hm IH]; intros Hc Hw; simpl; [constructor|].
  simpl in Hc. destruct (p v) eqn:E.
  - injection Hc as <-. constructor; [now apply Hw | assumption].
  - constructor; [assumption | now apply IH].
Qed.

Lemma mutate_first_has_key {V : Type} (p : V -> bool) (idOf : V -> nat)
    (c w : V) (m : JsMap V) :
  Forall (fun kv => fst kv = idOf (snd kv)) m ->
  find p (map_values m) = Some c ->
  In (idOf c) (map fst (mutate_first p (fun _ => w) m)).
Proof.
  unfold map_values.
  induction 1 as [|[k v] m Hx Hm IH]; intros Hc; simpl in *; [discriminate|].
  destruct (p v) eqn:E.
  - injection Hc as <-. now left.
  - right. now apply IH.
Qed.

Lemma find_values_In {V : Type} (p : V -> bool) (m : JsMap V) (v : V) :
  find p (map_values m) = Some v -> exists k, In (k, v) m /\ p v = true.
Proof.
  unfold map_values. induction m as [|[k v'] m IH]; simpl; [discriminate|].
  destruct (p v') eqn:E.
  - intros H. injection H as <-. exists k. split; [now left | assumption].
  - intros H. destruct (IH H) as (k' & Hin & Hp). exists k'. split; [now right | assumption].
Qed.

Lemma sorted_snoc (ks : list nat) (n : nat) :
  StronglySorted lt ks -> Forall (fun k => k < n) ks ->
  StronglySorted lt (ks ++ [n]).
Proof.
  induction 1 as [|k ks Hs IH Hk]; intros F; simpl.
  - repeat constructor.
  - inversion F as [|? ? F1 F2]; subst. constructor; [now apply IH|].
    apply Forall_app. split; [assumption | now repeat constructor].
Qed.

(** Storing a new record under the counter keeps the map keyed. *)
Lemma keyed_create {V : Type} (idOf : V -> nat) (m : JsMap V) (next : nat)
    (v : V) :
  keyed idOf m next -> idOf v = next ->
  keyed idOf (map_set next v m) (next + 1)
  /\ map_set next v m = m ++ [(next, v)].
Proof.
  intros [F S] Hid.
  assert (Fr : fresh_keys m next)
    by (eapply Forall_impl; [|exact F]; simpl; tauto).
  rewrite (map_set_fresh next v m Fr). split; [|reflexivity]. split.
  - apply Forall_app. split.
    + eapply Forall_impl; [|exact F]. simpl. intros a [H1 H2]. split; [assumption | lia].
    + constructor; [simpl; split; [congruence | lia] | constructor].
  - rewrite map_app. simpl. apply sorted_snoc; [assumption|].
    apply Forall_map. eapply Forall_impl; [|exact F]. simpl. tauto.
Qed.

(** Updating the record found by a search keeps the map keyed. *)
Lemma keyed_update {V : Type} (idOf : V -> nat) (p : V -> bool)
    (m : JsMap V) (next : nat) (c w : V) :
  keyed idOf m next -> find p (map_values m) = Some c -> idOf w = idOf c ->
  keyed idOf (map_set (idOf w) w (mutate_first p (fun _ => w) m)) next.
Proof.
  intros [F S] Hc Hid.
  assert (Fm : Forall (fun kv => fst kv = idOf (snd kv) /\ fst kv < next)
                 (mutate_first p (fun _ => w) m)).
  { apply (mutate_first_Forall _ p c w m F Hc).
    simpl. intros k [H1 H2]. split; [congruence | assumption]. }
  assert (Hin : In (idOf w) (map fst (mutate_first p (fun _ => w) m))).
  { rewrite Hid. apply mutate_first_has_key; [|assumption].
    eapply Forall_impl; [|exact F]. simpl. tauto. }
  split.
  - apply map_set_Forall; [assumption|]. simpl. split; [reflexivity|].
    rewrite Forall_forall in Fm. apply in_map_iff in Hin.
    destruct Hin as (kv & Hk & Hkv). rewrite <- Hk. now apply Fm.
  - rewrite (map_set_keys_present _ _ _ Hin), mutate_first_keys. exact S.
Qed.

End MapFacts.

Section InvariantFacts.
Import MemStorage Statements.

Lemma keyed_nil {V : Type} (idOf : V -> nat) (next : nat) :
  keyed idOf (@nil (nat * V)) next.
Proof. split; constructor. Qed.

Lemma wf_createTopic (now : Date) (ins : InsertTopic) (st : t) :
  wf st -> wf (fst (createTopic now ins st)).
Proof.
  intros W. pose proof W as (T & P & R & C & S & A).
  pose proof (proj1 (keyed_create topic_id _ _
                (snd (createTopic now ins st)) T eq_refl)) as K.
  unfold wf; simpl in *. tauto.
Qed.

Lemma wf_createPrompt (now : Date) (ins : InsertPrompt) (st : t) :
  wf st -> wf (fst (createPrompt now ins st)).
Proof.
  intros W. pose proof W as (T & P & R & C & S & A).
  pose proof (proj1 (keyed_create prompt_id _ _
                (snd (createPrompt now ins st)) P eq_refl)) as K.
  unfold wf; simpl in *. tauto.
Qed.

Lemma wf_createResponse (now : Date) (ins : InsertResponse) (st : t) :
  wf st -> wf (fst (createResponse now ins st)).
Proof.
  intros W. pose proof W as (T & P & R & C & S & A).
  pose proof (proj1 (keyed_create response_id _ _
                (snd (createResponse now ins st)) R eq_refl)) as K.
  unfold wf; simpl in *. tauto.
Qed.

Lemma wf_createCompetitor (ins : InsertCompetitor) (st : t) :
  wf st -> wf (fst (createCompetitor ins st)).
Proof.
  intros W. pose proof W as (T & P & R & C & S & A).
  pose proof (proj1 (keyed_create competitor_id _ _
                (snd (createCompetitor ins st)) C eq_refl)) as K.
  unfold wf; simpl in *. tauto.
Qed.

Lemma wf_createSource (now : Date) (ins : InsertSource) (st : t) :
  wf st -> wf (fst (createSource now ins st)).
Proof.
  intros W. pose proof W as (T & P & R & C & S & A).
  pose proof (proj1 (keyed_create source_id _ _
                (snd (createSource now ins st)) S eq_refl)) as K.
  unfold wf; simpl in *. tauto.
Qed.

Lemma wf_createAnalytics (now : Date) (ins : InsertAnalytics) (st : t) :
  wf st -> wf (fst (createAnalytics now ins st)).
Proof.
  intros W. pose proof W as (T & P & R & C & S & A).
  pose proof (proj1 (keyed_create analytics_id _ _
                (snd (createAnalytics now ins st)) A eq_refl)) as K.
  unfold wf; simpl in *. tauto.
Qed.

Lemma wf_updateCompetitorMentionCount (now : Date) (name : string) (inc : Z)
    (st : t) :
  wf st -> wf (updateCompetitorMentionCount now name inc st).
Proof.
  intros W. pose proof W as (T & P & R & C & S & A).
  unfold updateCompetitorMentionCount, getCompetitorByName, getCompetitors.
  destruct (find _ (map_values (competitors st))) as [c|] eqn:F; [|exact W].
  destruct (mentionCount c) as [n|]; [|exact W].
  match goal with
  | |- wf (set_competitors _ (map_set _ ?w _) _) =>
      pose proof (keyed_update competitor_id _ _ _ c w C F eq_refl) as K
  end.
  unfold wf; simpl in *. tauto.
Qed.

Lemma wf_updateSourceCitationCount (now : Date) (d : string) (inc : Z)
    (st : t) :
  wf st -> wf (updateSourceCitationCount now d inc st).
Proof.
  intros W. pose proof W as (T & P & R & C & S & A).
  unfold updateSourceCitationCount, getSourceByDomain, getSources.
  destruct (find _ (map_values (sources st))) as [c|] eqn:F; [|exact W].
  destruct (citationCount c) as [n|]; [|exact W].
  match goal with
  | |- wf (set_sources _ (map_set _ ?w _) _) =>
      pose proof (keyed_update source_id _ _ _ c w S F eq_refl) as K
  end.
  unfold wf; simpl in *. tauto.
Qed.

Lemma wf_clearAll (st : t) :
  wf st ->
  wf (clearAllPrompts st) /\ wf (clearAllResponses st)
  /\ wf (clearAllCompetitors st).
Proof.
  intros (T & P & R & C & S & A).
  pose proof (keyed_nil prompt_id 1). pose proof (keyed_nil response_id 1).
  pose proof (keyed_nil competitor_id 1).
  unfold wf, clearAllPrompts, clearAllResponses, clearAllCompetitors; simpl.
  tauto.
Qed.

Lemma wf_empty : wf empty.
Proof. unfold wf, empty; simpl. repeat split; constructor. Qed.

(** X1.  The maps of the in-memory storage stay keyed by the identifiers of
    their records: the invariant holds at creation and every operation that
    writes keeps it: each record sits under its own identifier, the
    identifiers of a map are below its counter, and the records are stored
    in the order of their identifiers. *)
Theorem storage_invariant :
  wf empty
  /\ forall st, wf st ->
     (forall now ins, wf (fst (createTopic now ins st)))
     /\ (forall now ins, wf (fst (createPrompt now ins st)))
     /\ (forall now ins, wf (fst (createResponse now ins st)))
     /\ (forall ins, wf (fst (createCompetitor ins st)))
     /\ (forall now ins, wf (fst (createSource now ins st)))
     /\ (forall now ins, wf (fst (createAnalytics now ins st)))
     /\ (forall now name inc, wf (updateCompetitorMentionCount now name inc st))
     /\ (forall now d inc, wf (updateSourceCitationCount now d inc st))
     /\ wf (clearAllPrompts st)
     /\ wf (clearAllResponses st)
     /\ wf (clearAllCompetitors st).
Proof.
  split; [exact wf_empty|]. intros st W.
  repeat match goal with |- _ /\ _ => split end;
    intros;
    auto using wf_createTopic, wf_createPrompt, wf_createResponse,
      wf_createCompetitor, wf_createSource, wf_createAnalytics,
      wf_updateCompetitorMentionCount, wf_updateSourceCitationCount;
    apply wf_clearAll; exact W.
Qed.

End InvariantFacts.

Section LookupFacts.
Import MemStorage Statements.

(** X2.  A record that was just created is the one its identifier looks up,
    and the lookups of all other identifiers are what they were, for
    topics, prompts and responses alike. *)
Theorem create_then_get_by_id (now : Date) (st : t) :
  (forall ins,
      let r := createTopic now ins st in
      getTopicById (topic_id (snd r)) (fst r) = Some (snd r)
      /\ forall k, k <> topic_id (snd r) ->
           getTopicById k (fst r) = getTopicById k st)
  /\ (forall ins,
      let r := createPrompt now ins st in
      getPromptById (prompt_id (snd r)) (fst r) = Some (snd r)
      /\ forall k, k <> prompt_id (snd r) ->
           getPromptById k (fst r) = getPromptById k st)
  /\ (forall ins,
      let r := createResponse now ins st in
      getResponseById (response_id (snd r)) (fst r) = Some (snd r)
      /\ forall k, k <> response_id (snd r) ->
           getResponseById k (fst r) = getResponseById k st).
Proof.
  repeat split; simpl;
    try apply map_get_set_same; intros k N; now apply map_get_set_other.
Qed.

Lemma keyed_values_sorted {V : Type} (idOf : V -> nat) (m : JsMap V)
    (next : nat) :
  keyed idOf m next ->
  StronglySorted (fun a b => idOf a < idOf b) (map_values m).
Proof.
  intros [F S]. unfold map_values.
  induction m as [|[k v] m IH]; simpl; [constructor|].
  inversion F as [|? ? [F1 _] F2]; subst. inversion S as [|? ? S1 S2]; subst.
  simpl in *. constructor; [now apply IH|].
  rewrite Forall_forall in *. intros b Hb. apply in_map_iff in Hb.
  destruct Hb as ([k' v'] & <- & Hin). simpl.
  destruct (F2 _ Hin) as [E _]. simpl in E. rewrite <- E, <- F1.
  apply S2. apply in_map_iff. now exists (k', v').
Qed.

Lemma insert_sorted_last {A : Type} (before : A -> A -> bool) (x : A)
    (l : list A) :
  Forall (fun y => before x y = false) l ->
  insert_sorted before x l = l ++ [x].
Proof.
  induction 1 as [|y l Hy Hl IH]; simpl; [reflexivity|].
  now rewrite Hy, IH.
Qed.

(** Sorting a list that is in strictly increasing order of its key. *)
Lemma sort_increasing {A : Type} (key : A -> nat) (l : list A) :
  StronglySorted (fun a b => key a < key b) l ->
  sort (fun a b => key a <=? key b) l = l
  /\ sort (fun a b => key b <=? key a) l = rev l.
Proof.
  induction 1 as [|x l Hs [IH1 IH2] Hx]; [now split|].
  unfold sort in *. simpl. rewrite IH1, IH2. split.
  - destruct l as [|y l']; [reflexivity|]. simpl.
    inversion Hx as [|? ? Hy _]; subst.
    destruct (key x <=? key y) eqn:E; [reflexivity|].
    apply Nat.leb_gt in E. lia.
  - apply insert_sorted_last. apply Forall_rev.
    eapply Forall_impl; [|exact Hx]. simpl. intros y Hy.
    apply Nat.leb_gt. exact Hy.
Qed.

(** X3.  While the storage invariant holds, [getLatestPrompts] returns the
    prompts as stored, and [getLatestResponses] returns the responses of
    [getResponsesWithPrompts] in the opposite order, the newest first. *)
Theorem latest_orders (st : t) (W : wf st) :
  getLatestPrompts st = getPrompts st
  /\ getLatestResponses st = rev (getResponsesWithPrompts st).
Proof.
  destruct W as (_ & P & R & _). split.
  - unfold getLatestPrompts, getPrompts.
    apply (sort_increasing prompt_id), (keyed_values_sorted _ _ _ P).
  - unfold getLatestResponses, getResponsesWithPrompts.
    pose proof (proj2 (sort_increasing response_id _
                         (keyed_values_sorted _ _ _ R))) as E.
    rewrite E, map_rev.
    destruct (map_values (responses st)); reflexivity.
Qed.

End LookupFacts.

(** The invariant on a concrete storage. *)
Lemma latest_orders_witness :
  Statements.wf Examples.small_store
  /\ MemStorage.getLatestPrompts Examples.small_store
     = MemStorage.getPrompts Examples.small_store
  /\ MemStorage.getLatestResponses Examples.small_store
     = rev (MemStorage.getResponsesWithPrompts Examples.small_store).
Proof.
  assert (W : Statements.wf Examples.small_store).
  { unfold Statements.wf, Statements.keyed; simpl.
    repeat split; repeat constructor; simpl; lia. }
  split; [exact W | exact (latest_orders Examples.small_store W)].
Defined.

(** ** Sorting *)

Section SortFacts.
Import MemStorage Statements.
Context {A : Type}.
Variable before : A -> A -> bool.

Lemma insert_sorted_perm (x : A) (l : list A) :
  Permutation (insert_sorted before x l) (x :: l).
Proof.
  induction l as [|y l IH]; simpl; [reflexivity|].
  destruct (before x y); [reflexivity|].
  rewrite IH. apply perm_swap.
Qed.

Lemma sort_perm (l : list A) : Permutation (sort before l) l.
Proof.
  induction l as [|x l IH]; [reflexivity|].
  unfold sort in *. simpl. rewrite insert_sorted_perm. now constructor.
Qed.

Hypothesis before_total : forall a b, before a b = false -> before b a = true.
Hypothesis before_trans :
  forall a b c, before a b = true -> before b c = true -> before a c = true.

Lemma insert_sorted_sorted (x : A) (l : list A) :
  StronglySorted (fun a b => before a b = true) l ->
  StronglySorted (fun a b => before a b = true) (insert_sorted before x l).
Proof.
  induction 1 as [|y l Hs IH Hy]; simpl; [repeat constructor|].
  destruct (before x y) eqn:E.
  - constructor; [now constructor|]. constructor; [assumption|].
    eapply Forall_impl; [|exact Hy]. simpl. intros z Hz.
    now apply (before_trans x y z).
  - constructor; [assumption|].
    apply (Permutation_Forall (Permutation_sym (insert_sorted_perm x l))).
    constructor; [now apply before_total | assumption].
Qed.

Lemma sort_sorted (l : list A) :
  StronglySorted (fun a b => before a b = true) (sort before l).
Proof.
  induction l as [|x l IH]; [constructor|].
  unfold sort in *. simpl. now apply insert_sorted_sorted.
Qed.

End SortFacts.

Lemma firstn_incl {A : Type} (n : nat) (l : list A) (x : A) :
  In x (firstn n l) -> In x l.
Proof.
  revert n. induction l as [|y l IH]; intros [|n]; simpl; try tauto.
  intros [H|H]; [now left | right; now apply (IH n)].
Qed.

Lemma firstn_sorted {A : Type} (R : A -> A -> Prop) (n : nat) (l : list A) :
  StronglySorted R l -> StronglySorted R (firstn n l).
Proof.
  intros S. revert n. induction S as [|x l Hs IH Hx]; intros [|n]; simpl;
    try constructor; [apply IH|].
  rewrite Forall_forall in *. intros y Hy. apply Hx.
  now apply firstn_incl in Hy.
Qed.

Lemma sumZ_perm (l l' : list Z) :
  Permutation l l' -> Statements.sumZ l = Statements.sumZ l'.
Proof. induction 1; simpl; lia. Qed.

Lemma list_sum_perm (l l' : list nat) :
  Permutation l l' -> list_sum l = list_sum l'.
Proof. induction 1; simpl; lia. Qed.

Lemma sorted_impl {A : Type} (R R' : A -> A -> Prop) (l : list A) :
  (forall a b, R a b -> R' a b) ->
  StronglySorted R l -> StronglySorted R' l.
Proof.
  intros H. induction 1 as [|x l Hs IH Hx]; constructor; [assumption|].
  eapply Forall_impl; [|exact Hx]. apply H.
Qed.

(** ** The read-only queries of the in-memory storage *)

Section QueryFacts.
Import Text MemStorage Statements.

Lemma addSource_domains (s : Source) (m : list SourceAnalysis) (d : string) :
  In d (map sa_domain (addSource s m))
  <-> d = domain s \/ In d (map sa_domain m).
Proof.
  induction m as [|e m IH]; simpl; [intuition|].
  destruct (String.eqb (sa_domain e) (domain s)) eqn:E; simpl.
  - apply String.eqb_eq in E. rewrite <- E. intuition.
  - rewrite IH. intuition.
Qed.

Lemma addSource_NoDup (s : Source) (m : list SourceAnalysis) :
  NoDup (map sa_domain m) -> NoDup (map sa_domain (addSource s m)).
Proof.
  induction m as [|e m IH]; simpl; intros N.
  - constructor; [tauto | constructor].
  - inversion N as [|? ? N1 N2]; subst.
    destruct (String.eqb (sa_domain e) (domain s)) eqn:E; simpl.
    + now constructor.
    + constructor; [|now apply IH].
      rewrite addSource_domains. intros [H|H]; [|contradiction].
      apply String.eqb_neq in E. congruence.
Qed.

Lemma addSource_count (s : Source) (m : list SourceAnalysis) :
  sumZ (map sa_citationCount (addSource s m))
  = (sumZ (map sa_citationCount m) + citations s)%Z.
Proof.
  induction m as [|e m IH]; simpl; [lia|].
  destruct (String.eqb (sa_domain e) (domain s)); simpl; lia.
Qed.

Lemma addSource_urls (s : Source) (m : list SourceAnalysis) :
  list_sum (map (fun a => List.length (sa_urls a)) (addSource s m))
  = S (list_sum (map (fun a => List.length (sa_urls a)) m)).
Proof.
  induction m as [|e m IH]; simpl; [reflexivity|].
  destruct (String.eqb (sa_domain e) (domain s)); simpl.
  - rewrite length_app. simpl. lia.
  - rewrite IH. lia.
Qed.

Lemma groupSources_spec (l : list Source) (m : list SourceAnalysis) :
  NoDup (map sa_domain m) ->
  let r := fold_left (fun m source => addSource source m) l m in
  NoDup (map sa_domain r)
  /\ (forall d, In d (map sa_domain r)
                <-> In d (map domain l) \/ In d (map sa_domain m))
  /\ sumZ (map sa_citationCount r)
     = (sumZ (map sa_citationCount m) + sumZ (map citations l))%Z
  /\ list_sum (map (fun a => List.length (sa_urls a)) r)
     = list_sum (map (fun a => List.length (sa_urls a)) m) + List.length l.
Proof.
  revert m. induction l as [|s l IH]; intros m N; simpl.
  - repeat split; try assumption; try tauto; lia.
  - destruct (IH (addSource s m) (addSource_NoDup s m N)) as (H1 & H2 & H3 & H4).
    repeat split; try assumption.
    + intros H. apply H2 in H. rewrite addSource_domains in H. intuition.
    + intros H. apply H2. rewrite addSource_domains. intuition.
    + rewrite H3, addSource_count. lia.
    + rewrite H4, addSource_urls. lia.
Qed.

(** X4.  [getSourceAnalysis] has exactly one entry for every domain of the
    stored sources, the citation counts of the entries add up to the
    citations of the sources (a missing count is 0), every source gives
    one URL, and the entries come with the most cited first. *)
Theorem getSourceAnalysis_groups (st : t) :
  let r := getSourceAnalysis st in
  NoDup (map sa_domain r)
  /\ (forall d, In d (map sa_domain r) <-> In d (map domain (getSources st)))
  /\ sumZ (map sa_citationCount r) = sumZ (map citations (getSources st))
  /\ list_sum (map (fun a => List.length (sa_urls a)) r)
     = List.length (getSources st)
  /\ StronglySorted
       (fun a b => (sa_citationCount b <= sa_citationCount a)%Z) r.
Proof.
  unfold getSourceAnalysis. set (before := fun a b => _).
  destruct (groupSources_spec (getSources st) [] (NoDup_nil _))
    as (H1 & H2 & H3 & H4).
  fold (groupSources (getSources st)) in *.
  pose proof (sort_perm before (groupSources (getSources st))) as Pm.
  simpl. repeat split.
  - apply (Permutation_NoDup (Permutation_sym (Permutation_map sa_domain Pm))).
    exact H1.
  - intros H. apply (Permutation_in _ (Permutation_map sa_domain Pm)) in H.
    apply H2 in H. simpl in H. tauto.
  - intros H.
    apply (Permutation_in _ (Permutation_sym (Permutation_map sa_domain Pm))).
    apply H2. now left.
  - rewrite (sumZ_perm _ _ (Permutation_map sa_citationCount Pm)), H3.
    simpl. lia.
  - rewrite (list_sum_perm _ _ (Permutation_map _ Pm)), H4. reflexivity.
  - apply (sorted_impl (fun a b => before a b = true)).
    + intros a b H. apply Z.leb_le. exact H.
    + apply sort_sorted; unfold before.
      * intros a b H. apply Z.leb_gt in H. apply Z.leb_le. lia.
      * intros a b c H H'. apply Z.leb_le in H, H'. apply Z.leb_le. lia.
Qed.

(** X5.  Over the in-memory storage the overview reports the same number
    as [totalSources] and as [totalDomains]: the number of distinct
    domains among the stored sources. *)
Theorem overview_counts_domains (st : t) :
  let m := Analyzer.getOverviewMetrics st in
  Analyzer.om_totalSources m
  = List.length (dedupe (map domain (getSources st)))
  /\ Analyzer.om_totalDomains m = Analyzer.om_totalSources m.
Proof.
  unfold Analyzer.getOverviewMetrics, getSourceAnalysis. simpl.
  set (before := fun a b => _).
  destruct (groupSources_spec (getSources st) [] (NoDup_nil _))
    as (H1 & H2 & _).
  fold (groupSources (getSources st)) in *.
  pose proof (sort_perm before (groupSources (getSources st))) as Pm.
  pose proof (Permutation_map sa_domain Pm) as Pd.
  assert (N : NoDup (map sa_domain (sort before (groupSources (getSources st)))))
    by (apply (Permutation_NoDup (Permutation_sym Pd)); exact H1).
  split.
  - rewrite <- (length_map sa_domain).
    apply same_members_length; [assumption | apply dedupe_NoDup |].
    intros d. rewrite dedupe_In. split; intros H.
    + apply (Permutation_in _ Pd) in H. apply H2 in H. simpl in H. tauto.
    + apply (Permutation_in _ (Permutation_sym Pd)). apply H2. now left.
  - transitivity
      (List.length
         (map sa_domain (sort before (groupSources (getSources st)))));
      [|apply length_map].
    apply same_members_length; [apply dedupe_NoDup | assumption |].
    intros d. apply dedupe_In.
Qed.

(** X6.  [getLatestAnalytics] is undefined exactly when no analytics
    record is stored; otherwise it is a stored record and no stored record
    has a later date. *)
Theorem getLatestAnalytics_latest (st : t) :
  (getLatestAnalytics st = None <-> analytics st = [])
  /\ forall a, getLatestAnalytics st = Some a ->
       In a (map_values (analytics st))
       /\ Forall (fun b => date b <= date a) (map_values (analytics st)).
Proof.
  unfold getLatestAnalytics. set (before := fun a b => _).
  pose proof (sort_perm before (map_values (analytics st))) as Pm.
  assert (Ss : StronglySorted (fun a b => before a b = true)
                 (sort before (map_values (analytics st)))).
  { apply sort_sorted; unfold before.
    - intros a b H. apply Nat.leb_gt in H. apply Nat.leb_le. lia.
    - intros a b c H H'. apply Nat.leb_le in H, H'. apply Nat.leb_le. lia. }
  destruct (sort before (map_values (analytics st))) as [|x rest] eqn:E;
    simpl; split.
  - split; [intros _ | reflexivity].
    apply Permutation_nil in Pm. unfold map_values in Pm.
    now apply map_eq_nil in Pm.
  - discriminate.
  - split; [discriminate|]. intros H. rewrite H in Pm.
    apply Permutation_sym, Permutation_nil in Pm. discriminate.
  - intros a H. injection H as <-. split.
    + apply (Permutation_in _ Pm). now left.
    + apply (Permutation_Forall Pm). inversion Ss as [|? ? _ F]; subst.
      constructor; [lia|]. eapply Forall_impl; [|exact F].
      unfold before. intros b Hb. now apply Nat.leb_le in Hb.
Qed.

Lemma sorted_app_inv {A : Type} (R : A -> A -> Prop) (l1 l2 : list A) :
  StronglySorted R (l1 ++ l2) ->
  Forall (fun a => Forall (R a) l2) l1.
Proof.
  induction l1 as [|x l1 IH]; simpl; intros S; [constructor|].
  inversion S as [|? ? S1 S2]; subst. constructor; [|now apply IH].
  apply Forall_app in S2. tauto.
Qed.

(** X7.  [getRecentResponses(limit)] returns [limit] responses, or all of
    them when fewer are stored, with the newest first; the responses it
    leaves out are no newer than any it returns. *)
Theorem getRecentResponses_recent (limit : nat) (st : t) :
  let r := getRecentResponses limit st in
  List.length r = Nat.min limit (List.length (getResponses st))
  /\ StronglySorted
       (fun a b => response_createdAt (rwp_response b)
                   <= response_createdAt (rwp_response a)) r
  /\ exists rest,
       Permutation (r ++ rest) (getResponsesWithPrompts st)
       /\ Forall (fun kept =>
                    Forall (fun left =>
                              response_createdAt (rwp_response left)
                              <= response_createdAt (rwp_response kept))
                      rest) r.
Proof.
  unfold getRecentResponses. set (before := fun a b => _).
  set (all := getResponsesWithPrompts st).
  pose proof (sort_perm before all) as Pm.
  assert (Ss : StronglySorted
                 (fun a b => response_createdAt (rwp_response b)
                             <= response_createdAt (rwp_response a))
                 (sort before all)).
  { apply (sorted_impl (fun a b => before a b = true)).
    - intros a b H. apply Nat.leb_le. exact H.
    - apply sort_sorted; unfold before.
      + intros a b H. apply Nat.leb_gt in H. apply Nat.leb_le. lia.
      + intros a b c H H'. apply Nat.leb_le in H, H'. apply Nat.leb_le. lia. }
  simpl. split; [|split].
  - rewrite length_firstn, (Permutation_length Pm).
    unfold all, getResponsesWithPrompts, getResponses, map_values.
    now rewrite !length_map.
  - now apply firstn_sorted.
  - exists (skipn limit (sort before all)). rewrite firstn_skipn.
    split; [exact Pm|].
    apply sorted_app_inv. now rewrite firstn_skipn.
Qed.

Lemma filter_disjoint_count {A : Type} (p q : A -> bool) (l : list A) :
  (forall x, p x = true -> q x = true -> False) ->
  List.length (filter p l) + List.length (filter q l)
  = List.length (filter (fun x => p x || q x) l).
Proof.
  intros D. induction l as [|x l IH]; simpl; [reflexivity|].
  specialize (D x).
  destruct (p x), (q x); simpl; try lia; exfalso; now apply D.
Qed.

(** Counting the members of a list under each of several distinct keys
    counts no member twice. *)
Lemma count_by_key {A T : Type} (key : T -> nat) (q : nat -> A -> bool)
    (ts : list T) (rs : list A) :
  (forall i j r, q i r = true -> q j r = true -> i = j) ->
  NoDup (map key ts) ->
  list_sum (map (fun t => List.length (filter (q (key t)) rs)) ts)
  = List.length (filter (fun r => existsb (fun t => q (key t) r) ts) rs).
Proof.
  intros D. induction ts as [|t ts IH]; simpl; intros N.
  - induction rs as [|r rs IHr]; simpl; auto.
  - inversion N as [|? ? N1 N2]; subst. rewrite (IH N2).
    apply filter_disjoint_count. intros r H1 H2.
    apply existsb_exists in H2. destruct H2 as (t' & Hin & H2).
    apply N1. rewrite (D _ _ _ H1 H2). now apply in_map.
Qed.

Lemma keyed_NoDup {V : Type} (idOf : V -> nat) (m : JsMap V) (next : nat) :
  keyed idOf m next -> NoDup (map idOf (map_values m)).
Proof.
  intros K. pose proof (keyed_values_sorted _ _ _ K) as S.
  induction S as [|x l Hs IH Hx]; simpl; constructor; [|assumption].
  intros H. apply in_map_iff in H. destruct H as (y & E & Hy).
  rewrite Forall_forall in Hx. specialize (Hx y Hy). lia.
Qed.

(** X8.  [getTopicAnalysis] has one entry for each topic, in the order of
    the topics; an entry never has more brand mentions than prompts, and
    while the storage invariant holds no response is counted under two
    topics, so the prompt counts add up to at most the number of
    responses. *)
Theorem getTopicAnalysis_counts (st : t) (W : wf st) :
  let r := getTopicAnalysis st in
  map ta_topicId r = map topic_id (getTopics st)
  /\ Forall (fun a => ta_brandMentions a <= ta_totalPrompts a) r
  /\ list_sum (map ta_totalPrompts r) <= List.length (getResponses st).
Proof.
  unfold getTopicAnalysis. simpl. split; [|split].
  - rewrite map_map. reflexivity.
  - apply Forall_map, Forall_forall. intros t _. simpl. apply filter_length_le.
  - rewrite map_map. simpl.
    set (q := fun (i : nat) (r : ResponseWithPrompt) =>
                match rwp_prompt r with
                | Some p =>
                    match prompt_topicId p with
                    | Some j => j =? i
                    | None => false
                    end
                | None => false
                end).
    change (list_sum
              (map (fun t => List.length
                               (filter (q (topic_id t))
                                  (getResponsesWithPrompts st)))
                 (getTopics st))
            <= List.length (getResponses st)).
    rewrite (count_by_key topic_id q).
    + etransitivity; [apply filter_length_le|].
      unfold getResponsesWithPrompts, getResponses. now rewrite length_map.
    + unfold q. intros i j r.
      destruct (rwp_prompt r) as [p|]; [|discriminate].
      destruct (prompt_topicId p) as [k|]; [|discriminate].
      intros H1 H2. apply Nat.eqb_eq in H1, H2. congruence.
    + destruct W as (T & _). exact (keyed_NoDup _ _ _ T).
Qed.

Lemma getTopicAnalysis_witness :
  wf Examples.small_store
  /\ map ta_topicId (getTopicAnalysis Examples.small_store)
     = map topic_id (getTopics Examples.small_store)
  /\ Forall (fun a => ta_brandMentions a <= ta_totalPrompts a)
       (getTopicAnalysis Examples.small_store)
  /\ list_sum (map ta_totalPrompts (getTopicAnalysis Examples.small_store))
     <= List.length (getResponses Examples.small_store).
Proof.
  assert (W : wf Examples.small_store).
  { unfold wf, keyed; simpl. repeat split; repeat constructor; simpl; lia. }
  split; [exact W | exact (getTopicAnalysis_counts Examples.small_store W)].
Defined.

End QueryFacts.

(** ** Retries of the completion service *)

Section RetryFacts.
Import OpenAI.
Context {A E : Type}.
Variable apiCall : nat -> A + E.
Variable maxRetries : nat.

Lemma retryLoop_succeeds (k : nat) (value : A) :
  k <= maxRetries ->
  apiCall k = inl value ->
  forall d fuel attempt,
    attempt + d = k -> d < fuel ->
    (forall j, attempt <= j < k -> exists e, apiCall j = inr e) ->
    retryLoop apiCall maxRetries fuel attempt
    = (Resolved value, map (fun j => 2 ^ j * 1000) (seq attempt d)).
Proof.
  intros Hk Hv. induction d as [|d IH]; intros fuel attempt Hd Hf Hfail.
  - destruct fuel as [|fuel]; [lia|]. simpl.
    replace attempt with k by lia.
    destruct (k <=? maxRetries) eqn:L; [|apply Nat.leb_gt in L; lia].
    now rewrite Hv.
  - destruct fuel as [|fuel]; [lia|]. simpl.
    destruct (attempt <=? maxRetries) eqn:L; [|apply Nat.leb_gt in L; lia].
    destruct (Hfail attempt) as (e & He); [lia|]. rewrite He.
    destruct (attempt =? maxRetries) eqn:M; [apply Nat.eqb_eq in M; lia|].
    rewrite (IH fuel (attempt + 1)); [|lia|lia|intros j Hj; apply Hfail; lia].
    now rewrite Nat.add_1_r.
Qed.

Lemma retryLoop_gives_up (err : nat -> E) :
  (forall j, 1 <= j <= maxRetries -> apiCall j = inr (err j)) ->
  forall d fuel attempt,
    1 <= attempt -> attempt + d = maxRetries -> d < fuel ->
    retryLoop apiCall maxRetries fuel attempt
    = (Rejected (err maxRetries), map (fun j => 2 ^ j * 1000) (seq attempt d)).
Proof.
  intros Hfail. induction d as [|d IH]; intros fuel attempt H1 Hd Hf.
  - destruct fuel as [|fuel]; [lia|]. simpl.
    replace attempt with maxRetries by lia.
    rewrite Nat.leb_refl, Hfail, Nat.eqb_refl; [reflexivity | lia].
  - destruct fuel as [|fuel]; [lia|]. simpl.
    destruct (attempt <=? maxRetries) eqn:L; [|apply Nat.leb_gt in L; lia].
    rewrite Hfail by lia.
    destruct (attempt =? maxRetries) eqn:M; [apply Nat.eqb_eq in M; lia|].
    rewrite (IH fuel (attempt + 1)) by lia.
    now rewrite Nat.add_1_r.
Qed.

(** X9.  When the attempts before the [k]-th fail and the [k]-th succeeds,
    with [k] within the allowed number, [callOpenAIWithRetry] resolves with
    the value of that attempt after waiting 2 s, 4 s, ..., doubling after
    each failure: [2^j] seconds after attempt [j]. *)
Theorem retry_returns_first_success (k : nat) (value : A)
    (Hk : 1 <= k <= maxRetries)
    (Hfail : forall j, 1 <= j < k -> exists e, apiCall j = inr e)
    (Hok : apiCall k = inl value) :
  callOpenAIWithRetry apiCall maxRetries
  = (Resolved value, map (fun j => 2 ^ j * 1000) (seq 1 (k - 1))).
Proof.
  unfold callOpenAIWithRetry.
  apply (retryLoop_succeeds k value); try assumption; lia.
Qed.

(** X10.  When every attempt fails, [callOpenAIWithRetry] makes
    [maxRetries] attempts, rejects with the error of the last one and has
    waited after every attempt but the last: with the default of three
    attempts it waits 2 s and 4 s, and never 8 s. *)
Theorem retry_rejects_with_last_error (err : nat -> E)
    (Hn : 1 <= maxRetries)
    (Hfail : forall j, 1 <= j <= maxRetries -> apiCall j = inr (err j)) :
  callOpenAIWithRetry apiCall maxRetries
  = (Rejected (err maxRetries),
     map (fun j => 2 ^ j * 1000) (seq 1 (maxRetries - 1))).
Proof.
  unfold callOpenAIWithRetry.
  apply (retryLoop_gives_up err); try assumption; lia.
Qed.

End RetryFacts.

Lemma retry_returns_first_success_witness :
  OpenAI.callOpenAIWithRetry
    (fun n => if n =? 2 then inl "ok" else inr "timeout") 3
  = (OpenAI.Resolved "ok", [2000]).
Proof.
  apply (retry_returns_first_success
           (fun n => if n =? 2 then inl "ok" else inr "timeout") 3 2 "ok").
  - lia.
  - intros j Hj. exists "timeout". replace j with 1 by lia. reflexivity.
  - reflexivity.
Defined.

Lemma retry_rejects_with_last_error_witness :
  OpenAI.callOpenAIWithRetry (A := string) (fun n => inr n) 3
  = (OpenAI.Rejected 3, [2000; 4000]).
Proof.
  apply (retry_rejects_with_last_error (A := string)
           (fun n => inr n) 3 (fun n => n)).
  - lia.
  - reflexivity.
Defined.

(** ** Competitor names extracted from a reply *)

Section CompetitorFacts.
Import Text OpenAI Statements.

Lemma apart_unrelated (a b : string) : apart a b -> unrelated a b.
Proof.
  unfold apart, unrelated, calculateCompetitorSimilarity.
  destruct (String.eqb (toLowerCase b) (toLowerCase a)) eqn:E;
    [vm_compute; discriminate|].
  destruct (includes (toLowerCase b) (toLowerCase a)) eqn:I1;
    [vm_compute; discriminate|].
  destruct (includes (toLowerCase a) (toLowerCase b)) eqn:I2;
    [vm_compute; discriminate|].
  intros _. apply String.eqb_neq in E. repeat split; congruence.
Qed.

Lemma pairs_snoc_apart (R : string -> string -> Prop) (l : list string)
    (x : string) :
  ForallOrdPairs R l -> Forall (fun e => R e x) l ->
  ForallOrdPairs R (l ++ [x]).
Proof.
  induction 1 as [|e l He Hl IH]; intros F; simpl.
  - repeat constructor.
  - inversion F as [|? ? F1 F2]; subst. constructor; [|now apply IH].
    apply Forall_app. split; [assumption | now repeat constructor].
Qed.

Lemma diverseLoop_spec (competitors acc : list string) :
  List.length acc <= 10 -> ForallOrdPairs apart acc ->
  let r := diverseLoop competitors acc in
  List.length r <= 10
  /\ (forall x, In x r -> In x acc \/ In x competitors)
  /\ ForallOrdPairs apart r.
Proof.
  revert acc.
  induction competitors as [|c rest IH]; intros acc L P; cbn [diverseLoop].
  - split; [exact L|]. split; [intros x Hx; now left | exact P].
  - destruct (10 <=? List.length acc) eqn:T.
    { split; [exact L|]. split; [intros x Hx; now left | exact P]. }
    apply Nat.leb_gt in T.
    destruct (forallb _ acc) eqn:D.
    + destruct (IH (acc ++ [c])) as (H1 & H2 & H3).
      * rewrite length_app. simpl. lia.
      * apply pairs_snoc_apart; [assumption|].
        rewrite forallb_forall in D. apply Forall_forall. exact D.
      * split; [exact H1|]. split; [|exact H3].
        intros x Hx. destruct (H2 x Hx) as [H|H]; [|right; now right].
        apply in_app_iff in H. simpl in H.
        destruct H as [H|[H|[]]]; [now left | right; now left].
    + destruct (IH acc L P) as (H1 & H2 & H3).
      split; [exact H1|]. split; [|exact H3].
      intros x Hx. destruct (H2 x Hx); [now left | right; now right].
Qed.

(** X11.  [extractCompetitorsFromText] returns at most ten names, each a
    string item of the array the service replied with (none at all when
    the reply is no array or the call fails), and no two of them are
    equal when case is ignored or contain one another. *)
Theorem extractCompetitors_bounds (reply : ExtractReply) :
  let r := extractCompetitorsFromText reply in
  List.length r <= 10
  /\ (forall name, In name r ->
        exists items, reply = ReplyArray items /\ In (Some name) items)
  /\ ForallOrdPairs unrelated r.
Proof.
  destruct reply as [| |items]; simpl;
    try (repeat split; [lia | tauto | constructor]).
  destruct (diverseLoop_spec
              (flat_map (fun item => match item with
                                     | Some s => [s]
                                     | None => []
                                     end) items) [])
    as (H1 & H2 & H3); [simpl; lia | constructor |].
  repeat split; try assumption.
  - intros name Hn. exists items. split; [reflexivity|].
    destruct (H2 name Hn) as [[]|H]. apply in_flat_map in H.
    destruct H as ([s|] & Hin & Hs); simpl in Hs; [|contradiction].
    destruct Hs as [<-|[]]. exact Hin.
  - clear H1 H2. induction H3 as [|e l He Hl IH]; constructor; [|assumption].
    eapply Forall_impl; [|exact He]. apply apart_unrelated.
Qed.

End CompetitorFacts.

(** ** The prompt generator with the diversity filter: sizes *)

Section FilterSizeFacts.
Import Text DiversityFilter.

(** X12.  Whether two prompts are diverse does not depend on which of them
    is the candidate and which the accepted prompt. *)
Theorem isDiverse_pair_symmetric (a b : string) (threshold : Num.number) :
  isDiverse a [b] threshold = isDiverse b [a] threshold.
Proof.
  unfold isDiverse. simpl. now rewrite (similarity_sym a b).
Qed.

Variable completion : nat -> option string.
Variable topicName : string.
Variable competitors : list string.
Variable promptsPerTopic : nat.
Variable diversityThreshold : Num.number.

Lemma fallbackLoop_length (fs prompts : list string) :
  let r := fallbackLoop promptsPerTopic diversityThreshold fs prompts in
  List.length prompts <= List.length r
  /\ List.length r <= List.length prompts + List.length fs.
Proof.
  revert prompts. induction fs as [|f fs IH]; intros prompts; simpl; [lia|].
  destruct (promptsPerTopic <=? List.length prompts); [lia|].
  destruct (isDiverse f prompts diversityThreshold).
  - specialize (IH (prompts ++ [f])). simpl in IH.
    rewrite length_app in IH. simpl in IH. lia.
  - specialize (IH prompts). simpl in IH. lia.
Qed.

Lemma fallbackLoop_cons_nonempty (f : string) (fs prompts : list string) :
  List.length prompts < promptsPerTopic ->
  0 < List.length
        (fallbackLoop promptsPerTopic diversityThreshold (f :: fs) prompts).
Proof.
  intros L. cbn [fallbackLoop].
  destruct (promptsPerTopic <=? List.length prompts) eqn:E;
    [apply Nat.leb_le in E; lia|].
  destruct prompts as [|p prompts].
  - change (isDiverse f [] diversityThreshold) with true. cbv iota.
    pose proof (proj1 (fallbackLoop_length fs ([] ++ [f]))) as H.
    simpl in H. simpl. lia.
  - destruct (isDiverse f (p :: prompts) diversityThreshold).
    + pose proof (proj1 (fallbackLoop_length fs ((p :: prompts) ++ [f]))) as H.
      cbv zeta in H. rewrite length_app in H. cbn [List.length] in H. lia.
    + pose proof (proj1 (fallbackLoop_length fs (p :: prompts))) as H.
      cbv zeta in H. cbn [List.length] in H. lia.
Qed.

Lemma fallbackLoop_nonempty (prompts : list string) :
  List.length prompts < promptsPerTopic ->
  0 < List.length
        (fallbackLoop promptsPerTopic diversityThreshold
           (generateFallbackPrompts topicName competitors) prompts).
Proof.
  unfold generateFallbackPrompts. cbn [seq map].
  apply fallbackLoop_cons_nonempty.
Qed.

(** X13.  The last-resort prompt of [generateDiversePrompts] is never
    added: whenever the fallback prompts are consulted, the first of them
    that is tried on an empty list is accepted, so the list is not empty
    afterwards. *)
Theorem last_resort_prompt_is_dead (prompts : list string) :
  fillWithFallbacks topicName competitors promptsPerTopic diversityThreshold
    prompts
  = if List.length prompts <? promptsPerTopic
    then fallbackLoop promptsPerTopic diversityThreshold
           (generateFallbackPrompts topicName competitors) prompts
    else prompts.
Proof.
  unfold fillWithFallbacks.
  destruct (List.length prompts <? promptsPerTopic) eqn:E; [|reflexivity].
  apply Nat.ltb_lt in E. pose proof (fallbackLoop_nonempty prompts E) as H.
  destruct (fallbackLoop _ _ _ prompts); [simpl in H; lia | reflexivity].
Qed.

Lemma fillWithFallbacks_size (prompts : list string) :
  let r := fillWithFallbacks topicName competitors promptsPerTopic
             diversityThreshold prompts in
  Nat.min 1 promptsPerTopic <= List.length r
  /\ List.length r <= List.length prompts + 5.
Proof.
  unfold fillWithFallbacks. cbv zeta.
  destruct (List.length prompts <? promptsPerTopic) eqn:E.
  - apply Nat.ltb_lt in E. pose proof (fallbackLoop_nonempty prompts E) as H.
    pose proof (proj2 (fallbackLoop_length
                         (generateFallbackPrompts topicName competitors)
                         prompts)) as H'.
    cbv zeta in H'.
    change (List.length (generateFallbackPrompts topicName competitors))
      with 5 in H'.
    destruct (fallbackLoop _ _ _ prompts) as [|x l].
    + cbn [List.length] in H. lia.
    + change (List.length (x :: l) =? 0) with false. cbv iota. lia.
  - apply Nat.ltb_ge in E. lia.
Qed.

(** X14.  [generateDiversePrompts] never returns more prompts than asked
    for, and returns at least one when at least one is asked for. *)
Theorem generateDiversePrompts_size :
  let r := generateDiversePrompts completion topicName competitors
             promptsPerTopic diversityThreshold in
  List.length r <= promptsPerTopic
  /\ Nat.min 1 promptsPerTopic <= List.length r.
Proof.
  unfold generateDiversePrompts. cbv zeta. rewrite length_firstn.
  split; [lia|].
  match goal with
  | |- context [fillWithFallbacks _ _ _ _ ?got] =>
      pose proof (proj1 (fillWithFallbacks_size got)) as H
  end.
  cbv zeta in H. lia.
Qed.

Lemma attemptLoop_silent (fuel attempts : nat) (prompts : list string) :
  (forall n, completion n = None) ->
  attemptLoop completion promptsPerTopic diversityThreshold fuel attempts
    prompts = prompts.
Proof.
  intros H. revert attempts. induction fuel as [|fuel IH]; intros attempts;
    simpl; [reflexivity|].
  destruct (_ && _); [|reflexivity]. now rewrite H, IH.
Qed.

(** X15.  When no completion call succeeds, [generateDiversePrompts]
    returns at most five prompts, however many are asked for. *)
Theorem generateDiversePrompts_offline
    (Hdown : forall n, completion n = None) :
  List.length (generateDiversePrompts completion topicName competitors
                 promptsPerTopic diversityThreshold)
  <= Nat.min 5 promptsPerTopic.
Proof.
  unfold generateDiversePrompts.
  rewrite (attemptLoop_silent _ _ _ Hdown), length_firstn.
  pose proof (proj2 (fillWithFallbacks_size [])) as H.
  cbv zeta in H. cbn [List.length] in H. lia.
Qed.

End FilterSizeFacts.

Lemma generateDiversePrompts_offline_witness :
  List.length
    (DiversityFilter.generateDiversePrompts (fun _ => None) "hosting"
       ["Acme"] 10 (Num.of_nat 50))
  <= Nat.min 5 10.
Proof.
  apply (generateDiversePrompts_offline (fun _ => None) "hosting" ["Acme"]
           10 (Num.of_nat 50)).
  reflexivity.
Defined.

(** ** The storage invariant along every schedule of the analyzer *)

Section SystemInvariantFacts.
Import MemStorage Analyzer Statements.

Lemma fold_wf {A : Type} (f : t -> A -> t) (xs : list A) (st : t) :
  (forall s x, wf s -> wf (f s x)) -> wf st -> wf (fold_left f xs st).
Proof.
  intros H. revert st. induction xs as [|x xs IH]; intros st W; simpl;
    [assumption|]. apply IH. now apply H.
Qed.

Lemma wf_processCompetitor (env : Environment) (now : Date) (st : t)
    (name : string) :
  wf st -> wf (processCompetitor env now st name).
Proof.
  intros W. unfold processCompetitor.
  apply wf_updateCompetitorMentionCount.
  destruct (getCompetitorByName name st); [assumption|].
  now apply wf_createCompetitor.
Qed.

Lemma wf_processDomain (now : Date) (st : t) (entry : string * list string) :
  wf st -> wf (processDomain now st entry).
Proof.
  intros W. destruct entry as [d urls]. unfold processDomain.
  apply wf_updateSourceCitationCount.
  destruct (getSourceByDomain d st); [assumption|].
  now apply wf_createSource.
Qed.

Lemma wf_processPrompt (env : Environment) (now : Date) (i : nat)
    (pd : InsertPrompt) (prompt : Prompt) (st : t) :
  wf st -> wf (processPrompt env now i pd prompt st).
Proof.
  intros W. unfold processPrompt. apply wf_createResponse.
  apply fold_wf; [intros; now apply wf_processDomain|].
  apply fold_wf; [intros; now apply wf_processCompetitor | assumption].
Qed.

Lemma wf_generateAnalytics (now : Date) (st : t) :
  wf st -> wf (fst (generateAnalytics now st)).
Proof. intros W. unfold generateAnalytics. now apply wf_createAnalytics. Qed.

Lemma wf_clearData (st : t) : wf st -> wf (clearData st).
Proof.
  intros W. unfold clearData.
  apply wf_clearAll, wf_clearAll, wf_clearAll, W.
Qed.

Lemma wf_addTopicPrompts (env : Environment) (now : Date) (args : RunArgs)
    (acc : t * list InsertPrompt) (topic : InsertTopic) :
  wf (fst acc) -> wf (fst (addTopicPrompts env now args acc topic)).
Proof.
  destruct acc as [st allPrompts]. simpl. intros W. unfold addTopicPrompts.
  destruct (find _ (getTopics st)) as [found|]; [exact W|].
  pose proof (wf_createTopic now topic st W) as W'.
  destruct (createTopic now topic st) as [st' rec]. exact W'.
Qed.

Lemma wf_sourcePrompts (env : Environment) (now : Date) (args : RunArgs)
    (g : Globals) :
  wf (storage g) -> wf (storage (fst (sourcePrompts env now args g))).
Proof.
  intros W. unfold sourcePrompts.
  destruct (savedGiven args) as [saved|].
  - simpl. now apply wf_clearData, wf_clearData.
  - destruct (useExistingPrompts args); [exact W|].
    match goal with
    | |- context [fold_left ?f ?l ?a] =>
        assert (Wf : wf (fst (fold_left f l a)))
    end.
    { generalize generatedTopics. intros topics.
      match goal with
      | |- wf (fst (fold_left _ _ ?a)) =>
          assert (Wa : wf (fst a)) by exact W; revert Wa; generalize a
      end.
      induction topics as [|x xs IH]; intros a Wa; simpl; [assumption|].
      apply IH. now apply wf_addTopicPrompts. }
    destruct (fold_left _ _ _) as [st all]. exact Wf.
Qed.

Lemma enter_storage (now : Date) (args : RunArgs) (g : Globals) :
  storage (fst (enter now args g)) = storage g.
Proof.
  unfold enter. destruct (isAnalysisRunning g); [reflexivity|].
  destruct (settings args); [reflexivity|].
  destruct (savedGiven args); reflexivity.
Qed.

Lemma wf_stepRun (g : Globals) (r : Run) :
  wf (storage g) -> wf (storage (fst (stepRun g r))).
Proof.
  intros W. unfold stepRun. destruct (pc r) as [|all i c|all i c prompt|o].
  - pose proof (wf_sourcePrompts (env r) (now (env r) (steps r)) (args r) g W)
      as W'.
    destruct (sourcePrompts _ _ _ g) as [g' all]. exact W'.
  - destruct (nth_error all i) as [pd|].
    + destruct (isAnalysisRunning g); simpl; [|exact W].
      now apply wf_createPrompt.
    + simpl. now apply wf_generateAnalytics.
  - destruct (nth_error all i) as [pd|]; [|exact W].
    simpl. now apply wf_processPrompt.
  - exact W.
Qed.

Lemma wf_react (sys : System) (ev : Event) :
  wf (storage (globals sys)) -> wf (storage (globals (react sys ev))).
Proof.
  intros W. destruct ev as [this args env|rid|]; simpl.
  - pose proof (enter_storage (now env 0) args (globals sys)) as E.
    destruct (enter _ args (globals sys)) as [g started]. simpl in *.
    now rewrite E.
  - destruct (nth_error (runs sys) rid) as [r|]; [|exact W].
    pose proof (wf_stepRun (globals sys) r W) as W'.
    destruct (stepRun (globals sys) r) as [g r']. exact W'.
  - exact W.
Qed.

(** X16.  From a storage that satisfies the invariant, every schedule of
    calls of [runFullAnalysis], of steps of the runs and of cancel
    requests leaves a storage that satisfies it: records sit under their
    identifiers and in the order in which they were created. *)
Theorem analyzer_keeps_storage_invariant (t0 : Date) (st0 : t)
    (evs : list Event) (W : wf st0) :
  wf (storage (globals (exec (boot t0 st0) evs))).
Proof.
  unfold exec.
  assert (W0 : wf (storage (globals (boot t0 st0)))) by exact W.
  revert W0. generalize (boot t0 st0). clear W.
  induction evs as [|ev evs IH]; intros sys W0; simpl; [assumption|].
  apply IH. now apply wf_react.
Qed.

End SystemInvariantFacts.

Lemma analyzer_keeps_storage_invariant_witness :
  Statements.wf MemStorage.empty
  /\ Statements.wf
       (Analyzer.storage
          (Analyzer.globals
             (Analyzer.exec (Analyzer.boot 0 MemStorage.empty)
                (Analyzer.Call Examples.me Examples.two_saved Examples.env_ok
                 :: repeat (Analyzer.Resume 0) 6)))).
Proof.
  assert (W : Statements.wf MemStorage.empty).
  { unfold Statements.wf, Statements.keyed; simpl. repeat split; constructor. }
  split; [exact W|].
  apply (analyzer_keeps_storage_invariant 0 MemStorage.empty). exact W.
Defined.

(** ** Prompts and responses of an undisturbed run *)

Section LinkFacts.
Import MemStorage Analyzer Statements.

(** The competitor and source rounds do not touch the prompts. *)
Lemma processCompetitor_prompts (env : Environment) (now : Date) (st : t)
    (name : string) :
  prompts (processCompetitor env now st name) = prompts st
  /\ currentPromptId (processCompetitor env now st name) = currentPromptId st.
Proof.
  unfold processCompetitor, updateCompetitorMentionCount.
  repeat match goal with
         | |- context [match ?x with _ => _ end] => destruct x
         end; split; reflexivity.
Qed.

Lemma processDomain_prompts (now : Date) (st : t)
    (entry : string * list string) :
  prompts (processDomain now st entry) = prompts st
  /\ currentPromptId (processDomain now st entry) = currentPromptId st.
Proof.
  destruct entry as [d urls].
  unfold processDomain, updateSourceCitationCount.
  repeat match goal with
         | |- context [match ?x with _ => _ end] => destruct x
         end; split; reflexivity.
Qed.

Lemma fold_prompts {A : Type} (f : t -> A -> t) (xs : list A) (st : t) :
  (forall s x, prompts (f s x) = prompts s
               /\ currentPromptId (f s x) = currentPromptId s) ->
  prompts (fold_left f xs st) = prompts st
  /\ currentPromptId (fold_left f xs st) = currentPromptId st.
Proof.
  intros H. revert st. induction xs as [|x xs IH]; intros st; simpl.
  - split; reflexivity.
  - destruct (IH (f st x)) as [E1 E2]. destruct (H st x) as [F1 F2].
    split; congruence.
Qed.

Lemma processPrompt_prompts (env : Environment) (now : Date) (i : nat)
    (pd : InsertPrompt) (prompt : Prompt) (st : t) :
  prompts (processPrompt env now i pd prompt st) = prompts st
  /\ currentPromptId (processPrompt env now i pd prompt st)
     = currentPromptId st.
Proof.
  unfold processPrompt.
  set (a := analysisFor env i (ip_text pd)).
  set (st1 := fold_left (processCompetitor env now) (OpenAI.competitors a) st).
  set (st2 := fold_left (processDomain now) _ st1).
  assert (E1 : prompts st1 = prompts st
               /\ currentPromptId st1 = currentPromptId st)
    by (apply fold_prompts; intros; apply processCompetitor_prompts).
  assert (E2 : prompts st2 = prompts st1
               /\ currentPromptId st2 = currentPromptId st1)
    by (apply fold_prompts; intros; apply processDomain_prompts).
  destruct E1 as [E1 E1']. destruct E2 as [E2 E2'].
  unfold createResponse.
  cbn [fst prompts set_responses currentPromptId].
  split; congruence.
Qed.

Lemma wf_responses_fresh (st : t) : wf st -> responses_fresh st.
Proof.
  intros (_ & _ & (F & _) & _). unfold responses_fresh, fresh_keys.
  eapply Forall_impl; [|exact F]. simpl. tauto.
Qed.

(** The top of an iteration: the prompt is stored under the next
    identifier, with the text and the topic of the list entry. *)
Lemma top_linked (g : Globals) (r : Run) all i c pd :
  pc r = LoopTop all i c -> nth_error all i = Some pd ->
  isAnalysisRunning g = true -> wf (storage g) ->
  exists prompt,
    pc (snd (stepRun g r)) = InBody all i c prompt
    /\ env (snd (stepRun g r)) = env r
    /\ isAnalysisRunning (fst (stepRun g r)) = true
    /\ currentProgress (fst (stepRun g r)) = currentProgress g
    /\ getPrompts (storage (fst (stepRun g r)))
       = getPrompts (storage g) ++ [prompt]
    /\ currentPromptId (storage (fst (stepRun g r)))
       = currentPromptId (storage g) + 1
    /\ responses (storage (fst (stepRun g r))) = responses (storage g)
    /\ prompt_id prompt = currentPromptId (storage g)
    /\ prompt_text prompt = ip_text pd
    /\ prompt_topicId prompt = ip_topicId pd.
Proof.
  intros Hpc Hn Hf (_ & P & _). unfold stepRun. rewrite Hpc, Hn, Hf.
  cbn [negb].
  eexists. cbn [createPrompt fst snd pc env at_pc isAnalysisRunning
                set_storage storage currentProgress].
  split; [reflexivity|]. split; [reflexivity|]. split; [assumption|].
  split; [reflexivity|]. split.
  - unfold getPrompts, map_values. cbn [prompts set_prompts prompt_id].
    match goal with
    | |- context [map_set _ ?v _] =>
        rewrite (proj2 (keyed_create prompt_id _ _ v P eq_refl))
    end.
    rewrite map_app. reflexivity.
  - repeat split; reflexivity.
Qed.

(** The body of an iteration: one response, linked to the prompt stored
    at the top of the iteration. *)
Lemma body_linked (g : Globals) (r : Run) all i c prompt pd :
  pc r = InBody all i c prompt -> nth_error all i = Some pd ->
  wf (storage g) ->
  exists resp,
    pc (snd (stepRun g r)) = LoopTop all (i + 1) (c + 1)
    /\ env (snd (stepRun g r)) = env r
    /\ isAnalysisRunning (fst (stepRun g r)) = isAnalysisRunning g
    /\ completedPrompts (currentProgress (fst (stepRun g r))) = Some (c + 1)
    /\ totalPrompts (currentProgress (fst (stepRun g r)))
       = Some (List.length all)
    /\ prompts (storage (fst (stepRun g r))) = prompts (storage g)
    /\ currentPromptId (storage (fst (stepRun g r)))
       = currentPromptId (storage g)
    /\ getResponses (storage (fst (stepRun g r)))
       = getResponses (storage g) ++ [resp]
    /\ promptId resp = prompt_id prompt.
Proof.
  intros Hpc Hn W. unfold stepRun. rewrite Hpc, Hn.
  destruct (processPrompt_responses (env r) (now (env r) (steps r)) i pd
              prompt (storage g) (wf_responses_fresh _ W))
    as (resp & E & _ & L & _).
  destruct (processPrompt_prompts (env r) (now (env r) (steps r)) i pd
              prompt (storage g)) as [P1 P2].
  exists resp.
  cbn [fst snd pc env at_pc isAnalysisRunning set_storage storage
       updateProgress set_progress currentProgress completedPrompts
       totalPrompts iterationProgress u_completedPrompts u_totalPrompts].
  repeat split; try reflexivity; try assumption.
  unfold getResponses, map_values. rewrite E, map_app. reflexivity.
Qed.

Lemma skipn_nth {A : Type} (l : list A) (i : nat) (x : A) :
  nth_error l i = Some x -> skipn i l = x :: skipn (i + 1) l.
Proof.
  revert l. induction i as [|i IH]; intros [|y l] H; simpl in *;
    try discriminate.
  - now injection H as ->.
  - now apply IH.
Qed.

(** [k] iterations from the top of iteration [i], with the flag set
    throughout: [k] prompts and [k] responses more, the [j]-th response
    linked to the [j]-th prompt. *)
Lemma iterations_linked (k : nat) :
  forall (g : Globals) (r : Run) all i c,
    pc r = LoopTop all i c -> i + k <= List.length all ->
    isAnalysisRunning g = true -> wf (storage g) ->
    completedPrompts (currentProgress g) = Some c ->
    totalPrompts (currentProgress g) = Some (List.length all) ->
    exists g' r' ps rs,
      exec (solo g r) (repeat (Resume 0) (2 * k)) = solo g' r'
      /\ pc r' = LoopTop all (i + k) (c + k)
      /\ env r' = env r
      /\ isAnalysisRunning g' = true
      /\ wf (storage g')
      /\ completedPrompts (currentProgress g') = Some (c + k)
      /\ totalPrompts (currentProgress g') = Some (List.length all)
      /\ getPrompts (storage g') = getPrompts (storage g) ++ ps
      /\ getResponses (storage g') = getResponses (storage g) ++ rs
      /\ map promptId rs = map prompt_id ps
      /\ map prompt_id ps = seq (currentPromptId (storage g)) k
      /\ map prompt_text ps = map ip_text (firstn k (skipn i all))
      /\ map prompt_topicId ps = map ip_topicId (firstn k (skipn i all)).
Proof.
  induction k as [|k IH]; intros g r all i c Hpc Hk Hf W Hc Ht.
  - exists g, r, [], []. rewrite !Nat.add_0_r, !app_nil_r.
    repeat match goal with |- _ /\ _ => split end;
      try assumption; reflexivity.
  - destruct (nth_error all i) as [pd|] eqn:Hn;
      [|apply nth_error_None in Hn; lia].
    replace (2 * S k) with (S (S (2 * k))) by lia.
    cbn [repeat]. unfold exec. cbn [fold_left].
    rewrite resume_solo.
    destruct (top_linked g r all i c pd Hpc Hn Hf W)
      as (prompt & T1 & T2 & T3 & T4 & T5 & T6 & T7 & T8 & T9 & T10).
    pose proof (wf_stepRun g r W) as W1.
    set (g1 := fst (stepRun g r)) in *. set (r1 := snd (stepRun g r)) in *.
    rewrite resume_solo.
    destruct (body_linked g1 r1 all i c prompt pd T1 Hn W1)
      as (resp & B1 & B2 & B3 & B4 & B5 & B6 & B7 & B8 & B9).
    pose proof (wf_stepRun g1 r1 W1) as W2.
    set (g2 := fst (stepRun g1 r1)) in *.
    set (r2 := snd (stepRun g1 r1)) in *.
    assert (Hf2 : isAnalysisRunning g2 = true) by congruence.
    destruct (IH g2 r2 all (i + 1) (c + 1) B1 ltac:(lia) Hf2 W2 B4 B5)
      as (g' & r' & ps & rs & I1 & I2 & I3 & I4 & I5 & I6 & I7 & I8 & I9
          & I10 & I11 & I12 & I13).
    exists g', r', (prompt :: ps), (resp :: rs).
    split; [exact I1|].
    split; [rewrite I2; f_equal; lia|].
    split; [congruence|]. split; [assumption|]. split; [assumption|].
    split; [rewrite I6; f_equal; lia|]. split; [assumption|].
    split.
    { rewrite I8. unfold getPrompts in *. rewrite B6.
      fold (getPrompts (storage g1)). unfold getPrompts. rewrite T5.
      now rewrite <- app_assoc. }
    split.
    { rewrite I9, B8. unfold getResponses. rewrite T7.
      now rewrite <- app_assoc. }
    split; [cbn [map]; now rewrite B9, I10|].
    split.
    { cbn [map seq]. rewrite T8, I11, B7, T6.
      now rewrite Nat.add_1_r. }
    rewrite (skipn_nth all i pd Hn). cbn [firstn map].
    split; [now rewrite T9, I12 | now rewrite T10, I13].
Qed.

(** A run left alone from the top of its loop: it stores a prompt and a
    response for every entry of its list, generates the analytics and
    completes. *)
Lemma undisturbed_loop (g : Globals) (r : Run) all :
  pc r = LoopTop all 0 0 -> isAnalysisRunning g = true -> wf (storage g) ->
  completedPrompts (currentProgress g) = Some 0 ->
  totalPrompts (currentProgress g) = Some (List.length all) ->
  exists g' r' ps rs,
    exec (solo g r) (repeat (Resume 0) (2 * List.length all + 1))
    = solo g' r'
    /\ pc r' = Finished Completed
    /\ isAnalysisRunning g' = false
    /\ status (currentProgress g') = complete
    /\ completedPrompts (currentProgress g') = Some (List.length all)
    /\ totalPrompts (currentProgress g') = Some (List.length all)
    /\ getPrompts (storage g') = getPrompts (storage g) ++ ps
    /\ getResponses (storage g') = getResponses (storage g) ++ rs
    /\ map promptId rs = map prompt_id ps
    /\ map prompt_id ps
       = seq (currentPromptId (storage g)) (List.length all)
    /\ map prompt_text ps = map ip_text all
    /\ map prompt_topicId ps = map ip_topicId all.
Proof.
  intros Hpc Hf W Hc Ht.
  destruct (iterations_linked (List.length all) g r all 0 0 Hpc
              ltac:(lia) Hf W Hc Ht)
    as (g1 & r1 & ps & rs & I1 & I2 & I3 & I4 & I5 & I6 & I7 & I8 & I9
        & I10 & I11 & I12 & I13).
  rewrite repeat_app, exec_app, I1. cbn [repeat]. unfold exec.
  cbn [fold_left]. rewrite resume_solo.
  cbn [Nat.add skipn] in *. rewrite firstn_all in *.
  assert (Hn : nth_error all (List.length all) = None)
    by (apply nth_error_None; lia).
  exists (fst (stepRun g1 r1)), (snd (stepRun g1 r1)), ps, rs.
  split; [reflexivity|].
  unfold stepRun. rewrite I2, Hn.
  cbn [fst snd pc at_pc isAnalysisRunning set_running set_storage storage
       updateProgress set_progress currentProgress status completedPrompts
       totalPrompts upd u_status u_completedPrompts u_totalPrompts orElse
       generateAnalytics createAnalytics set_analytics prompts responses
       getPrompts getResponses].
  repeat match goal with |- _ /\ _ => split end;
    try reflexivity; assumption.
Qed.

Lemma sourcePrompts_progress (env : Environment) (now : Date) (args : RunArgs)
    (g : Globals) :
  completedPrompts (currentProgress (fst (sourcePrompts env now args g)))
  = Some 0
  /\ totalPrompts (currentProgress (fst (sourcePrompts env now args g)))
     = Some (List.length (snd (sourcePrompts env now args g))).
Proof.
  unfold sourcePrompts.
  destruct (savedGiven args); [split; reflexivity|].
  destruct (useExistingPrompts args); [split; reflexivity|].
  destruct (fold_left _ _ _). split; reflexivity.
Qed.

Lemma sourcePrompts_saved (env : Environment) (now : Date) (args : RunArgs)
    (g : Globals) (saved : list SavedPrompt) :
  savedGiven args = Some saved ->
  getPrompts (storage (fst (sourcePrompts env now args g))) = []
  /\ getResponses (storage (fst (sourcePrompts env now args g))) = []
  /\ currentPromptId (storage (fst (sourcePrompts env now args g))) = 1
  /\ map ip_text (snd (sourcePrompts env now args g)) = map sp_text saved.
Proof.
  intros H. unfold sourcePrompts. rewrite H. cbn -[map].
  rewrite map_map. repeat split; reflexivity.
Qed.

Lemma sourcePrompts_existing (env : Environment) (now : Date)
    (args : RunArgs) (g : Globals) :
  savedGiven args = None -> useExistingPrompts args = true ->
  storage (fst (sourcePrompts env now args g)) = storage g
  /\ snd (sourcePrompts env now args g)
     = map (fun p => {| ip_text := prompt_text p;
                        ip_topicId := prompt_topicId p |})
         (getPrompts (storage g)).
Proof.
  intros H H'. unfold sourcePrompts. rewrite H, H'. split; reflexivity.
Qed.

(** After the call and the initial delay. *)
Lemma started_linked this (args : RunArgs) (env : Environment) (t0 : Date)
    (st0 : t) :
  exists g r all,
    started this args env t0 st0 = solo g r
    /\ pc r = LoopTop all 0 0
    /\ isAnalysisRunning g = true
    /\ (wf st0 -> wf (storage g))
    /\ completedPrompts (currentProgress g) = Some 0
    /\ totalPrompts (currentProgress g) = Some (List.length all)
    /\ (forall saved, savedGiven args = Some saved ->
          getPrompts (storage g) = [] /\ getResponses (storage g) = []
          /\ currentPromptId (storage g) = 1
          /\ map ip_text all = map sp_text saved)
    /\ (savedGiven args = None -> useExistingPrompts args = true ->
          storage g = st0
          /\ all = map (fun p => {| ip_text := prompt_text p;
                                    ip_topicId := prompt_topicId p |})
                     (getPrompts st0)).
Proof.
  unfold started, exec, boot. cbn [fold_left].
  unfold react at 2. unfold enter.
  cbn [globals initialGlobals isAnalysisRunning]. cbn [runs app].
  match goal with
  | |- context [react {| globals := ?g0; runs := [?r0] |} (Resume 0)] =>
      change {| globals := g0; runs := [r0] |} with (solo g0 r0);
      set (g1 := g0); set (r1 := r0)
  end.
  assert (S1 : storage g1 = st0).
  { unfold g1. destruct (settings args) as [s|]; [reflexivity|].
    destruct (savedGiven args); reflexivity. }
  assert (R1 : isAnalysisRunning g1 = true).
  { unfold g1. destruct (settings args) as [s|]; [reflexivity|].
    destruct (savedGiven args); reflexivity. }
  rewrite resume_solo. unfold stepRun. cbn [pc r1].
  pose proof (sourcePrompts_running (Analyzer.env r1)
                (now (Analyzer.env r1) (steps r1)) (Analyzer.args r1) g1) as R.
  pose proof (wf_sourcePrompts (Analyzer.env r1)
                (now (Analyzer.env r1) (steps r1)) (Analyzer.args r1) g1) as Wf.
  pose proof (sourcePrompts_progress (Analyzer.env r1)
                (now (Analyzer.env r1) (steps r1)) (Analyzer.args r1) g1)
    as [Pc Pt].
  pose proof (sourcePrompts_saved (Analyzer.env r1)
                (now (Analyzer.env r1) (steps r1)) (Analyzer.args r1) g1) as Sv.
  pose proof (sourcePrompts_existing (Analyzer.env r1)
                (now (Analyzer.env r1) (steps r1)) (Analyzer.args r1) g1) as Ex.
  destruct (sourcePrompts _ _ _ g1) as [g2 all].
  exists g2, (at_pc r1 (LoopTop all 0 0)), all.
  cbn [fst snd] in *. rewrite S1 in *.
  split; [reflexivity|]. split; [reflexivity|].
  split; [congruence|]. split; [exact Wf|].
  split; [exact Pc|]. split; [exact Pt|]. split; [exact Sv | exact Ex].
Qed.

(** X17.  A run that is left alone (no other call, no cancel request)
    over a storage that satisfies the invariant stores one prompt and one
    response for every entry of its prompt list, in the order of the
    list, each response linked to the prompt stored in the same
    iteration; it then completes with the flag cleared and with
    [completedPrompts] equal to [totalPrompts]. *)
Theorem undisturbed_run_links_responses this (args : RunArgs)
    (env : Environment) (t0 : Date) (st0 : t) (W : wf st0) :
  let sys0 := started this args env t0 st0 in
  let all := promptsOf sys0 in
  let final := exec sys0 (repeat (Resume 0) (2 * List.length all + 1)) in
  exists ps rs,
    pcs final = [Finished Completed]
    /\ isAnalysisRunning (globals final) = false
    /\ status (progressOf final) = complete
    /\ completedPrompts (progressOf final) = Some (List.length all)
    /\ totalPrompts (progressOf final) = Some (List.length all)
    /\ getPrompts (storage (globals final))
       = getPrompts (storage (globals sys0)) ++ ps
    /\ getResponses (storage (globals final))
       = getResponses (storage (globals sys0)) ++ rs
    /\ map prompt_text ps = map ip_text all
    /\ map promptId rs = map prompt_id ps.
Proof.
  intros sys0 all final.
  destruct (started_linked this args env t0 st0)
    as (g & r & all' & E & Hpc & Hf & Wf & Hc & Ht & _ & _).
  assert (Ea : all = all').
  { unfold all, sys0. rewrite E. now apply (promptsOf_top g r all' 0 0). }
  destruct (undisturbed_loop g r all' Hpc Hf (Wf W) Hc Ht)
    as (g' & r' & ps & rs & U1 & U2 & U3 & U4 & U5 & U6 & U7 & U8 & U9
        & U10 & U11 & U12).
  exists ps, rs. unfold final, sys0, progressOf, pcs.
  rewrite Ea, E, U1. cbn [globals runs solo map].
  rewrite U2.
  repeat match goal with |- _ /\ _ => split end; try assumption; reflexivity.
Qed.


(** X19.  A run with [useExistingPrompts] that is left alone stores every
    prompt it tests once more: afterwards the prompts are the ones stored
    before followed by a copy of each, with the same text and topic, and
    the new responses are linked to the copies. *)
Theorem existing_prompts_are_stored_again this (args : RunArgs)
    (env : Environment) (t0 : Date) (st0 : t)
    (W : wf st0) (Hs : savedGiven args = None)
    (He : useExistingPrompts args = true) :
  let final :=
    exec (started this args env t0 st0)
      (repeat (Resume 0) (2 * List.length (getPrompts st0) + 1)) in
  exists copies rs,
    pcs final = [Finished Completed]
    /\ getPrompts (storage (globals final)) = getPrompts st0 ++ copies
    /\ map prompt_text copies = map prompt_text (getPrompts st0)
    /\ map prompt_topicId copies = map prompt_topicId (getPrompts st0)
    /\ getResponses (storage (globals final)) = getResponses st0 ++ rs
    /\ map promptId rs = map prompt_id copies.
Proof.
  intros final.
  destruct (started_linked this args env t0 st0)
    as (g & r & all & E & Hpc & Hf & Wf & Hc & Ht & _ & Ex).
  destruct (Ex Hs He) as (S1 & S2).
  assert (L : List.length all = List.length (getPrompts st0))
    by (rewrite S2; apply length_map).
  destruct (undisturbed_loop g r all Hpc Hf (Wf W) Hc Ht)
    as (g' & r' & ps & rs & U1 & U2 & U3 & U4 & U5 & U6 & U7 & U8 & U9
        & U10 & U11 & U12).
  exists ps, rs. unfold final, pcs. rewrite E, <- L, U1.
  cbn [globals runs solo map]. rewrite U2, U7, U8, S1, U9, U11, U12, S2.
  rewrite !map_map. cbn [ip_text ip_topicId].
  repeat match goal with |- _ /\ _ => split end; reflexivity.
Qed.

Lemma undisturbed_run_witness :
  let sys0 := started Examples.me Examples.two_saved Examples.env_ok
                0 MemStorage.empty in
  let all := promptsOf sys0 in
  let final := exec sys0 (repeat (Resume 0) (2 * List.length all + 1)) in
  exists ps rs,
    pcs final = [Finished Completed]
    /\ isAnalysisRunning (globals final) = false
    /\ status (progressOf final) = complete
    /\ completedPrompts (progressOf final) = Some (List.length all)
    /\ totalPrompts (progressOf final) = Some (List.length all)
    /\ getPrompts (storage (globals final))
       = getPrompts (storage (globals sys0)) ++ ps
    /\ getResponses (storage (globals final))
       = getResponses (storage (globals sys0)) ++ rs
    /\ map prompt_text ps = map ip_text all
    /\ map promptId rs = map prompt_id ps.
Proof.
  apply (undisturbed_run_links_responses Examples.me Examples.two_saved
           Examples.env_ok 0 MemStorage.empty).
  unfold wf, keyed; simpl. repeat split; constructor.
Defined.


Lemma existing_prompts_witness :
  let final :=
    exec (started Examples.me Examples.stored_prompts Examples.env_ok
            0 Examples.small_store)
      (repeat (Resume 0) 5) in
  exists copies rs,
    pcs final = [Finished Completed]
    /\ getPrompts (storage (globals final))
       = getPrompts Examples.small_store ++ copies
    /\ map prompt_text copies
       = map prompt_text (getPrompts Examples.small_store)
    /\ map prompt_topicId copies
       = map prompt_topicId (getPrompts Examples.small_store)
    /\ getResponses (storage (globals final))
       = getResponses Examples.small_store ++ rs
    /\ map promptId rs = map prompt_id copies.
Proof.
  apply (existing_prompts_are_stored_again Examples.me
           Examples.stored_prompts Examples.env_ok 0 Examples.small_store).
  - unfold wf, keyed; simpl. repeat split; repeat constructor; simpl; lia.
  - reflexivity.
  - reflexivity.
Defined.

End LinkFacts.

(** ** The end of a run and the size of a fresh analysis *)

Section ProgramFacts.
Import MemStorage Analyzer Statements.

(** X20.  Whichever way a run ends (completed or cancelled), the step
    that ends it leaves [isAnalysisRunning] cleared. *)
Theorem ending_step_clears_the_flag (g : Globals) (r : Run)
    (Hact : active r = true)
    (Hend : active (snd (stepRun g r)) = false) :
  isAnalysisRunning (fst (stepRun g r)) = false.
Proof.
  unfold active, stepRun in *.
  destruct (pc r) as [|all i c|all i c prompt|o] eqn:Hpc.
  - destruct (sourcePrompts _ _ _ g) as [g' all]. discriminate.
  - destruct (nth_error all i) as [pd|]; [|reflexivity].
    destruct (isAnalysisRunning g); [discriminate | reflexivity].
  - destruct (nth_error all i) as [pd|]; [discriminate|].
    cbn [snd] in Hend. rewrite Hpc in Hend. discriminate.
  - discriminate.
Qed.

Lemma ending_step_witness :
  isAnalysisRunning
    (fst (stepRun (set_running (initialGlobals 0 MemStorage.empty) true)
            Examples.at_the_end))
  = false.
Proof.
  apply (ending_step_clears_the_flag
           (set_running (initialGlobals 0 MemStorage.empty) true)
           Examples.at_the_end); reflexivity.
Defined.

Lemma generatePromptsForTopic_length (completion : nat -> option string)
    (topicName topicDescription : string) (count : nat) :
  List.length
    (OpenAI.generatePromptsForTopic completion topicName topicDescription
       count)
  = count.
Proof.
  unfold OpenAI.generatePromptsForTopic.
  set (accepted := OpenAI.attemptLoop _ _ _ _ _).
  assert (A : List.length accepted <= count)
    by (apply attemptLoop_length; simpl; lia).
  destruct (fillToCount_spec topicName count accepted A)
    as (added & E & _ & B & _).
  rewrite length_firstn, E, app_assoc, length_app, length_map, length_seq.
  lia.
Qed.

Lemma addTopicPrompts_length (env : Environment) (now : Date)
    (args : RunArgs) (acc : t * list InsertPrompt) (topic : InsertTopic) :
  List.length (snd (addTopicPrompts env now args acc topic))
  = List.length (snd acc) + promptsPerTopicOf args.
Proof.
  destruct acc as [st all]. unfold addTopicPrompts.
  destruct (find _ (getTopics st)) as [found|];
    [|destruct (createTopic now topic st) as [st' rec]];
    cbn [snd]; now rewrite length_app, length_map,
                 generatePromptsForTopic_length.
Qed.

Lemma fold_topics_length (env : Environment) (now : Date) (args : RunArgs)
    (topics : list InsertTopic) (acc : t * list InsertPrompt) :
  List.length (snd (fold_left (addTopicPrompts env now args) topics acc))
  = List.length (snd acc) + List.length topics * promptsPerTopicOf args.
Proof.
  revert acc. induction topics as [|x xs IH]; intros acc; simpl; [lia|].
  rewrite IH, addTopicPrompts_length. lia.
Qed.

(** X21.  A fresh analysis (no saved prompts, no reuse of stored ones)
    tests seven times [promptsPerTopic] prompts (20 when the setting is
    absent or 0), whatever [numberOfTopics] asks for, and announces that
    number as [totalPrompts]. *)
Theorem fresh_analysis_has_seven_topics (env : Environment) (now : Date)
    (args : RunArgs) (g : Globals)
    (Hs : savedGiven args = None) (He : useExistingPrompts args = false) :
  List.length (snd (sourcePrompts env now args g))
  = 7 * promptsPerTopicOf args
  /\ totalPrompts (currentProgress (fst (sourcePrompts env now args g)))
     = Some (7 * promptsPerTopicOf args).
Proof.
  assert (L : List.length (snd (sourcePrompts env now args g))
              = 7 * promptsPerTopicOf args).
  { unfold sourcePrompts. rewrite Hs, He.
    match goal with
    | |- context [fold_left ?f ?l ?a] =>
        pose proof (fold_topics_length env now args l a) as F;
        destruct (fold_left f l a) as [st all]
    end.
    cbn [fst snd] in *. rewrite F. cbn [List.length generatedTopics map].
    lia. }
  split; [exact L|].
  rewrite (proj2 (sourcePrompts_progress env now args g)). now rewrite L.
Qed.

Lemma fresh_analysis_witness :
  List.length
    (snd (sourcePrompts Examples.env_ok 1 Examples.three_topics
            (initialGlobals 0 MemStorage.empty)))
  = 14
  /\ totalPrompts
       (currentProgress
          (fst (sourcePrompts Examples.env_ok 1 Examples.three_topics
                  (initialGlobals 0 MemStorage.empty))))
     = Some 14.
Proof.
  apply (fresh_analysis_has_seven_topics Examples.env_ok 1
           Examples.three_topics (initialGlobals 0 MemStorage.empty));
    reflexivity.
Defined.

End ProgramFacts.

(** ** The mock analyzer: single flight, cancellation, categories *)

Section MockFacts.
Import Text MockAnalyzer.

Lemma set_nth_count {A : Type} (p : A -> bool) (rid : nat) (x y : A)
    (l : list A) :
  nth_error l rid = Some x ->
  List.length (filter p (Analyzer.set_nth rid y l))
  + (if p x then 1 else 0)
  = List.length (filter p l) + (if p y then 1 else 0).
Proof.
  revert rid. induction l as [|z l IH]; intros [|rid] H; simpl in *;
    try discriminate.
  - injection H as ->. destruct (p x), (p y); simpl; lia.
  - specialize (IH rid H). destruct (p z); simpl; lia.
Qed.

Lemma set_nth_same {A : Type} (rid : nat) (x : A) (l : list A) :
  nth_error l rid = Some x -> Analyzer.set_nth rid x l = l.
Proof.
  revert rid. induction l as [|z l IH]; intros [|rid] H; simpl in *;
    try discriminate.
  - now injection H as ->.
  - now rewrite IH.
Qed.

Lemma nth_active {A : Type} (p : A -> bool) (rid : nat) (x : A)
    (l : list A) :
  nth_error l rid = Some x -> p x = true -> 0 < List.length (filter p l).
Proof.
  intros H Hp. apply nth_error_In in H.
  assert (I : In x (filter p l)) by (apply filter_In; tauto).
  destruct (filter p l); [contradiction | simpl; lia].
Qed.

(** A step of an active run while the flag is set: the run stays active
    with the flag set, or it ends and clears the flag. *)
Lemma stepRun_flag (g : Globals) (r : Run) :
  active r = true -> isAnalysisRunning g = true ->
  (active (snd (stepRun g r)) = true
   /\ isAnalysisRunning (fst (stepRun g r)) = true)
  \/ (active (snd (stepRun g r)) = false
      /\ isAnalysisRunning (fst (stepRun g r)) = false).
Proof.
  intros Ha Hf. unfold active, stepRun in *.
  destruct (pc r) as [|i c|i c prompt|o]; [| | |discriminate].
  - left. split; [reflexivity | exact Hf].
  - destruct (nth_error (savedPrompts r) i) as [pd|].
    + rewrite Hf. cbn [negb]. left. split; [reflexivity | exact Hf].
    + unfold afterLoop. rewrite Hf. right. split; reflexivity.
  - left. split; [reflexivity | exact Hf].
Qed.

(** Without cancel requests, the flag tells whether a run is active. *)
Lemma react_single_flight (sys : System) (ev : Event) :
  isStop ev = false ->
  activeRuns sys = (if isAnalysisRunning (globals sys) then 1 else 0) ->
  activeRuns (react sys ev)
  = (if isAnalysisRunning (globals (react sys ev)) then 1 else 0).
Proof.
  intros Hs Inv. destruct ev as [saved env|rid|]; [| |discriminate].
  - unfold react, enter, activeRuns in *.
    destruct (isAnalysisRunning (globals sys)) eqn:Hf;
      cbn [globals runs]; rewrite filter_app, length_app, Inv; simpl.
    + now rewrite Hf.
    + reflexivity.
  - unfold react. destruct (nth_error (runs sys) rid) as [r|] eqn:Hn;
      [|exact Inv].
    destruct (active r) eqn:Ha.
    + pose proof (nth_active active rid r (runs sys) Hn Ha) as Pos.
      fold (activeRuns sys) in Pos.
      destruct (isAnalysisRunning (globals sys)) eqn:Hf; [|lia].
      pose proof (stepRun_flag (globals sys) r Ha Hf) as St.
      pose proof (set_nth_count active rid r (snd (stepRun (globals sys) r))
                    (runs sys) Hn) as Cn.
      destruct (stepRun (globals sys) r) as [g' r'].
      cbn [fst snd globals runs] in *. unfold activeRuns in *.
      cbn [runs]. rewrite Ha in Cn.
      destruct St as [[S1 S2]|[S1 S2]]; rewrite S1 in Cn; rewrite S2; lia.
    + assert (E : stepRun (globals sys) r = (globals sys, r)).
      { unfold stepRun. unfold active in Ha.
        destruct (pc r); try discriminate. reflexivity. }
      rewrite E. cbn [globals runs]. unfold activeRuns in *. cbn [runs].
      now rewrite (set_nth_same rid r (runs sys) Hn).
Qed.

(** X22.  The mock analyzer is single-flight as long as nobody cancels:
    along every schedule of calls and steps, at most one run is active,
    and one is active exactly when [isAnalysisRunning] is set; a call
    made meanwhile changes neither the flag, the progress nor the
    storage. *)
Theorem mock_single_flight (st : MemStorage.t) (evs : list Event)
    (Hs : forallb (fun ev => negb (isStop ev)) evs = true) :
  let sys := exec (boot st) evs in
  activeRuns sys = (if isAnalysisRunning (globals sys) then 1 else 0)
  /\ forall saved env,
       isAnalysisRunning (globals sys) = true ->
       globals (react sys (Call saved env)) = globals sys.
Proof.
  cbv zeta. split.
  - unfold exec.
    assert (Inv : activeRuns (boot st)
                  = (if isAnalysisRunning (globals (boot st)) then 1 else 0))
      by reflexivity.
    revert Inv. generalize (boot st).
    induction evs as [|ev evs IH]; intros sys Inv; simpl; [exact Inv|].
    simpl in Hs. apply andb_true_iff in Hs. destruct Hs as [H1 H2].
    apply (IH H2). apply react_single_flight; [|exact Inv].
    now destruct (isStop ev).
  - intros saved env Hf. unfold react, enter. now rewrite Hf.
Qed.

Lemma mock_single_flight_witness :
  let sys :=
    exec (boot MemStorage.empty)
      [Call Examples.one_saved Examples.mock_env;
       Call Examples.one_saved Examples.mock_env; Resume 0; Resume 0] in
  activeRuns sys = (if isAnalysisRunning (globals sys) then 1 else 0)
  /\ forall saved env,
       isAnalysisRunning (globals sys) = true ->
       globals (react sys (Call saved env)) = globals sys.
Proof.
  apply (mock_single_flight MemStorage.empty
           [Call Examples.one_saved Examples.mock_env;
            Call Examples.one_saved Examples.mock_env; Resume 0; Resume 0]).
  reflexivity.
Defined.

Lemma mock_resume_solo (g : Globals) (r : Run) :
  react {| globals := g; runs := [r] |} (Resume 0)
  = {| globals := fst (stepRun g r); runs := [snd (stepRun g r)] |}.
Proof.
  unfold react. cbn [runs nth_error globals].
  destruct (stepRun g r). reflexivity.
Qed.

(** X23.  In the mock analyzer a cancel request that arrives while a
    prompt is being processed ends the run at the next loop test, but is
    not reported: the update at the end of the iteration overwrites the
    cancellation record, and the progress stays at [testing_prompts]
    with the prompt counted as completed. *)
Theorem mock_cancel_during_prompt_is_not_reported (g : Globals)
    (saved : list Analyzer.SavedPrompt) (e : Environment) (i c n : nat)
    (prompt : MemStorage.Prompt) :
  let r := {| savedPrompts := saved; env := e; pc := InBody i c prompt;
              steps := n |} in
  let final :=
    exec {| globals := g; runs := [r] |} [Stop; Resume 0; Resume 0] in
  map pc (runs final) = [Finished Analyzer.Cancelled]
  /\ isAnalysisRunning (globals final) = false
  /\ Analyzer.status (currentProgress (globals final))
     = Analyzer.testing_prompts
  /\ Analyzer.completedPrompts (currentProgress (globals final))
     = Some (c + 1).
Proof.
  intros r final.
  assert (E : final
              = {| globals :=
                     fst (stepRun (fst (stepRun (stopCurrentAnalysis g) r))
                            (snd (stepRun (stopCurrentAnalysis g) r)));
                   runs :=
                     [snd (stepRun (fst (stepRun (stopCurrentAnalysis g) r))
                             (snd (stepRun (stopCurrentAnalysis g) r)))] |}).
  { unfold final, exec. cbn [fold_left].
    change (react _ Stop)
      with {| globals := stopCurrentAnalysis g; runs := [r] |}.
    now rewrite !mock_resume_solo. }
  rewrite E. clear E final. unfold stepRun, r.
  cbn [pc env steps savedPrompts at_pc fst snd globals runs map].
  destruct (nth_error saved (i + 1)) as [pd|];
    repeat match goal with |- _ /\ _ => split end; reflexivity.
Qed.

Lemma includes_prefix (s p q : string) :
  String.prefix (p ++ q) s = true -> String.prefix p s = true.
Proof.
  revert s. induction p as [|a p IH]; intros [|b s] H; simpl in *;
    try reflexivity; try discriminate.
  destruct (Ascii.ascii_dec a b); [now apply IH | discriminate].
Qed.

Lemma includes_longer (s p q : string) :
  includes s (p ++ q) = true -> includes s p = true.
Proof.
  induction s as [|a s IH]; cbn [includes]; intros H.
  - rewrite orb_false_r in *. now apply (includes_prefix "" p q).
  - apply orb_true_iff in H. apply orb_true_iff.
    destruct H as [H|H]; [left; now apply (includes_prefix _ p q) | right; auto].
Qed.

(** X24.  The keyword test of the mock analyzer files every name that
    contains [cloudflare] under [Cloud Platform]: the test for [cloud]
    comes first, so the [cloudflare] keyword of the CDN category never
    decides. *)
Theorem cloudflare_is_a_cloud_platform (name : string)
    (H : includes (toLowerCase name) "cloudflare" = true) :
  categoryByName name = "Cloud Platform".
Proof.
  unfold categoryByName.
  now rewrite (includes_longer (toLowerCase name) "cloud" "flare" H).
Qed.

Lemma cloudflare_witness :
  categoryByName "Cloudflare Pages" = "Cloud Platform".
Proof.
  apply (cloudflare_is_a_cloud_platform "Cloudflare Pages"). reflexivity.
Defined.

End MockFacts.

(** ** The database storage: counts start from the stored zero *)

Section DatabaseCountFacts.
Import MemStorage.

(** X25.  On the database storage the orchestrator's sequence "create
    with count 0, then increment by 1" leaves the count 1, for a new
    competitor and for a new source alike: the zero is stored as it is
    and the update adds to it. *)
Theorem database_counts_from_one (name d u : string)
    (cat ttl : option string) (db db' : DatabaseStorage.t) (c : Competitor)
    (Hc : DatabaseStorage.createCompetitor
            {| ic_name := name; ic_category := cat;
               ic_mentionCount := Some 0%Z |} db
          = Some (db', c))
    (Hd : DatabaseStorage.getSourceByDomain d db = None) :
  option_map mentionCount
    (DatabaseStorage.getCompetitorByName name
       (DatabaseStorage.updateCompetitorMentionCount name 1 db'))
  = Some (Some 1%Z)
  /\ option_map citationCount
       (DatabaseStorage.getSourceByDomain d
          (DatabaseStorage.updateSourceCitationCount d 1
             (fst (DatabaseStorage.createSource
                     {| is_domain := d; is_url := u; is_title := ttl;
                        is_citationCount := Some 0%Z |} db))))
     = Some (Some 1%Z).
Proof.
  split.
  - exact (database_create_then_increment name cat db db' c Hc).
  - exact (database_source_then_increment d u ttl db Hd).
Qed.

Lemma database_counts_witness :
  let db := {| DatabaseStorage.competitors := [];
               DatabaseStorage.sources := [];
               DatabaseStorage.nextCompetitorId := 1;
               DatabaseStorage.nextSourceId := 1 |} in
  let c := {| competitor_id := 1; competitor_name := "Acme";
              category := None; mentionCount := Some 0%Z;
              lastMentioned := None |} in
  let db' := {| DatabaseStorage.competitors := [c];
                DatabaseStorage.sources := [];
                DatabaseStorage.nextCompetitorId := 2;
                DatabaseStorage.nextSourceId := 1 |} in
  option_map mentionCount
    (DatabaseStorage.getCompetitorByName "Acme"
       (DatabaseStorage.updateCompetitorMentionCount "Acme" 1 db'))
  = Some (Some 1%Z)
  /\ option_map citationCount
       (DatabaseStorage.getSourceByDomain "acme.io"
          (DatabaseStorage.updateSourceCitationCount "acme.io" 1
             (fst (DatabaseStorage.createSource
                     {| is_domain := "acme.io"; is_url := "https://acme.io";
                        is_title := None;
                        is_citationCount := Some 0%Z |} db))))
     = Some (Some 1%Z).
Proof.
  intros db c db'.
  apply (database_counts_from_one "Acme" "acme.io" "https://acme.io" None
           None db db' c); reflexivity.
Defined.

End DatabaseCountFacts.

(** ** Topics and competitors proposed by the completion service *)

Section ProposalFacts.
Import Text OpenAI Statements.

Lemma truthy_nonempty (x : option string) (n : string) :
  truthy x = Some n -> n <> "".
Proof.
  destruct x as [[|c x]|]; simpl; intros H; try discriminate.
  injection H as <-. discriminate.
Qed.

Lemma topicOf_nonempty (name description : option string) :
  td_name (topicOf name description) <> ""
  /\ td_description (topicOf name description) <> "".
Proof.
  unfold topicOf. simpl. split.
  - destruct (truthy name) as [n|] eqn:E; [|discriminate].
    now apply (truthy_nonempty name).
  - destruct (truthy description) as [d|] eqn:E; [|discriminate].
    now apply (truthy_nonempty description).
Qed.

Lemma numberedTopics_spec (prefix description : string) (count : nat) :
  prefix <> "" -> description <> "" ->
  List.length (numberedTopics prefix description count) = count
  /\ Forall (fun t => td_name t <> "" /\ td_description t <> "")
       (numberedTopics prefix description count).
Proof.
  intros Hp Hd. unfold numberedTopics. split.
  - now rewrite length_map, length_seq.
  - apply Forall_map, Forall_forall. intros i _. simpl. split; [|exact Hd].
    destruct prefix; [congruence | discriminate].
Qed.

(** X26.  [generateDynamicTopics] never returns more than [count] topics
    and never a topic with an empty name or description; it returns
    exactly [count] topics when the reply is no array or the call fails,
    but only as many as the array holds when the array is shorter. *)
Theorem generateDynamicTopics_bounds (reply : TopicsReply) (count : nat) :
  let r := generateDynamicTopics reply count in
  List.length r <= count
  /\ Forall (fun t => td_name t <> "" /\ td_description t <> "") r
  /\ match reply with
     | TopicsArray items =>
         Forall (fun item => item <> TopicNull) items ->
         List.length r = Nat.min count (List.length items)
     | _ => List.length r = count
     end.
Proof.
  cbv zeta.
  pose proof (numberedTopics_spec "Brand Analysis "
                "Comprehensive analysis of brand positioning and market dynamics"
                count ltac:(discriminate) ltac:(discriminate)) as [F1 F2].
  pose proof (numberedTopics_spec "Analysis Topic "
                "Dynamic analysis topic generated for brand analysis"
                count ltac:(discriminate) ltac:(discriminate)) as [N1 N2].
  destruct reply as [| |items]; cbn [generateDynamicTopics].
  - rewrite F1. repeat split; [lia | exact F2].
  - rewrite N1. repeat split; [lia | exact N2].
  - assert (L : forall l : list TopicItem,
              existsb (fun item => match item with
                                   | TopicNull => true
                                   | _ => false
                                   end) l = false ->
              List.length
                (flat_map (fun item => match item with
                                       | TopicFields name description =>
                                           [topicOf name description]
                                       | TopicNull => []
                                       end) l)
              = List.length l).
    { induction l as [|[|n d] l IH]; simpl; intros H;
        [reflexivity | discriminate | now rewrite IH]. }
    destruct (existsb _ (firstn count items)) eqn:E.
    + rewrite F1. split; [lia|]. split; [exact F2|].
      intros Hn. exfalso. apply existsb_exists in E.
      destruct E as ([|n d] & Hin & Hx); [|discriminate].
      rewrite Forall_forall in Hn.
      now apply (Hn TopicNull (firstn_incl _ _ _ Hin)).
    + rewrite (L _ E), length_firstn. split; [lia|]. split; [|intros _; lia].
      apply Forall_forall. intros t Ht. apply in_flat_map in Ht.
      destruct Ht as ([|n d] & _ & Ht); simpl in Ht; [contradiction|].
      destruct Ht as [<-|[]]. apply topicOf_nonempty.
Qed.

Lemma NoDup_firstn_map {A B : Type} (f : A -> B) (n : nat) (l : list A) :
  NoDup (map f l) -> NoDup (map f (firstn n l)).
Proof.
  revert n. induction l as [|x l IH]; intros [|n] N; simpl;
    try constructor.
  - inversion N as [|? ? N1 N2]; subst. intros H. apply N1.
    apply in_map_iff in H. destruct H as (y & E & Hy).
    apply in_map_iff. exists y. split; [exact E|].
    now apply (firstn_incl n l).
  - inversion N; subst. now apply IH.
Qed.

Lemma NoDup_snoc {A : Type} (l : list A) (x : A) :
  NoDup l -> ~ In x l -> NoDup (l ++ [x]).
Proof.
  induction 1 as [|y l Hy Hl IH]; intros Hx; simpl.
  - constructor; [tauto | constructor].
  - constructor.
    + rewrite in_app_iff. simpl. intros [H|[H|[]]]; [tauto|].
      apply Hx. now left.
    + apply IH. intros H. apply Hx. now right.
Qed.

Lemma aggregate_spec (found : list FoundCompetitor) :
  forall (seenNames : list string) (acc all : list FoundCompetitor),
    seenNames = map nameKey acc -> NoDup seenNames ->
    Forall hasStringName acc ->
    aggregate found seenNames acc = Some all ->
    NoDup (map nameKey all)
    /\ Forall hasStringName all
    /\ (forall c, In c all -> In c acc \/ In c found).
Proof.
  induction found as [|c rest IH]; intros seen acc all Hs N F H; simpl in H.
  - injection H as <-. subst seen.
    split; [assumption|]. split; [assumption|]. intros c Hc. now left.
  - destruct (fc_name c) as [name|] eqn:En; [|discriminate].
    destruct (mem (trim (toLowerCase name)) seen) eqn:M.
    + destruct (IH seen acc all Hs N F H) as (H1 & H2 & H3).
      split; [assumption|]. split; [assumption|].
      intros x Hx. destruct (H3 x Hx); [now left | right; now right].
    + assert (K : nameKey c = trim (toLowerCase name))
        by (unfold nameKey; now rewrite En).
      destruct (IH (seen ++ [trim (toLowerCase name)]) (acc ++ [c]) all)
        as (H1 & H2 & H3).
      * rewrite map_app, Hs. simpl. now rewrite K.
      * apply NoDup_snoc; [assumption | now apply mem_false].
      * apply Forall_app. split; [assumption|].
        constructor; [now exists name | constructor].
      * exact H.
      * split; [assumption|]. split; [assumption|].
        intros x Hx. destruct (H3 x Hx) as [Hin|Hin]; [|right; now right].
        apply in_app_iff in Hin. simpl in Hin.
        destruct Hin as [Hin|[<-|[]]]; [now left | right; now left].
Qed.

(** X27.  [analyzeBrandAndFindCompetitors] returns at most eight
    competitors, all with a string name, no two with the same name once
    case and surrounding white space are ignored; without an API key
    these are the two samples, otherwise each was found by one of the
    three attempts. *)
Theorem analyzeBrand_bounds (hasKey : bool)
    (attempt : nat -> list FoundCompetitor) :
  let r := analyzeBrandAndFindCompetitors hasKey attempt in
  List.length r <= 8
  /\ NoDup (map nameKey r)
  /\ Forall hasStringName r
  /\ (if hasKey
      then forall c, In c r -> exists i, i < 3 /\ In c (attempt i)
      else r = sampleCompetitors).
Proof.
  unfold analyzeBrandAndFindCompetitors. destruct hasKey; cbn [negb].
  - destruct (aggregate _ [] []) as [all|] eqn:E; cbv zeta.
    + destruct (aggregate_spec _ [] [] all eq_refl (NoDup_nil _)
                  (Forall_nil _) E) as (H1 & H2 & H3).
      split; [rewrite length_firstn; lia|].
      split; [now apply NoDup_firstn_map|].
      split.
      * apply Forall_forall. intros c Hc. rewrite Forall_forall in H2.
        apply H2. now apply (firstn_incl 8 all).
      * intros c Hc. apply firstn_incl in Hc.
        destruct (H3 c Hc) as [[]|Hin]. apply in_flat_map in Hin.
        destruct Hin as (i & Hi & Hin). exists i. split; [|exact Hin].
        apply in_seq in Hi. lia.
    + split; [simpl; lia|]. split; [constructor|]. split; [constructor|].
      intros c [].
  - cbv zeta. split; [simpl; lia|]. split.
    + vm_compute. repeat constructor; simpl; intuition discriminate.
    + split; [|reflexivity].
      repeat constructor; eexists; reflexivity.
Qed.

End ProposalFacts.
